(** * Low-latency limit order book: analysis pipeline and backtest simulator

    A shallow embedding of the Python sources

    - [analysis/load_lobster.py]   (module [LoadLobster]),
    - [analysis/clean_validate.py] (module [CleanValidate]),
    - [analysis/features.py]       (module [Features]),
    - [analysis/labels.py]         (module [Labels]),
    - [analysis/run.py]            (module [Run], the run over one pair of
      sources without its file output),
    - [strategy.py]                (module [Strategy]),

    together with the properties of the design document that concern them
    and further properties read off the code.

    Conventions of the embedding.

    - A numpy [int64] value is a [Z]; arithmetic that numpy performs on
      [int64] operands is wrapped with [wrap64].  Python's own integers
      (loop counters, [len]) are unbounded and stay plain [Z] or [nat].
    - A numpy [float64] value is a binary64 [float] of the kernel
      ([PrimFloat]): [nan], the infinities and rounding are the IEEE ones.
    - A pandas column is a [column]: a list of [int64] or a list of
      [float64]; a [DataFrame] is a row count (its default range index) and
      a finite map from column names to columns.  The raw LOBSTER columns
      are read with the dtype [load_lobster] declares for them, [int64];
      [mid] and [spread] are read as [float64].
    - Frames live in a [store] so that [df.copy()] and
      [frame[name] = values] are an allocation and an in-place update.
    - A Python exception is a [Raise e] result.
    - The rolling sum and standard deviation of pandas are the sum and the
      sample standard deviation of the observed entries of the window,
      added from the oldest entry on; pandas updates them incrementally,
      which may round differently but reads the same rows.
    - The simulator of [strategy.py] works on Python floats whose only use
      is field arithmetic, comparison and [math.log]; it is embedded over
      [R], and the matching engine and the predictive model are parameters. *)

From Stdlib Require Import ZArith Lia Floats Reals Lra.
From Stdlib Require Uint63.
From stdpp Require Import gmap strings list fin_maps pretty sorting.

#[local] Open Scope Z_scope.
#[local] Set Warnings "-inexact-float".

(** ** Python results *)

(** The exceptions of the code.  [ValueError] stands for its subclasses
    too (pandas' IntCastingNaNError).  [UnsupportedDtype] is not a Python
    exception: it marks a frame whose raw columns do not have the dtypes
    [load_lobster] declares ([int64] for the message and order book columns,
    [float64] for [mid] and [spread]); such frames are outside this
    embedding. *)
Inductive exn : Type :=
| KeyError
| IndexError
| ValueError
| ZeroDivisionError
| OverflowError
| RuntimeError
| UnsupportedDtype.

Inductive result (A : Type) : Type :=
| Ok (a : A)
| Raise (e : exn).

Arguments Ok {A} a.
Arguments Raise {A} e.

Definition bind {A B : Type} (r : result A) (k : A -> result B) : result B :=
  match r with
  | Ok a => k a
  | Raise e => Raise e
  end.

Notation "x <~ r ;; k" := (bind r (fun x => k))
  (at level 100, r at next level, right associativity).

Definition of_option {A : Type} (e : exn) (o : option A) : result A :=
  match o with
  | Some a => Ok a
  | None => Raise e
  end.

Definition of_result {A : Type} (r : result A) : option A :=
  match r with
  | Ok a => Some a
  | Raise _ => None
  end.

(** ** numpy scalars *)

Module Numpy.

Definition int64_min : Z := - 2 ^ 63.
Definition int64_max : Z := 2 ^ 63 - 1.

(** Two's complement wrap-around of an [int64] result. *)
Definition wrap64 (z : Z) : Z := (z + 2 ^ 63) mod 2 ^ 64 - 2 ^ 63.

Definition in_int64 (z : Z) : Prop := int64_min <= z <= int64_max.

(** [int64 -> float64] conversion of an [int64] value (round to nearest,
    ties to even): the kernel converts the magnitude, the sign is put
    back; [- 2 ^ 63] is a power of two. *)
Definition of_Z (z : Z) : float :=
  if z =? int64_min then (-0x1p+63)%float
  else if 0 <=? z then of_uint63 (Uint63.of_Z z)
  else (- of_uint63 (Uint63.of_Z (- z)))%float.

(** [np.maximum]: a NaN operand gives NaN. *)
Definition maximum (a b : float) : float :=
  if is_nan a then nan
  else if is_nan b then nan
  else if (a <? b)%float then b else a.

Lemma wrap64_id z : in_int64 z -> wrap64 z = z.
Proof.
  unfold in_int64, int64_min, int64_max, wrap64. intros H.
  rewrite Z.mod_small; lia.
Qed.

Lemma wrap64_range z : in_int64 (wrap64 z).
Proof.
  unfold in_int64, int64_min, int64_max, wrap64.
  pose proof (Z.mod_pos_bound (z + 2 ^ 63) (2 ^ 64)). lia.
Qed.

(** NaN absorbs subtraction and fails every comparison. *)
Lemma sub_nan_l x : (nan - x)%float = nan.
Proof.
  apply Prim2SF_inj. rewrite FloatAxioms.sub_spec.
  change (Prim2SF nan) with S754_nan. reflexivity.
Qed.

Lemma ltb_nan_l x : (nan <? x)%float = false.
Proof. rewrite FloatAxioms.ltb_spec. reflexivity. Qed.

Lemma ltb_nan_r x : (x <? nan)%float = false.
Proof.
  rewrite FloatAxioms.ltb_spec. change (Prim2SF nan) with S754_nan.
  unfold SFltb, SFcompare.
  destruct (Prim2SF x) as [[]|[]| |[] ? ?]; reflexivity.
Qed.

(** The conversion of an integer is never NaN: rounding a mantissa
    that is not negative never produces one. *)
Lemma shr_1_nonneg mrs : 0 <= shr_m mrs -> 0 <= shr_m (shr_1 mrs).
Proof.
  destruct mrs as [m r s]. cbn. destruct m as [|[p|p|]|p]; cbn; lia.
Qed.

Lemma iter_pos_shr_1_nonneg p mrs :
  0 <= shr_m mrs -> 0 <= shr_m (SpecFloat.iter_pos shr_1 p mrs).
Proof.
  revert mrs. induction p as [p IH|p IH|]; intros mrs H; cbn.
  - apply IH, IH, shr_1_nonneg, H.
  - apply IH, IH, H.
  - apply shr_1_nonneg, H.
Qed.

Lemma shr_fexp_nonneg m e l :
  0 <= m -> 0 <= shr_m (fst (shr_fexp prec emax m e l)).
Proof.
  intros Hm. unfold shr_fexp, shr.
  assert (0 <= shr_m (shr_record_of_loc m l)) as H0.
  { destruct l as [|[]]; cbn; lia. }
  destruct (_ - e) as [|p|p]; cbn [fst]; auto using iter_pos_shr_1_nonneg.
Qed.

Lemma round_nearest_even_nonneg m l : 0 <= m -> 0 <= round_nearest_even m l.
Proof.
  intros Hm. unfold round_nearest_even.
  destruct l as [|[]]; try lia. destruct (Z.even m); lia.
Qed.

Lemma binary_round_aux_not_nan sx mx ex lx :
  0 <= mx -> binary_round_aux prec emax sx mx ex lx <> S754_nan.
Proof.
  intros Hm. unfold binary_round_aux.
  pose proof (shr_fexp_nonneg mx ex lx Hm) as H1.
  destruct (shr_fexp prec emax mx ex lx) as [mrs' e']. cbn [fst] in H1.
  pose proof (shr_fexp_nonneg _ e' loc_Exact
                (round_nearest_even_nonneg _ (loc_of_shr_record mrs') H1)) as H2.
  destruct (shr_fexp prec emax _ e' loc_Exact) as [mrs'' e'']. cbn [fst] in H2.
  destruct (shr_m mrs'') as [|m|m]; [discriminate| |lia].
  destruct (e'' <=? emax - prec); discriminate.
Qed.

Lemma binary_normalize_not_nan m e s :
  binary_normalize prec emax m e s <> S754_nan.
Proof.
  unfold binary_normalize, binary_round.
  destruct m as [|m|m]; [discriminate| |];
    destruct (shl_align _ _ _) as [mz ez]; apply binary_round_aux_not_nan; lia.
Qed.

Lemma SFcompare_refl x : x <> S754_nan -> SFcompare x x = Some Eq.
Proof.
  destruct x as [[]|[]| |[] m e]; try congruence; intros _; cbn; try reflexivity;
    rewrite Z.compare_refl, Pos.compare_cont_refl; reflexivity.
Qed.

Lemma is_nan_false x : Prim2SF x <> S754_nan -> is_nan x = false.
Proof.
  intros H. unfold is_nan. rewrite FloatAxioms.eqb_spec. unfold SFeqb.
  by rewrite SFcompare_refl.
Qed.

Lemma of_uint63_not_nan n : is_nan (of_uint63 n) = false.
Proof.
  apply is_nan_false. rewrite of_uint63_spec. apply binary_normalize_not_nan.
Qed.

Lemma of_Z_not_nan z : is_nan (of_Z z) = false.
Proof.
  unfold of_Z. destruct (z =? _); [reflexivity|].
  destruct (0 <=? z); [apply of_uint63_not_nan|].
  apply is_nan_false. rewrite FloatAxioms.opp_spec, of_uint63_spec.
  destruct (binary_normalize prec emax _ 0 false) eqn:E; cbn; try congruence.
  exfalso. eapply binary_normalize_not_nan, E.
Qed.

Lemma is_nan_nan : is_nan nan = true.
Proof. reflexivity. Qed.

Lemma not_nan_spec x : is_nan x = false -> Prim2SF x <> S754_nan.
Proof.
  unfold is_nan. rewrite FloatAxioms.eqb_spec. intros H Hx. rewrite Hx in H. discriminate.
Qed.



End Numpy.

Import Numpy.

(** ** binary64 facts

    Which results of the float operations are numbers and which are NaN,
    read off the specification of the operations. *)

Module Float64.

(** A float that is a number: zero or finite. *)
Definition is_number (x : spec_float) : bool :=
  match x with
  | S754_zero _ | S754_finite _ _ _ => true
  | _ => false
  end.

Lemma digits2_pos_lt p : Z.pos p < 2 ^ Z.pos (digits2_pos p).
Proof.
  induction p as [p IH|p IH|]; cbn [digits2_pos]; [| |done];
    rewrite Pos2Z.inj_succ, Z.pow_succ_r by lia; lia.
Qed.

Lemma digits2_pos_le p n : 0 <= n -> Z.pos p < 2 ^ n -> Z.pos (digits2_pos p) <= n.
Proof.
  revert n. induction p as [p IH|p IH|]; intros n Hn Hp; cbn [digits2_pos].
  - destruct (decide (n = 0)) as [->|]; [cbn in Hp; lia|].
    rewrite Pos2Z.inj_succ. specialize (IH (n - 1)).
    replace n with (Z.succ (n - 1)) in Hp by lia. rewrite Z.pow_succ_r in Hp by lia. lia.
  - destruct (decide (n = 0)) as [->|]; [cbn in Hp; lia|].
    rewrite Pos2Z.inj_succ. specialize (IH (n - 1)).
    replace n with (Z.succ (n - 1)) in Hp by lia. rewrite Z.pow_succ_r in Hp by lia. lia.
  - destruct (decide (n = 0)) as [->|]; [cbn in Hp; lia|]. lia.
Qed.

Lemma Zdigits2_le m n : 0 <= n -> 0 <= m < 2 ^ n -> Zdigits2 m <= n.
Proof.
  intros Hn [H0 Hm]. destruct m as [|p|p]; cbn; [lia| |lia].
  by apply digits2_pos_le.
Qed.

Lemma shr_1_le mrs : 0 <= shr_m mrs -> shr_m (shr_1 mrs) <= shr_m mrs.
Proof.
  destruct mrs as [m r s]. cbn. destruct m as [|[p|p|]|p]; cbn; lia.
Qed.

Lemma iter_pos_shr_1_le p mrs :
  0 <= shr_m mrs -> shr_m (SpecFloat.iter_pos shr_1 p mrs) <= shr_m mrs.
Proof.
  revert mrs. induction p as [p IH|p IH|]; intros mrs H; cbn.
  - pose proof (shr_1_le mrs H) as Ha. pose proof (shr_1_nonneg mrs H) as Hb.
    pose proof (IH _ Hb) as Hc. pose proof (iter_pos_shr_1_nonneg p _ Hb) as Hd.
    pose proof (IH _ Hd). lia.
  - pose proof (IH _ H) as Ha. pose proof (iter_pos_shr_1_nonneg p _ H) as Hb.
    pose proof (IH _ Hb). lia.
  - by apply shr_1_le.
Qed.

Lemma shr_record_of_loc_m m l : shr_m (shr_record_of_loc m l) = m.
Proof. by destruct l as [|[]]. Qed.

Lemma shr_fexp_le m e l : 0 <= m -> shr_m (fst (shr_fexp prec emax m e l)) <= m.
Proof.
  intros Hm. unfold shr_fexp, shr.
  pose proof (shr_record_of_loc_m m l) as Hr.
  destruct (_ - e) as [|p|p]; cbn [fst]; try lia.
  rewrite <- Hr at 2. apply iter_pos_shr_1_le. lia.
Qed.

Lemma shr_fexp_exp m e l :
  snd (shr_fexp prec emax m e l) = Z.max e (fexp prec emax (Zdigits2 m + e)).
Proof.
  unfold shr_fexp, shr.
  destruct (_ - e) as [|p|p] eqn:E; cbn [snd]; lia.
Qed.

Lemma round_nearest_even_le m l : round_nearest_even m l <= m + 1.
Proof.
  unfold round_nearest_even. destruct l as [|[]]; try lia. destruct (Z.even m); lia.
Qed.

(** Rounding a mantissa below [2 ^ n] at an exponent that leaves room
    gives a number. *)
Lemma binary_round_aux_is_number sx mx ex lx n :
  0 <= n <= 2000 -> 0 <= mx < 2 ^ n -> ex + 2 * n + 1 <= emax - prec ->
  is_number (binary_round_aux prec emax sx mx ex lx) = true.
Proof.
  intros [Hn Hn'] [Hm0 Hm] Hex. unfold binary_round_aux.
  pose proof (shr_fexp_nonneg mx ex lx Hm0) as H1.
  pose proof (shr_fexp_le mx ex lx Hm0) as H1'.
  pose proof (shr_fexp_exp mx ex lx) as He1.
  destruct (shr_fexp prec emax mx ex lx) as [mrs' e']. cbn [fst snd] in *.
  set (m1 := round_nearest_even (shr_m mrs') (loc_of_shr_record mrs')).
  pose proof (round_nearest_even_nonneg _ (loc_of_shr_record mrs') H1) as Hm1.
  pose proof (round_nearest_even_le (shr_m mrs') (loc_of_shr_record mrs')) as Hm1'.
  fold m1 in Hm1, Hm1'.
  pose proof (shr_fexp_exp m1 e' loc_Exact) as He2.
  pose proof (shr_fexp_nonneg m1 e' loc_Exact Hm1) as H2.
  destruct (shr_fexp prec emax m1 e' loc_Exact) as [mrs'' e'']. cbn [fst snd] in He2, H2.
  destruct (shr_m mrs'') as [|m|m]; [done| |lia].
  assert (Zdigits2 mx <= n) by (apply Zdigits2_le; lia).
  assert (Zdigits2 m1 <= n + 1).
  { apply Zdigits2_le; [lia|]. rewrite Z.pow_add_r by lia. lia. }
  unfold fexp, SpecFloat.emin, emax, prec in *.
  destruct (Z.leb_spec e'' (1024 - 53)); [done|]. exfalso. lia.
Qed.

Lemma digits2_pos_iter_xO p k :
  Z.pos (digits2_pos (Pos.iter xO p k)) = Z.pos (digits2_pos p) + Z.pos k.
Proof.
  induction k as [|k IH] using Pos.peano_ind.
  - cbn. lia.
  - rewrite Pos.iter_succ. cbn [digits2_pos]. lia.
Qed.

Lemma iter_xO_lt p k n : 0 <= n -> Z.pos p < 2 ^ n -> Z.pos (Pos.iter xO p k) < 2 ^ (n + Z.pos k).
Proof.
  intros Hn Hp. induction k as [|k IH] using Pos.peano_ind.
  - cbn [Pos.iter]. rewrite Z.pow_add_r by lia. lia.
  - rewrite Pos.iter_succ, Pos2Z.inj_succ.
    replace (n + Z.succ (Z.pos k)) with (Z.succ (n + Z.pos k)) by lia.
    rewrite Z.pow_succ_r by lia. lia.
Qed.

(** The conversion of an integer below [2 ^ 63] is a number. *)
Lemma binary_normalize_is_number m :
  0 <= m < 2 ^ 63 -> is_number (binary_normalize prec emax m 0 false) = true.
Proof.
  intros [H0 Hm]. destruct m as [|p|p]; [done| |lia].
  unfold binary_normalize, binary_round, shl_align.
  destruct (_ - 0) as [|d|d] eqn:Hd.
  - apply (binary_round_aux_is_number _ _ _ _ 63); unfold emax, prec; lia.
  - apply (binary_round_aux_is_number _ _ _ _ 63); unfold emax, prec; lia.
  - pose proof (digits2_pos_le p 63 ltac:(lia) Hm) as Hdig.
    unfold fexp, SpecFloat.emin, emax, prec in Hd.
    apply (binary_round_aux_is_number _ _ _ _ (63 + Z.pos d)); unfold emax, prec.
    + lia.
    + split; [lia|]. apply iter_xO_lt; lia.
    + unfold fexp, SpecFloat.emin. lia.
Qed.

Lemma of_uint63_is_number n : is_number (Prim2SF (of_uint63 n)) = true.
Proof.
  rewrite of_uint63_spec. apply binary_normalize_is_number.
  pose proof (Uint63.to_Z_bounded n) as H. unfold Uint63.wB, Uint63.size in H.
  change (Z.of_nat 63) with 63 in H. lia.
Qed.

Lemma is_number_opp x : is_number (SFopp x) = is_number x.
Proof. by destruct x. Qed.

Lemma of_Z_is_number z : is_number (Prim2SF (of_Z z)) = true.
Proof.
  unfold of_Z. destruct (z =? _); [reflexivity|].
  destruct (0 <=? z); [apply of_uint63_is_number|].
  rewrite FloatAxioms.opp_spec, is_number_opp. apply of_uint63_is_number.
Qed.


Definition number (x : float) : bool := is_number (Prim2SF x).

Lemma number_not_nan x : number x = true -> is_nan x = false.
Proof.
  unfold number. intros H. apply is_nan_false. intros Hx. by rewrite Hx in H.
Qed.

Lemma of_Z_number z : number (of_Z z) = true.
Proof. apply of_Z_is_number. Qed.

Lemma is_nan_true x : is_nan x = true -> x = nan.
Proof.
  intros H. apply Prim2SF_inj. change (Prim2SF nan) with S754_nan.
  destruct (Prim2SF x) eqn:E; try reflexivity;
    rewrite is_nan_false in H by (rewrite E; discriminate); discriminate.
Qed.

Lemma add_nan_l x : (nan + x)%float = nan.
Proof. apply Prim2SF_inj. rewrite FloatAxioms.add_spec. reflexivity. Qed.

Lemma add_nan_r x : (x + nan)%float = nan.
Proof.
  apply Prim2SF_inj. rewrite FloatAxioms.add_spec.
  change (Prim2SF nan) with S754_nan. by destruct (Prim2SF x) as [[]|[]| |[] ? ?].
Qed.

Lemma sub_nan_r x : (x - nan)%float = nan.
Proof.
  apply Prim2SF_inj. rewrite FloatAxioms.sub_spec.
  change (Prim2SF nan) with S754_nan. by destruct (Prim2SF x) as [[]|[]| |[] ? ?].
Qed.

Lemma div_nan_l x : (nan / x)%float = nan.
Proof. apply Prim2SF_inj. rewrite FloatAxioms.div_spec. reflexivity. Qed.

Lemma div_nan_r x : (x / nan)%float = nan.
Proof.
  apply Prim2SF_inj. rewrite FloatAxioms.div_spec.
  change (Prim2SF nan) with S754_nan. by destruct (Prim2SF x) as [[]|[]| |[] ? ?].
Qed.

(** The sum and the difference of two numbers are not NaN. *)
Lemma add_not_nan x y :
  number x = true -> number y = true -> is_nan (x + y)%float = false.
Proof.
  unfold number. intros Hx Hy. apply is_nan_false.
  rewrite FloatAxioms.add_spec. unfold SF64add, SFadd.
  destruct (Prim2SF x) as [[]|[]| |sx mx ex], (Prim2SF y) as [[]|[]| |sy my ey];
    try discriminate; apply binary_normalize_not_nan.
Qed.

Lemma sub_not_nan x y :
  number x = true -> number y = true -> is_nan (x - y)%float = false.
Proof.
  unfold number. intros Hx Hy. apply is_nan_false.
  rewrite FloatAxioms.sub_spec. unfold SF64sub, SFsub.
  destruct (Prim2SF x) as [[]|[]| |sx mx ex], (Prim2SF y) as [[]|[]| |sy my ey];
    try discriminate; apply binary_normalize_not_nan.
Qed.

Lemma div_core_nonneg m1 e1 m2 e2 :
  0 <= m1 -> 0 < m2 -> 0 <= (SFdiv_core_binary prec emax m1 e1 m2 e2).1.1.
Proof.
  intros H1 H2. unfold SFdiv_core_binary.
  set (s := _ - _ - Z.min _ _).
  set (m' := match s with Z.pos _ => Z.shiftl m1 s | 0 => m1 | Z.neg _ => 0 end).
  assert (0 <= m') as Hm'.
  { unfold m'. destruct s; try lia. apply Z.shiftl_nonneg. lia. }
  pose proof (Z.div_pos m' m2 Hm' H2) as Hq. unfold Z.div in Hq.
  destruct (Z.div_eucl m' m2) as [q r]. done.
Qed.

(** A quotient by a finite divisor that is not zero is NaN only when the
    dividend is. *)
Lemma div_finite_not_nan x y s m e :
  Prim2SF y = S754_finite s m e -> is_nan x = false -> is_nan (x / y)%float = false.
Proof.
  intros Hy Hx. apply not_nan_spec in Hx. apply is_nan_false.
  rewrite FloatAxioms.div_spec, Hy. unfold SF64div, SFdiv.
  destruct (Prim2SF x) as [sx|sx| |sx mx ex]; try done.
  pose proof (div_core_nonneg (Z.pos mx) ex (Z.pos m) e ltac:(lia) ltac:(lia)) as Hq.
  destruct (SFdiv_core_binary _ _ _ _ _ _) as [[mz ez] lz]. cbn in Hq.
  by apply binary_round_aux_not_nan.
Qed.

(** *** Integers below [2 ^ 53] convert exactly *)

Lemma digits2_pos_ge p : 2 ^ (Z.pos (digits2_pos p) - 1) <= Z.pos p.
Proof.
  induction p as [p IH|p IH|]; cbn [digits2_pos]; [| |done];
    rewrite Pos2Z.inj_succ;
    replace (Z.succ (Z.pos (digits2_pos p)) - 1) with (Z.succ (Z.pos (digits2_pos p) - 1))
      by lia;
    rewrite Z.pow_succ_r by lia; lia.
Qed.

Lemma iter_xO_mul p k : Z.pos (Pos.iter xO p k) = Z.pos p * 2 ^ Z.pos k.
Proof.
  induction k as [|k IH] using Pos.peano_ind.
  - cbn. lia.
  - rewrite Pos.iter_succ, Pos2Z.inj_succ, Z.pow_succ_r by lia.
    rewrite Pos2Z.inj_xO, IH. lia.
Qed.

(** The mantissa of an integer with at most 53 digits, shifted to 53
    digits. *)
Definition mantissa (p : positive) : positive :=
  fst (shl_align p 0 (Z.pos (digits2_pos p) - 53)).

Definition exact (z : Z) : spec_float :=
  match z with
  | 0 => S754_zero false
  | Z.pos p => S754_finite false (mantissa p) (Z.pos (digits2_pos p) - 53)
  | Z.neg p => S754_finite true (mantissa p) (Z.pos (digits2_pos p) - 53)
  end.

Lemma binary_round_aux_canonical s m e :
  Z.pos (digits2_pos m) = 53 -> -1074 <= e <= 971 ->
  binary_round_aux prec emax s (Z.pos m) e loc_Exact = S754_finite s m e.
Proof.
  intros Hd He.
  assert (fexp prec emax (Zdigits2 (Z.pos m) + e) - e = 0) as Hz.
  { cbn [Zdigits2]. rewrite Hd. unfold fexp, SpecFloat.emin, prec, emax. lia. }
  unfold binary_round_aux, shr_fexp. rewrite Hz.
  cbn [shr shr_record_of_loc loc_of_shr_record shr_m round_nearest_even].
  rewrite Hz. cbn [shr shr_record_of_loc shr_m].
  destruct (Z.leb_spec e (emax - prec)); [done|]. unfold emax, prec in *. lia.
Qed.

Lemma binary_normalize_small s p :
  Z.pos (digits2_pos p) <= 53 ->
  binary_round prec emax s p 0
  = S754_finite s (mantissa p) (Z.pos (digits2_pos p) - 53).
Proof.
  intros Hd. unfold binary_round, mantissa.
  assert (fexp prec emax (Z.pos (digits2_pos p) + 0) = Z.pos (digits2_pos p) - 53) as ->.
  { unfold fexp, SpecFloat.emin, prec, emax. lia. }
  unfold shl_align.
  destruct (Z.pos (digits2_pos p) - 53 - 0) as [|k|k] eqn:Hk; cbn [fst]; [|lia|].
  - replace (Z.pos (digits2_pos p) - 53) with 0 by lia.
    apply binary_round_aux_canonical; lia.
  - apply binary_round_aux_canonical; [|lia].
    rewrite digits2_pos_iter_xO. lia.
Qed.

Lemma of_Z_exact z : - 2 ^ 53 < z < 2 ^ 53 -> Prim2SF (of_Z z) = exact z.
Proof.
  intros Hz. unfold of_Z.
  destruct (Z.eqb_spec z int64_min) as [->|_]; [unfold int64_min in Hz; lia|].
  assert (forall p, Z.pos p < 2 ^ 53 ->
            Prim2SF (of_uint63 (Uint63.of_Z (Z.pos p)))
            = S754_finite false (mantissa p) (Z.pos (digits2_pos p) - 53)) as Hpos.
  { intros p Hp. rewrite of_uint63_spec, Uint63.of_Z_spec.
    unfold Uint63.wB, Uint63.size. change (Z.of_nat 63) with 63.
    rewrite Z.mod_small by lia. cbn [binary_normalize].
    apply binary_normalize_small. apply digits2_pos_le; lia. }
  destruct z as [|p|p]; cbn [Z.leb Z.compare exact].
  - reflexivity.
  - apply Hpos. lia.
  - rewrite FloatAxioms.opp_spec. change (- Z.neg p) with (Z.pos p).
    rewrite Hpos by lia. reflexivity.
Qed.

Lemma mantissa_mul p :
  Z.pos (digits2_pos p) <= 53 ->
  Z.pos (mantissa p) = Z.pos p * 2 ^ (53 - Z.pos (digits2_pos p)).
Proof.
  intros Hd. unfold mantissa, shl_align.
  destruct (Z.pos (digits2_pos p) - 53 - 0) as [|k|k] eqn:Hk; cbn [fst]; [|lia|].
  - replace (53 - Z.pos (digits2_pos p)) with 0 by lia. lia.
  - rewrite iter_xO_mul. do 2 f_equal. lia.
Qed.

(** Two exact positive integers compare as their floats do. *)
Lemma compare_exact_pos p q :
  Z.pos (digits2_pos p) <= 53 -> Z.pos (digits2_pos q) <= 53 ->
  match Z.pos (digits2_pos p) - 53 ?= Z.pos (digits2_pos q) - 53 with
  | Lt => Lt
  | Gt => Gt
  | Eq => Pos.compare_cont Eq (mantissa p) (mantissa q)
  end = (p ?= q)%positive.
Proof.
  intros Hp Hq.
  pose proof (digits2_pos_lt p) as Hp1. pose proof (digits2_pos_ge p) as Hp2.
  pose proof (digits2_pos_lt q) as Hq1. pose proof (digits2_pos_ge q) as Hq2.
  destruct (Z.compare_spec (Z.pos (digits2_pos p) - 53) (Z.pos (digits2_pos q) - 53))
    as [He|He|He].
  - change (Pos.compare_cont Eq (mantissa p) (mantissa q))
      with (Z.pos (mantissa p) ?= Z.pos (mantissa q)).
    rewrite !mantissa_mul by done.
    replace (Z.pos (digits2_pos q)) with (Z.pos (digits2_pos p)) by lia.
    assert (0 < 2 ^ (53 - Z.pos (digits2_pos p))) as Hk by (apply Z.pow_pos_nonneg; lia).
    rewrite Pos2Z.inj_compare.
    destruct (Z.compare_spec (Z.pos p * 2 ^ (53 - Z.pos (digits2_pos p)))
                (Z.pos q * 2 ^ (53 - Z.pos (digits2_pos p)))),
      (Z.compare_spec (Z.pos p) (Z.pos q)); try reflexivity; nia.
  - symmetry. apply Pos.compare_lt_iff.
    assert (2 ^ Z.pos (digits2_pos p) <= 2 ^ (Z.pos (digits2_pos q) - 1))
      by (apply Z.pow_le_mono_r; lia).
    lia.
  - symmetry. apply Pos.compare_gt_iff.
    assert (2 ^ Z.pos (digits2_pos q) <= 2 ^ (Z.pos (digits2_pos p) - 1))
      by (apply Z.pow_le_mono_r; lia).
    lia.
Qed.

Lemma SFcompare_exact a b :
  - 2 ^ 53 < a < 2 ^ 53 -> - 2 ^ 53 < b < 2 ^ 53 ->
  SFcompare (exact a) (exact b) = Some (a ?= b).
Proof.
  intros Ha Hb.
  assert (forall p, Z.pos p < 2 ^ 53 -> Z.pos (digits2_pos p) <= 53) as Hd
    by (intros p Hp; apply digits2_pos_le; lia).
  destruct a as [|p|p], b as [|q|q]; cbn [exact SFcompare]; try reflexivity.
  - f_equal. cbn [Z.compare]. apply compare_exact_pos; apply Hd; lia.
  - f_equal. cbn [Z.compare].
    rewrite <- (compare_exact_pos p q) by (apply Hd; lia).
    destruct (_ ?= _); reflexivity.
Qed.


Lemma of_Z_ltb a b :
  - 2 ^ 53 < a < 2 ^ 53 -> - 2 ^ 53 < b < 2 ^ 53 ->
  (of_Z a <? of_Z b)%float = (a <? b).
Proof.
  intros Ha Hb. rewrite FloatAxioms.ltb_spec. unfold SFltb.
  rewrite !of_Z_exact, SFcompare_exact by done.
  unfold Z.ltb. by destruct (a ?= b).
Qed.

End Float64.

(** ** pandas frames *)

Module Frame.

Inductive column : Type :=
| IntCol (values : list Z)
| FloatCol (values : list float).

Definition col_len (c : column) : nat :=
  match c with
  | IntCol l => length l
  | FloatCol l => length l
  end.

(** The first [m] rows of a column. *)
Definition col_take (m : nat) (c : column) : column :=
  match c with
  | IntCol l => IntCol (take m l)
  | FloatCol l => FloatCol (take m l)
  end.

(** One entry of a column. *)
Inductive cell : Type :=
| I64 (z : Z)
| F64 (f : float).

Definition col_get (c : column) (i : nat) : option cell :=
  match c with
  | IntCol l => I64 <$> l !! i
  | FloatCol l => F64 <$> l !! i
  end.

(** numpy's promotion of an [int64] array to [float64]. *)
Definition to_floats (c : column) : list float :=
  match c with
  | IntCol l => of_Z <$> l
  | FloatCol l => l
  end.

Record DataFrame : Type := mkFrame {
  nrows : nat;
  columns : gmap string column
}.

(** Every column has as many entries as the index. *)
Definition wf_frame (df : DataFrame) : Prop :=
  map_Forall (fun _ c => col_len c = nrows df) (columns df).

(** [df[name]] *)
Definition getitem (df : DataFrame) (name : string) : result column :=
  of_option KeyError (columns df !! name).

Definition get_int (df : DataFrame) (name : string) : result (list Z) :=
  c <~ getitem df name ;;
  match c with
  | IntCol l => Ok l
  | FloatCol _ => Raise UnsupportedDtype
  end.

Definition get_float (df : DataFrame) (name : string) : result (list float) :=
  c <~ getitem df name ;;
  match c with
  | FloatCol l => Ok l
  | IntCol _ => Raise UnsupportedDtype
  end.

(** [df[name] = values]: an array of another length than the index is
    refused by pandas. *)
Definition setitem (df : DataFrame) (name : string) (c : column)
  : result DataFrame :=
  if decide (col_len c = nrows df)
  then Ok (mkFrame (nrows df) (<[name := c]> (columns df)))
  else Raise ValueError.

(** The first [m] rows of a frame. *)
Definition head_rows (m : nat) (df : DataFrame) : DataFrame :=
  mkFrame (Nat.min m (nrows df)) (col_take m <$> columns df).

(** *** The store of frame objects

    A frame variable of the Python code holds a reference.  [copy]
    allocates, [store_setitem] updates the referenced object in place. *)

Abbreviation loc := nat.
Abbreviation store := (list DataFrame).

Definition M (A : Type) : Type := store -> result (A * store).

Definition ret {A} (a : A) : M A := fun s => Ok (a, s).

Definition mbind {A B} (m : M A) (k : A -> M B) : M B :=
  fun s => match m s with
           | Ok (a, s') => k a s'
           | Raise e => Raise e
           end.

Definition lift {A} (r : result A) : M A :=
  fun s => match r with
           | Ok a => Ok (a, s)
           | Raise e => Raise e
           end.

(** Reading the object behind a reference; a dangling reference does not
    occur in Python. *)
Definition deref (l : loc) : M DataFrame :=
  fun s => match s !! l with
           | Some df => Ok (df, s)
           | None => Raise KeyError
           end.

(** [df.copy()] *)
Definition copy (l : loc) : M loc :=
  fun s => match s !! l with
           | Some df => Ok (length s, s ++ [df])
           | None => Raise KeyError
           end.

(** [frame[name] = values] on the object behind [l]. *)
Definition store_setitem (l : loc) (name : string) (c : column) : M unit :=
  fun s => match s !! l with
           | Some df =>
               match setitem df name c with
               | Ok df' => Ok (tt, <[l := df']> s)
               | Raise e => Raise e
               end
           | None => Raise KeyError
           end.

Definition store_getitem (l : loc) (name : string) : M column :=
  fun s => match s !! l with
           | Some df =>
               match getitem df name with
               | Ok c => Ok (c, s)
               | Raise e => Raise e
               end
           | None => Raise KeyError
           end.

(** A sequence of column assignments, in order. *)
Fixpoint store_setitems (l : loc) (cols : list (string * column)) : M unit :=
  match cols with
  | [] => ret tt
  | (name, c) :: rest =>
      mbind (store_setitem l name c) (fun _ => store_setitems l rest)
  end.

(** *** What a sequence of assignments does to the store *)

(** The frame after the assignments [cols], in order. *)
Definition with_columns (df : DataFrame) (cols : list (string * column)) : DataFrame :=
  foldl (fun d nc => mkFrame (nrows d) (<[nc.1 := nc.2]> (columns d))) df cols.

Lemma nrows_with_columns df cols : nrows (with_columns df cols) = nrows df.
Proof.
  revert df. induction cols as [|nc cols IH]; intros df; cbn; [done|].
  unfold with_columns in IH. by rewrite IH.
Qed.

Lemma lookup_with_columns_other df cols name :
  name ∉ cols.*1 ->
  columns (with_columns df cols) !! name = columns df !! name.
Proof.
  revert df. induction cols as [|[n c] cols IH]; intros df Hname; cbn; [done|].
  cbn in Hname. apply not_elem_of_cons in Hname as [Hne Hname].
  unfold with_columns in IH. rewrite IH by done. cbn.
  by rewrite lookup_insert_ne.
Qed.

Lemma dom_with_columns df cols :
  dom (columns (with_columns df cols)) = dom (columns df) ∪ list_to_set cols.*1.
Proof.
  revert df. induction cols as [|[n c] cols IH]; intros df; cbn.
  - set_solver.
  - unfold with_columns in IH. rewrite IH. cbn. rewrite dom_insert_L. set_solver.
Qed.

Lemma wf_with_columns df cols :
  wf_frame df -> Forall (fun nc => col_len nc.2 = nrows df) cols ->
  wf_frame (with_columns df cols).
Proof.
  revert df. induction cols as [|[n c] cols IH]; intros df Hwf Hcols; cbn; [done|].
  apply Forall_cons in Hcols as [Hc Hcols]. apply IH; [|done].
  unfold wf_frame in *. cbn. by apply map_Forall_insert_2.
Qed.

Lemma store_setitem_inv l name c s u s' :
  store_setitem l name c s = Ok (u, s') ->
  exists df, s !! l = Some df /\ col_len c = nrows df /\
    s' = <[l := mkFrame (nrows df) (<[name := c]> (columns df))]> s.
Proof.
  unfold store_setitem, setitem. destruct (s !! l) as [df|]; [|done].
  destruct (decide _); [|done]. intros. simplify_eq. eauto.
Qed.

Lemma store_setitems_inv l cols s u s' df :
  s !! l = Some df ->
  store_setitems l cols s = Ok (u, s') ->
  s' = <[l := with_columns df cols]> s /\
  Forall (fun nc => col_len nc.2 = nrows df) cols.
Proof.
  revert s df. induction cols as [|[n c] cols IH]; intros s df Hl; cbn.
  - unfold ret. intros. simplify_eq. split; [|done].
    symmetry. by apply list_insert_id.
  - unfold mbind.
    destruct (store_setitem l n c s) as [[u1 s1]|] eqn:H1; [|done].
    apply store_setitem_inv in H1 as (df' & Hl' & Hlen & ->). simplify_eq.
    intros H2. eapply IH in H2.
    2:{ apply list_lookup_insert_eq. by eapply lookup_lt_Some. }
    destruct H2 as [-> Hall]. rewrite list_insert_insert_eq. split; [done|].
    constructor; [done|]. cbn in Hall. done.
Qed.

Lemma store_setitems_ok l cols s df :
  s !! l = Some df ->
  Forall (fun nc => col_len nc.2 = nrows df) cols ->
  store_setitems l cols s = Ok (tt, <[l := with_columns df cols]> s).
Proof.
  revert s df. induction cols as [|[n c] cols IH]; intros s df Hl Hall; cbn.
  - unfold ret. do 2 f_equal. symmetry. by apply list_insert_id.
  - apply Forall_cons in Hall as [Hc Hall]. cbn in Hc.
    unfold mbind, store_setitem, setitem. rewrite Hl.
    destruct (decide _); [|done].
    erewrite IH; [|by apply list_lookup_insert_eq; eapply lookup_lt_Some|done].
    by rewrite list_insert_insert_eq.
Qed.

Lemma lookup_with_columns_in df cols j name c :
  NoDup cols.*1 -> cols !! j = Some (name, c) ->
  columns (with_columns df cols) !! name = Some c.
Proof.
  revert df j. induction cols as [|[n0 c0] cols IH]; intros df j Hnd Hj.
  - rewrite lookup_nil in Hj. discriminate.
  - cbn in Hnd. apply NoDup_cons in Hnd as [Hn0 Hnd].
    destruct j as [|j]; cbn in Hj.
    + simplify_eq. cbn. fold (with_columns (mkFrame (nrows df) (<[name:=c]> (columns df))) cols).
      rewrite lookup_with_columns_other by done. cbn. apply lookup_insert_eq.
    + cbn. eapply IH; eauto.
Qed.

(** A name whose assignments all carry the same column ends with it. *)
Lemma lookup_with_columns_same df cols name c :
  name ∈ cols.*1 ->
  (forall c', (name, c') ∈ cols -> c' = c) ->
  columns (with_columns df cols) !! name = Some c.
Proof.
  revert df. induction cols as [|[n0 c0] cols IH]; intros df Hin Hsame.
  - cbn in Hin. by apply elem_of_nil in Hin.
  - cbn. fold (with_columns (mkFrame (nrows df) (<[n0:=c0]> (columns df))) cols).
    destruct (decide (name ∈ cols.*1)) as [Hrest|Hrest].
    + apply IH; [done|]. intros c' Hc'. apply Hsame. by right.
    + cbn in Hin. apply elem_of_cons in Hin as [->|Hin]; [|done].
      rewrite lookup_with_columns_other by done. cbn.
      rewrite lookup_insert_eq. f_equal. apply Hsame. by left.
Qed.

Lemma with_columns_app df cols1 cols2 :
  with_columns df (cols1 ++ cols2) = with_columns (with_columns df cols1) cols2.
Proof. apply foldl_app. Qed.

Lemma col_get_take m c i : (i < m)%nat -> col_get (col_take m c) i = col_get c i.
Proof. intros Hi. destruct c; cbn; by rewrite lookup_take_lt. Qed.

Lemma col_get_is_Some c i : (i < col_len c)%nat -> is_Some (col_get c i).
Proof.
  destruct c as [l|l]; cbn; intros Hi;
    destruct (lookup_lt_is_Some_2 l i Hi) as [x ->]; by eexists.
Qed.

(** The entry of row [i] of column [name] in the frame a call returned. *)
Definition result_cell (r : result (loc * store)) (name : string) (i : nat)
  : option cell :=
  match r with
  | Ok (l, s) =>
      match s !! l with
      | Some df =>
          match columns df !! name with
          | Some c => col_get c i
          | None => None
          end
      | None => None
      end
  | Raise _ => None
  end.

(** A fresh copy sits after every object of the store. *)
Lemma insert_fresh (s : store) (d d' : DataFrame) :
  <[length s := d']> (s ++ [d]) = s ++ [d'].
Proof.
  rewrite insert_app_r_alt by lia. by rewrite Nat.sub_diag.
Qed.

End Frame.

Import Frame.

Notation "x <- m ;;; k" := (mbind m (fun x => k))
  (at level 100, m at next level, right associativity).

(** ** [analysis/features.py]: the two-pointer event rate *)

Module EventRate.

(** [window_count / (window_ns / 1e9)]: both operands are Python
    numbers, so a zero divisor raises. *)
Definition window_seconds (window_ns : Z) : float :=
  (of_Z window_ns / 1e9)%float.

Definition rate_of_count (window_count window_ns : Z) : result float :=
  if (window_seconds window_ns =? 0)%float then Raise ZeroDivisionError
  else Ok (of_Z window_count / window_seconds window_ns)%float.

(** [while time_ns[left] < bound: left += 1], run on the suffix
    [time_ns[left:]]; reading past the end is numpy's IndexError. *)
Fixpoint advance (suffix : list Z) (left : nat) (bound : Z) : result nat :=
  match suffix with
  | [] => Raise IndexError
  | x :: rest =>
      if x <? bound then advance rest (S left) bound else Ok left
  end.

(** [t - window_ns]: [t] is an [int64] scalar and [window_ns] a Python
    integer, which numpy converts to [int64] before it subtracts.  A
    Python integer outside [int64] raises OverflowError; the difference of
    two [int64] values wraps. *)
Definition window_bound (t window_ns : Z) : result Z :=
  if (int64_min <=? window_ns) && (window_ns <=? int64_max)
  then Ok (wrap64 (t - window_ns))
  else Raise OverflowError.

(** The body of [for idx, t in enumerate(time_ns)], for the entries
    [todo] that are still to be visited. *)
Fixpoint sweep (time_ns : list Z) (window_ns : Z)
    (todo : list Z) (idx left : nat) : result (list float) :=
  match todo with
  | [] => Ok []
  | t :: todo' =>
      bound <~ window_bound t window_ns ;;
      left' <~ advance (drop left time_ns) left bound ;;
      let window_count := Z.of_nat idx - Z.of_nat left' + 1 in
      rate <~ rate_of_count window_count window_ns ;;
      rates <~ sweep time_ns window_ns todo' (S idx) left' ;;
      Ok (rate :: rates)
  end.

Definition _rolling_event_rate (time_ns : list Z) (window_ns : Z)
  : result (list float) :=
  sweep time_ns window_ns time_ns 0 0.




Lemma window_bound_ok t window_ns :
  in_int64 window_ns -> window_bound t window_ns = Ok (wrap64 (t - window_ns)).
Proof.
  unfold in_int64, window_bound. intros [H1 H2].
  destruct (Z.leb_spec int64_min window_ns); [|lia].
  destruct (Z.leb_spec window_ns int64_max); [done|lia].
Qed.

Lemma window_bound_overflow t window_ns :
  ~ in_int64 window_ns -> window_bound t window_ns = Raise OverflowError.
Proof.
  unfold in_int64, window_bound. intros Hout.
  destruct (Z.leb_spec int64_min window_ns); [|done].
  destruct (Z.leb_spec window_ns int64_max); [lia|done].
Qed.

Lemma window_bound_inv t window_ns bound :
  window_bound t window_ns = Ok bound ->
  in_int64 window_ns /\ bound = wrap64 (t - window_ns).
Proof.
  unfold in_int64, window_bound.
  destruct (Z.leb_spec int64_min window_ns); [|done].
  destruct (Z.leb_spec window_ns int64_max); [|done].
  intros Heq. injection Heq as <-. done.
Qed.

(** No timestamp is so early that [t - window_ns] leaves [int64]. *)
Definition no_underflow (window_ns : Z) (time_ns : list Z) : Prop :=
  Forall (fun t => int64_min + window_ns <= t <= int64_max) time_ns.










(** *** The sweep reads no entry after the one it visits

    As long as [t - window_ns] does not wrap, the entry being visited is
    not below its own bound, so [advance] stops at it at the latest. *)

Lemma advance_app suffix rest left bound left' :
  advance suffix left bound = Ok left' ->
  advance (suffix ++ rest) left bound = Ok left'.
Proof.
  revert left. induction suffix as [|x suffix IH]; intros left; cbn; [done|].
  destruct (x <? bound); [apply IH|done].
Qed.

Lemma advance_reaches suffix left bound n x :
  suffix !! n = Some x -> bound <= x ->
  exists k, (k <= n)%nat /\ advance suffix left bound = Ok (left + k)%nat.
Proof.
  revert left n. induction suffix as [|a suffix IH]; intros left n Hn Hx.
  - rewrite lookup_nil in Hn. discriminate.
  - cbn. destruct (Z.ltb_spec a bound).
    + destruct n as [|n]; cbn in Hn; [simplify_eq; lia|].
      destruct (IH (S left) n Hn Hx) as (k & Hk & ->).
      exists (S k). split; [lia|]. f_equal. lia.
    + exists 0%nat. split; [lia|]. f_equal. lia.
Qed.

Lemma sweep_take time_ns window_ns m idx left rates :
  0 <= window_ns ->
  no_underflow window_ns (take m time_ns) ->
  (left <= idx)%nat ->
  sweep time_ns window_ns (drop idx time_ns) idx left = Ok rates ->
  sweep (take m time_ns) window_ns (drop idx (take m time_ns)) idx left
  = Ok (take (m - idx) rates).
Proof.
  intros Hw Hrange.
  remember (m - idx)%nat as d eqn:Hd.
  revert idx left rates Hd. induction d as [|d IH]; intros idx left rates Hd Hle Hrun.
  - rewrite drop_ge by (rewrite length_take; lia). by rewrite take_0.
  - destruct (time_ns !! idx) as [t|] eqn:Ht.
    2:{ rewrite drop_ge by (rewrite length_take; apply lookup_ge_None in Ht; lia).
        rewrite drop_ge in Hrun by (apply lookup_ge_None in Ht; lia).
        cbn in Hrun. by simplify_eq. }
    assert (take m time_ns !! idx = Some t) as Ht' by (rewrite lookup_take_lt; [done|lia]).
    rewrite (drop_S _ _ _ Ht) in Hrun. rewrite (drop_S _ _ _ Ht').
    cbn [sweep] in *.
    destruct (window_bound t window_ns) as [bound|] eqn:Hb; [|done].
    apply window_bound_inv in Hb as [_ ->]. cbn [bind] in *.
    assert (wrap64 (t - window_ns) <= t) as Hbound.
    { rewrite wrap64_id; [lia|]. unfold no_underflow in Hrange.
      rewrite Forall_lookup in Hrange. specialize (Hrange _ _ Ht').
      unfold in_int64. lia. }
    destruct (advance_reaches (drop left (take m time_ns)) left
                (wrap64 (t - window_ns)) (idx - left) t) as (k & Hk & Hadv).
    { rewrite lookup_drop. by replace (left + (idx - left))%nat with idx by lia. }
    { done. }
    rewrite Hadv.
    rewrite <- (drop_take_drop time_ns left m) in Hrun by lia.
    rewrite (advance_app _ _ _ _ _ Hadv) in Hrun.
    cbn [bind] in *.
    destruct (rate_of_count _ _) as [rate|]; [|done]. cbn [bind] in *.
    destruct (sweep time_ns window_ns (drop (S idx) time_ns) (S idx) (left + k))
      as [rates'|] eqn:Hrest; [|done].
    cbn [bind] in Hrun. simplify_eq.
    rewrite (IH (S idx) (left + k)%nat rates'); [done|lia|lia|done].
Qed.

Lemma rolling_event_rate_take time_ns window_ns m rates :
  0 <= window_ns ->
  no_underflow window_ns (take m time_ns) ->
  _rolling_event_rate time_ns window_ns = Ok rates ->
  _rolling_event_rate (take m time_ns) window_ns = Ok (take m rates).
Proof.
  intros Hw Hrange Hrun. unfold _rolling_event_rate in *.
  pose proof (sweep_take time_ns window_ns m 0 0 rates Hw Hrange) as H.
  rewrite !drop_0, Nat.sub_0_r in H. apply H; [lia|done].
Qed.

(** *** The sweep on timestamps in any order

    Without wrap-around the pointer never passes the entry being
    visited, whether the timestamps are sorted or not: no read leaves the
    array and the entry itself is counted. *)

Lemma sweep_counts time_ns window_ns idx left :
  0 <= window_ns <= int64_max ->
  no_underflow window_ns time_ns ->
  (window_seconds window_ns =? 0)%float = false ->
  (left <= idx)%nat ->
  exists counts,
    sweep time_ns window_ns (drop idx time_ns) idx left
    = Ok ((fun c => (of_Z c / window_seconds window_ns)%float) <$> counts) /\
    length counts = (length time_ns - idx)%nat /\
    forall k c, counts !! k = Some c -> 1 <= c <= Z.of_nat (idx + k) + 1.
Proof.
  intros Hw Hrange Hsec.
  remember (length time_ns - idx)%nat as d eqn:Hd.
  revert idx left Hd. induction d as [|d IH]; intros idx left Hd Hle.
  - exists []. rewrite drop_ge by lia. split; [done|]. split; [done|].
    intros k c Hk. rewrite lookup_nil in Hk. discriminate.
  - destruct (time_ns !! idx) as [t|] eqn:Ht.
    2:{ apply lookup_ge_None in Ht. lia. }
    rewrite (drop_S _ _ _ Ht). cbn [sweep].
    rewrite window_bound_ok by (unfold in_int64, int64_min, int64_max in *; lia).
    cbn [bind].
    assert (wrap64 (t - window_ns) <= t) as Hbound.
    { rewrite wrap64_id; [lia|]. unfold no_underflow in Hrange.
      rewrite Forall_lookup in Hrange. specialize (Hrange _ _ Ht).
      unfold in_int64. lia. }
    destruct (advance_reaches (drop left time_ns) left
                (wrap64 (t - window_ns)) (idx - left) t) as (k & Hk & ->).
    { rewrite lookup_drop. by replace (left + (idx - left))%nat with idx by lia. }
    { done. }
    cbn [bind]. unfold rate_of_count. rewrite Hsec. cbn [bind].
    destruct (IH (S idx) (left + k)%nat) as (counts & -> & Hlen & Hcounts); [lia|lia|].
    cbn [bind].
    exists ((Z.of_nat idx - Z.of_nat (left + k) + 1) :: counts).
    split; [done|]. split; [cbn; lia|].
    intros [|j] c Hj; cbn in Hj.
    + simplify_eq. lia.
    + specialize (Hcounts j c Hj). lia.
Qed.

Lemma rolling_event_rate_counts time_ns window_ns :
  0 <= window_ns <= int64_max ->
  no_underflow window_ns time_ns ->
  (window_seconds window_ns =? 0)%float = false ->
  exists counts,
    _rolling_event_rate time_ns window_ns
    = Ok ((fun c => (of_Z c / window_seconds window_ns)%float) <$> counts) /\
    length counts = length time_ns /\
    forall i c, counts !! i = Some c -> 1 <= c <= Z.of_nat i + 1.
Proof.
  intros Hw Hrange Hsec. unfold _rolling_event_rate.
  destruct (sweep_counts time_ns window_ns 0 0 Hw Hrange Hsec) as (counts & Hrun & Hlen & Hc);
    [lia|].
  rewrite drop_0 in Hrun. exists counts. split; [done|]. split; [lia|].
  intros i c Hi. specialize (Hc i c Hi). lia.
Qed.

(** A window of length zero: the first rate is a division by zero. *)
Lemma rolling_event_rate_zero_window t rest :
  in_int64 t -> _rolling_event_rate (t :: rest) 0 = Raise ZeroDivisionError.
Proof.
  intros Ht. unfold _rolling_event_rate. cbn [sweep drop advance].
  rewrite window_bound_ok by (unfold in_int64, int64_min, int64_max; lia).
  cbn [bind advance].
  rewrite Z.sub_0_r, wrap64_id by done. rewrite Z.ltb_irrefl. cbn [bind].
  reflexivity.
Qed.

End EventRate.

(** ** [analysis/clean_validate.py]: constants and level columns *)

Module Levels.

Definition DUMMY_BID : Z := -9999999999.
Definition DUMMY_ASK : Z := 9999999999.

(** [[f"{prefix}_{level}" for level in range(1, num_levels + 1)]] *)
Definition _level_columns (prefix : string) (num_levels : Z) : list string :=
  (fun level : Z => prefix +:+ "_" +:+ pretty level) <$> seqZ 1 num_levels.

Fixpoint mapR {A B} (f : A -> result B) (l : list A) : result (list B) :=
  match l with
  | [] => Ok []
  | a :: l' => b <~ f a ;; bs <~ mapR f l' ;; Ok (b :: bs)
  end.

(** A two-dimensional array, held by columns, with its number of rows
    (the array may have no column). *)
Record array2 (A : Type) : Type := mkArray2 {
  shape0 : nat;
  by_col : list (list A)
}.

Arguments mkArray2 {A} shape0 by_col.
Arguments shape0 {A} a.
Arguments by_col {A} a.

(** [df[cols].to_numpy()] for the raw level columns, which are [int64];
    [features._level_arrays], and the selection [df[_level_columns(...)]]
    of [sanity_checks]. *)
Definition _level_arrays (df : DataFrame) (prefix : string) (num_levels : Z)
  : result (array2 Z) :=
  cols <~ mapR (get_int df) (_level_columns prefix num_levels) ;;
  Ok (mkArray2 (nrows df) cols).

(** [a[:, 0]] *)
Definition column0 {A} (a : array2 A) : result (list A) :=
  of_option IndexError (head (by_col a)).

(** The stop of the Python slice [:k] over [n] items. *)
Definition slice_stop (k : Z) (n : nat) : nat :=
  if k <? 0 then Z.to_nat (Z.of_nat n + k) else Nat.min (Z.to_nat k) n.

End Levels.

Import Levels.

(** ** [analysis/features.py] *)

Module Features.

Import EventRate.

Definition mask_value (dummy p : Z) : float :=
  if p =? dummy then nan else of_Z p.

(** [np.where(prices == dummy, np.nan, prices)] *)
Definition where_dummy (dummy : Z) (prices : array2 Z) : array2 float :=
  mkArray2 (shape0 prices)
    ((fun c : list Z => mask_value dummy <$> c) <$> by_col prices).

(** The bid sentinel is masked for the side ["bid"], the ask sentinel for
    any other side. *)
Definition _mask_dummy_prices (prices : array2 Z) (side : string) : array2 float :=
  if decide (side = "bid")
  then where_dummy DUMMY_BID prices
  else where_dummy DUMMY_ASK prices.

(** Elementwise [int64] arithmetic. *)
Definition add64 (a b : list Z) : list Z := zip_with (fun x y => wrap64 (x + y)) a b.
Definition sub64 (a b : list Z) : list Z := zip_with (fun x y => wrap64 (x - y)) a b.
Definition mul64 (a b : list Z) : list Z := zip_with (fun x y => wrap64 (x * y)) a b.

(** numpy's true division of two [int64] arrays. *)
Definition truediv64 (a b : list Z) : list float :=
  zip_with (fun x y => (of_Z x / of_Z y)%float) a b.

(** [np.nansum(sizes[:, :k], axis=1)]: an [int64] array holds no NaN, so
    every selected entry is added. *)
Definition _topk_depth (sizes : array2 Z) (k : Z) : list Z :=
  foldl add64 (replicate (shape0 sizes) 0)
    (take (slice_stop k (length (by_col sizes))) (by_col sizes)).

(** pandas replaces infinities by NaN before a rolling aggregation. *)
Definition prep_value (x : float) : float :=
  if is_infinity x then nan else x.

Definition observed (values : list float) : list float :=
  filter (fun x => is_nan x = false) (prep_value <$> values).

Definition fsum (values : list float) : float :=
  foldl (fun acc x => (acc + x)%float) 0%float values.

(** The rows [i - window + 1 .. i] of a series. *)
Definition window_at {A} (window : nat) (values : list A) (i : nat) : list A :=
  drop (S i - window) (take (S i) values).

Definition rolling {A B} (window : nat) (agg : list A -> B) (values : list A)
  : list B :=
  (fun i => agg (window_at window values i)) <$> seq 0 (length values).

(** [.sum()] of a window with [min_periods] *)
Definition window_sum (min_periods : nat) (w : list float) : float :=
  let obs := observed w in
  if (length obs <? min_periods)%nat then nan else fsum obs.

(** [.std()] of a window with [min_periods]: the sample standard
    deviation (one degree of freedom removed). *)
Definition window_std (min_periods : nat) (w : list float) : float :=
  let obs := observed w in
  let n := length obs in
  if ((n <? min_periods) || (n <=? 1))%nat then nan
  else
    let mean := (fsum obs / of_Z (Z.of_nat n))%float in
    let ss := fsum ((fun x => ((x - mean) * (x - mean))%float) <$> obs) in
    PrimFloat.sqrt (ss / of_Z (Z.of_nat n - 1))%float.

Definition fillna (v : float) (values : list float) : list float :=
  (fun x => if is_nan x then v else x) <$> values.

(** [series.rolling(window=window, min_periods=1).sum()] *)
Definition _rolling_sum (series : list float) (window : nat) : list float :=
  rolling window (window_sum 1) series.

(** [series.rolling(window=window, min_periods=2).std().fillna(0.0)] *)
Definition _rolling_std (series : list float) (window : nat) : list float :=
  fillna 0%float (rolling window (window_std 2) series).

(** [series.ffill()]: a missing entry takes the last value seen. *)
Fixpoint ffill_from (last : float) (values : list float) : list float :=
  match values with
  | [] => []
  | x :: rest =>
      let y := if is_nan x then last else x in
      y :: ffill_from y rest
  end.

Definition ffill (values : list float) : list float := ffill_from nan values.

(** [series.shift(1)] *)
Definition shift1 (values : list float) : list float :=
  take (length values) (nan :: values).

(** [series.pct_change()]: missing entries are padded forward first,
    then [x / x.shift(1) - 1]. *)
Definition pct_change (values : list float) : list float :=
  let filled := ffill values in
  zip_with (fun x p => (x / p - 1)%float) filled (shift1 filled).

(** [np.select([event_type.isin([1]), event_type.isin([2, 3, 4, 5])],
    [1, -1], default=0)] *)
Definition event_sign (event_type : Z) : Z :=
  if event_type =? 1 then 1
  else if (2 <=? event_type) && (event_type <=? 5) then -1
  else 0.

Definition window_ns_default : Z := 10 ^ 9.

(** The derived columns of [compute_features], in the order in which
    they are assigned (lines 47 to 81 compute them). *)
Definition derive (df : DataFrame) (num_levels topk : Z)
  : result (list (string * column)) :=
  bid_price_arr <~ _level_arrays df "bid_price" num_levels ;;
  let bid_prices := _mask_dummy_prices bid_price_arr "bid" in
  ask_price_arr <~ _level_arrays df "ask_price" num_levels ;;
  let ask_prices := _mask_dummy_prices ask_price_arr "ask" in
  bid_sizes <~ _level_arrays df "bid_size" num_levels ;;
  ask_sizes <~ _level_arrays df "ask_size" num_levels ;;
  best_bid <~ column0 bid_prices ;;
  best_ask <~ column0 ask_prices ;;
  let mid := zip_with (fun b a => ((b + a) / 2)%float) best_bid best_ask in
  let spread := zip_with (fun b a => (a - b)%float) best_bid best_ask in
  bid_size0 <~ column0 bid_sizes ;;
  ask_size0 <~ column0 ask_sizes ;;
  let level1_imb :=
    truediv64 (sub64 bid_size0 ask_size0) (add64 bid_size0 ask_size0) in
  let bid_depth_k := _topk_depth bid_sizes topk in
  let ask_depth_k := _topk_depth ask_sizes topk in
  let topk_imb :=
    truediv64 (sub64 bid_depth_k ask_depth_k) (add64 bid_depth_k ask_depth_k) in
  let microprice :=
    zip_with (fun num den => (num / of_Z den)%float)
      (zip_with (fun x y => (x + y)%float)
         (zip_with (fun b s => (b * of_Z s)%float) best_bid ask_size0)
         (zip_with (fun a s => (a * of_Z s)%float) best_ask bid_size0))
      (add64 bid_size0 ask_size0) in
  time_ns <~ get_int df "time_ns" ;;
  event_rate <~ _rolling_event_rate time_ns window_ns_default ;;
  event_type <~ get_int df "event_type" ;;
  direction <~ get_int df "direction" ;;
  size <~ get_int df "size" ;;
  let sign := event_sign <$> event_type in
  let signed_flow := mul64 (mul64 direction size) sign in
  let order_flow_imb := _rolling_sum (of_Z <$> signed_flow) 100 in
  let mid_ret := fillna 0%float (pct_change mid) in
  let realized_vol := _rolling_std mid_ret 100 in
  Ok [ ("best_bid", FloatCol best_bid);
       ("best_ask", FloatCol best_ask);
       ("mid", FloatCol mid);
       ("spread", FloatCol spread);
       ("level1_imbalance", FloatCol level1_imb);
       ("topk_imbalance", FloatCol topk_imb);
       ("depth_topk_bid", IntCol bid_depth_k);
       ("depth_topk_ask", IntCol ask_depth_k);
       ("depth_total_topk", IntCol (add64 bid_depth_k ask_depth_k));
       ("microprice", FloatCol microprice);
       ("event_rate", FloatCol event_rate);
       ("order_flow_imbalance", FloatCol order_flow_imb);
       ("realized_volatility", FloatCol realized_vol) ].

(** [compute_features]: the columns are computed from the caller's
    frame, then [features = df.copy()] receives them one by one. *)
Definition compute_features (df : loc) (num_levels topk : Z) : M loc :=
  frame <- deref df ;;;
  derived <- lift (derive frame num_levels topk) ;;;
  features <- copy df ;;;
  _ <- store_setitems features derived ;;;
  ret features.

(** *** Every derived column is computed from the rows seen so far

    Each operation of [derive] commutes with cutting its inputs after [m]
    rows. *)

Lemma take_fmap {A B} (f : A -> B) (m : nat) (l : list A) :
  take m (f <$> l) = f <$> take m l.
Proof. symmetry. apply fmap_take. Qed.

Lemma column0_mask_take m n cols side l :
  column0 (_mask_dummy_prices (mkArray2 n cols) side) = Ok l ->
  forall n', column0 (_mask_dummy_prices (mkArray2 n' (take m <$> cols)) side)
             = Ok (take m l).
Proof.
  unfold column0, _mask_dummy_prices, where_dummy. cbn [by_col shape0].
  destruct (decide _), cols as [|c cols]; cbn; try done;
    intros; simplify_eq; by rewrite fmap_take.
Qed.

Lemma take_add64 m a b : take m (add64 a b) = add64 (take m a) (take m b).
Proof. apply zip_with_take. Qed.

Lemma take_sub64 m a b : take m (sub64 a b) = sub64 (take m a) (take m b).
Proof. apply zip_with_take. Qed.

Lemma take_mul64 m a b : take m (mul64 a b) = mul64 (take m a) (take m b).
Proof. apply zip_with_take. Qed.

Lemma take_truediv64 m a b :
  take m (truediv64 a b) = truediv64 (take m a) (take m b).
Proof. apply zip_with_take. Qed.

Lemma take_foldl_add64 m acc cols :
  take m (foldl add64 acc cols) = foldl add64 (take m acc) (take m <$> cols).
Proof.
  revert acc. induction cols as [|c cols IH]; intros acc; cbn; [done|].
  by rewrite IH, take_add64.
Qed.

Lemma take_topk_depth m n cols k :
  take m (_topk_depth (mkArray2 n cols) k)
  = _topk_depth (mkArray2 (Nat.min m n) (take m <$> cols)) k.
Proof.
  unfold _topk_depth. cbn [shape0 by_col].
  rewrite take_foldl_add64, take_replicate, length_fmap. by rewrite fmap_take.
Qed.

Lemma window_at_take {A} window m (values : list A) i :
  (i < m)%nat -> window_at window (take m values) i = window_at window values i.
Proof.
  intros Hi. unfold window_at. by rewrite take_take, Nat.min_l by lia.
Qed.

Lemma take_rolling {A B} window (agg : list A -> B) m values :
  take m (rolling window agg values) = rolling window agg (take m values).
Proof.
  unfold rolling. rewrite take_fmap, take_seq, length_take.
  apply list_fmap_ext. intros i x Hx.
  apply lookup_seq in Hx as [-> Hx]. cbn.
  by rewrite window_at_take by lia.
Qed.

Lemma take_fillna m v values : take m (fillna v values) = fillna v (take m values).
Proof. apply take_fmap. Qed.

Lemma take_rolling_sum m series window :
  take m (_rolling_sum series window) = _rolling_sum (take m series) window.
Proof. apply take_rolling. Qed.

Lemma take_rolling_std m series window :
  take m (_rolling_std series window) = _rolling_std (take m series) window.
Proof. unfold _rolling_std. by rewrite take_fillna, take_rolling. Qed.

Lemma take_ffill_from m last values :
  take m (ffill_from last values) = ffill_from last (take m values).
Proof.
  revert m last. induction values as [|x values IH]; intros [|m] last; cbn; try done.
  by rewrite IH.
Qed.

Lemma take_shift1 m values : take m (shift1 values) = shift1 (take m values).
Proof.
  unfold shift1. rewrite take_take, length_take.
  destruct (Nat.min m (length values)) as [|k] eqn:Hk; [done|].
  cbn. f_equal. rewrite take_take. f_equal. lia.
Qed.

Lemma take_pct_change m values :
  take m (pct_change values) = pct_change (take m values).
Proof.
  unfold pct_change, ffill.
  by rewrite zip_with_take, take_shift1, take_ffill_from.
Qed.

(** The raw columns of the first [m] rows. *)
Lemma get_int_head m df name l :
  get_int df name = Ok l -> get_int (head_rows m df) name = Ok (take m l).
Proof.
  unfold get_int, getitem, head_rows. cbn [columns].
  rewrite lookup_fmap. destruct (columns df !! name) as [[v|v]|]; cbn; [|done..].
  intros. by simplify_eq.
Qed.

Lemma mapR_get_int_head m df names cols :
  mapR (get_int df) names = Ok cols ->
  mapR (get_int (head_rows m df)) names = Ok (take m <$> cols).
Proof.
  revert cols. induction names as [|name names IH]; intros cols; cbn.
  - intros. by simplify_eq.
  - destruct (get_int df name) as [l|] eqn:Hl; [|done]. cbn [bind].
    destruct (mapR (get_int df) names) as [ls|]; [|done]. cbn [bind].
    intros. simplify_eq. rewrite (get_int_head _ _ _ _ Hl). cbn [bind].
    by rewrite (IH ls).
Qed.

Lemma level_arrays_head m df prefix num_levels a :
  _level_arrays df prefix num_levels = Ok a ->
  _level_arrays (head_rows m df) prefix num_levels
  = Ok (mkArray2 (Nat.min m (shape0 a)) (take m <$> by_col a)).
Proof.
  unfold _level_arrays.
  destruct (mapR (get_int df) _) as [cols|] eqn:Hcols; [|done]. cbn [bind].
  intros. simplify_eq. by rewrite (mapR_get_int_head _ _ _ _ Hcols).
Qed.

Lemma column0_take {A} m n (cols : list (list A)) l :
  column0 (mkArray2 n cols) = Ok l ->
  forall n', column0 (mkArray2 n' (take m <$> cols)) = Ok (take m l).
Proof.
  unfold column0. cbn [by_col]. destruct cols as [|c cols]; cbn; [done|].
  intros. by simplify_eq.
Qed.

(** The names of the derived columns, in the order of assignment. *)
Definition derived_names : list string :=
  [ "best_bid"; "best_ask"; "mid"; "spread"; "level1_imbalance";
    "topk_imbalance"; "depth_topk_bid"; "depth_topk_ask"; "depth_total_topk";
    "microprice"; "event_rate"; "order_flow_imbalance"; "realized_volatility" ].

Ltac ok_bind H :=
  match type of H with
  | bind ?r _ = Ok _ =>
      let x := fresh "x" in
      let E := fresh "E" in
      destruct r as [x|] eqn:E; [cbn [bind] in H|discriminate H]
  end.

Lemma derive_names df num_levels topk cols :
  derive df num_levels topk = Ok cols -> cols.*1 = derived_names.
Proof.
  unfold derive. intros H. repeat ok_bind H. by simplify_eq.
Qed.

(** [derive] on the first [m] rows gives the first [m] rows of every
    derived column. *)
Lemma derive_head m df num_levels topk cols :
  derive df num_levels topk = Ok cols ->
  (forall time_ns, get_int df "time_ns" = Ok time_ns ->
     no_underflow window_ns_default (take m time_ns)) ->
  derive (head_rows m df) num_levels topk
  = Ok ((fun nc : string * column => (nc.1, col_take m nc.2)) <$> cols).
Proof.
  unfold derive. intros H Htime.
  do 4 ok_bind H.
  rewrite (level_arrays_head _ _ _ _ _ E), (level_arrays_head _ _ _ _ _ E0),
    (level_arrays_head _ _ _ _ _ E1), (level_arrays_head _ _ _ _ _ E2).
  cbn [bind].
  destruct x as [n1 c1], x0 as [n2 c2], x1 as [n3 c3], x2 as [n4 c4].
  cbn [shape0 by_col] in *.
  do 4 ok_bind H.
  rewrite (column0_mask_take m _ _ _ _ E3), (column0_mask_take m _ _ _ _ E4),
    (column0_take m _ _ _ E5), (column0_take m _ _ _ E6).
  cbn [bind].
  do 2 ok_bind H.
  rewrite (get_int_head _ _ _ _ E7). cbn [bind].
  assert (0 <= window_ns_default) as Hw by (unfold window_ns_default; lia).
  rewrite (rolling_event_rate_take _ _ m _ Hw (Htime _ eq_refl) E8). cbn [bind].
  do 3 ok_bind H.
  rewrite (get_int_head _ _ _ _ E9), (get_int_head _ _ _ _ E10),
    (get_int_head _ _ _ _ E11). cbn [bind].
  simplify_eq. cbn [fmap list_fmap fst snd col_take].
  rewrite <- !take_topk_depth.
  repeat first
    [ rewrite take_rolling_std | rewrite take_rolling_sum | rewrite take_fillna
    | rewrite take_pct_change | rewrite take_truediv64 | rewrite take_add64
    | rewrite take_sub64 | rewrite take_mul64
    | rewrite take_fmap | rewrite zip_with_take ].
  reflexivity.
Qed.

(** *** [compute_features] on the store *)

Lemma compute_features_inv df num_levels topk s r s' :
  compute_features df num_levels topk s = Ok (r, s') ->
  exists frame cols,
    s !! df = Some frame /\
    derive frame num_levels topk = Ok cols /\
    r = length s /\
    s' = s ++ [with_columns frame cols] /\
    Forall (fun nc => col_len nc.2 = nrows frame) cols.
Proof.
  unfold compute_features, mbind, deref, lift, copy, ret.
  destruct (s !! df) as [frame|] eqn:Hdf; [|done].
  destruct (derive frame num_levels topk) as [cols|] eqn:Hcols; [|done].
  rewrite Hdf.
  destruct (store_setitems (length s) cols (s ++ [frame])) as [[u s1]|] eqn:Hset; [|done].
  intros. simplify_eq.
  eapply store_setitems_inv in Hset as [-> Hall].
  2:{ rewrite lookup_app_r by lia. by rewrite Nat.sub_diag. }
  exists frame, cols. by rewrite insert_fresh.
Qed.

Lemma get_int_head_inv m df name l :
  get_int (head_rows m df) name = Ok l ->
  exists l0, get_int df name = Ok l0 /\ l = take m l0.
Proof.
  unfold get_int, getitem, head_rows. cbn [columns].
  rewrite lookup_fmap. destruct (columns df !! name) as [[v|v]|]; cbn; [|done..].
  intros. simplify_eq. eauto.
Qed.

Lemma get_int_length df name l :
  wf_frame df -> get_int df name = Ok l -> length l = nrows df.
Proof.
  unfold get_int, getitem. intros Hwf.
  destruct (columns df !! name) as [[v|v]|] eqn:Hc; cbn; [|done..].
  intros. simplify_eq. apply (Hwf _ _ Hc).
Qed.

Lemma level_arrays_lengths df prefix num_levels a :
  wf_frame df -> _level_arrays df prefix num_levels = Ok a ->
  Forall (fun c => length c = nrows df) (by_col a).
Proof.
  intros Hwf. unfold _level_arrays.
  destruct (mapR (get_int df) _) as [cols|] eqn:Hcols; [|done]. cbn [bind].
  intros. simplify_eq. cbn [by_col].
  revert cols Hcols. generalize (_level_columns prefix num_levels).
  induction l as [|name names IH]; intros cols; cbn.
  - intros. by simplify_eq.
  - destruct (get_int df name) as [c|] eqn:Hc; [|done]. cbn [bind].
    destruct (mapR (get_int df) names) as [cs|]; [|done]. cbn [bind].
    intros. simplify_eq. constructor; [by eapply get_int_length|by apply IH].
Qed.

(** The sum of the stored sizes of the selected levels in row [i], as
    [int64] arithmetic computes it. *)
Definition stored_sum (sizes : list (list Z)) (k : Z) (i : nat) : Z :=
  foldl (fun acc c => wrap64 (acc + default 0 (c !! i))) 0
    (take (slice_stop k (length sizes)) sizes).

Lemma foldl_add64_lookup acc cols i x :
  acc !! i = Some x ->
  Forall (fun c : list Z => (i < length c)%nat) cols ->
  foldl add64 acc cols !! i
  = Some (foldl (fun a c => wrap64 (a + default 0 (c !! i))) x cols).
Proof.
  revert acc x. induction cols as [|c cols IH]; intros acc x Hx Hall; cbn; [done|].
  apply Forall_cons in Hall as [Hc Hall].
  destruct (lookup_lt_is_Some_2 c i Hc) as [y Hy].
  apply IH; [|done]. unfold add64. rewrite lookup_zip_with, Hx. cbn.
  by rewrite Hy.
Qed.

Lemma topk_depth_lookup n cols k i :
  (i < n)%nat -> Forall (fun c => length c = n) cols ->
  _topk_depth (mkArray2 n cols) k !! i = Some (stored_sum cols k i).
Proof.
  intros Hi Hall. unfold _topk_depth, stored_sum. cbn [shape0 by_col].
  apply foldl_add64_lookup.
  - apply lookup_replicate. done.
  - apply Forall_take. eapply Forall_impl; [exact Hall|]. cbn. lia.
Qed.

Lemma derived_names_NoDup : NoDup derived_names.
Proof. apply (bool_decide_unpack _). by vm_compute. Qed.

(** *** When [derive] returns *)

Lemma level_columns_nil prefix num_levels :
  num_levels <= 0 -> _level_columns prefix num_levels = [].
Proof. intros H. unfold _level_columns. by rewrite seqZ_nil. Qed.

Lemma level_columns_cons prefix num_levels :
  0 < num_levels ->
  _level_columns prefix num_levels
  = (prefix +:+ "_1") :: ((fun level : Z => prefix +:+ "_" +:+ pretty level)
                            <$> seqZ 2 (num_levels - 1)).
Proof.
  intros H. unfold _level_columns. rewrite seqZ_cons by done.
  cbn [fmap list_fmap]. f_equal.
Qed.

(** Without levels there is no first column to read. *)
Lemma derive_no_level df num_levels topk :
  num_levels <= 0 -> derive df num_levels topk = Raise IndexError.
Proof.
  intros H. unfold derive, _level_arrays.
  rewrite !level_columns_nil by done. reflexivity.
Qed.

(** The first column of a level array is the column of level 1. *)
Lemma level_arrays_first df prefix num_levels a c :
  _level_arrays df prefix num_levels = Ok a ->
  column0 a = Ok c ->
  get_int df (prefix +:+ "_1") = Ok c.
Proof.
  unfold _level_arrays, column0. intros Ha Hc.
  destruct (decide (num_levels <= 0)) as [Hn|Hn].
  - rewrite level_columns_nil in Ha by done. cbn in Ha. by simplify_eq.
  - rewrite level_columns_cons in Ha by lia. cbn [mapR] in Ha.
    destruct (get_int df _) as [c1|]; [|done]. cbn [bind] in Ha.
    destruct (mapR _ _) as [cs|]; [|done]. cbn [bind] in Ha.
    simplify_eq. cbn in Hc. by simplify_eq.
Qed.

Lemma mapR_length {A B} (f : A -> result B) l bs :
  mapR f l = Ok bs -> length bs = length l.
Proof.
  revert bs. induction l as [|a l IH]; intros bs; cbn.
  - intros. by simplify_eq.
  - destruct (f a); [|done]. cbn [bind]. destruct (mapR f l); [|done]. cbn [bind].
    intros. simplify_eq. cbn. f_equal. by apply IH.
Qed.

Lemma level_arrays_shape df prefix num_levels a :
  _level_arrays df prefix num_levels = Ok a -> shape0 a = nrows df.
Proof.
  unfold _level_arrays. destruct (mapR _ _); cbn; [|done]. intros. by simplify_eq.
Qed.

Lemma level_arrays_column0 df prefix num_levels a :
  0 < num_levels -> _level_arrays df prefix num_levels = Ok a ->
  exists c, column0 a = Ok c.
Proof.
  intros Hn Ha. unfold _level_arrays in Ha.
  destruct (mapR _ _) as [cols|] eqn:Hcols; [|done]. cbn in Ha. simplify_eq.
  apply mapR_length in Hcols. rewrite level_columns_cons in Hcols by done.
  destruct cols as [|c cols]; [done|]. by exists c.
Qed.

Lemma column0_mask prices side c :
  column0 prices = Ok c ->
  column0 (_mask_dummy_prices prices side)
  = Ok (mask_value (if decide (side = "bid") then DUMMY_BID else DUMMY_ASK) <$> c).
Proof.
  unfold column0, _mask_dummy_prices, where_dummy.
  destruct prices as [n [|c0 cols]]; cbn; [done|].
  intros. simplify_eq. by destruct (decide _).
Qed.

Lemma column0_mask_inv prices side l :
  column0 (_mask_dummy_prices prices side) = Ok l ->
  exists c, column0 prices = Ok c /\
    l = mask_value (if decide (side = "bid") then DUMMY_BID else DUMMY_ASK) <$> c.
Proof.
  unfold column0, _mask_dummy_prices, where_dummy.
  destruct prices as [n [|c0 cols]]; cbn; destruct (decide _); cbn; try done;
    intros; simplify_eq; eauto.
Qed.

(** *** The lengths of the derived columns *)

Lemma length_foldl_add64 acc cols n :
  length acc = n -> Forall (fun c : list Z => length c = n) cols ->
  length (foldl add64 acc cols) = n.
Proof.
  revert acc. induction cols as [|c cols IH]; intros acc Hacc Hall; cbn; [done|].
  apply Forall_cons in Hall as [Hc Hall]. apply IH; [|done].
  unfold add64. rewrite length_zip_with. lia.
Qed.

Lemma length_topk_depth n cols k :
  Forall (fun c : list Z => length c = n) cols ->
  length (_topk_depth (mkArray2 n cols) k) = n.
Proof.
  intros Hall. unfold _topk_depth. cbn [shape0 by_col].
  apply length_foldl_add64; [apply length_replicate|by apply Forall_take].
Qed.

Lemma length_rolling {A B} window (agg : list A -> B) values :
  length (rolling window agg values) = length values.
Proof. unfold rolling. by rewrite length_fmap, length_seq. Qed.

Lemma length_ffill_from last values : length (ffill_from last values) = length values.
Proof.
  revert last. induction values as [|x values IH]; intros last; cbn; [done|].
  by rewrite IH.
Qed.

Lemma length_shift1 values : length (shift1 values) = length values.
Proof. unfold shift1. rewrite length_take. cbn. lia. Qed.

Lemma length_pct_change values : length (pct_change values) = length values.
Proof.
  unfold pct_change, ffill. rewrite length_zip_with, length_shift1, length_ffill_from. lia.
Qed.

Lemma length_rolling_std series window :
  length (_rolling_std series window) = length series.
Proof. unfold _rolling_std, fillna. by rewrite length_fmap, length_rolling. Qed.

(** *** Missing prices *)

Lemma is_nan_mask_value dummy p : is_nan (mask_value dummy p) = (p =? dummy).
Proof.
  unfold mask_value. destruct (p =? dummy); [done|apply of_Z_not_nan].
Qed.

Lemma mask_value_cases dummy p :
  (p = dummy /\ mask_value dummy p = nan) \/
  (p <> dummy /\ Float64.number (mask_value dummy p) = true).
Proof.
  unfold mask_value. destruct (Z.eqb_spec p dummy); [by left|right].
  split; [done|apply Float64.of_Z_number].
Qed.

Lemma two_finite : Prim2SF 2 = S754_finite false 4503599627370496 (-51).
Proof. reflexivity. Qed.

(** [(b + a) / 2] and [a - b] are missing exactly when a side is. *)
Lemma is_nan_mid bid ask :
  is_nan ((mask_value DUMMY_BID bid + mask_value DUMMY_ASK ask) / 2)%float
  = (bid =? DUMMY_BID) || (ask =? DUMMY_ASK).
Proof.
  destruct (mask_value_cases DUMMY_BID bid) as [[-> ->]|[Hb Hnb]].
  { by rewrite Float64.add_nan_l, Float64.div_nan_l. }
  destruct (mask_value_cases DUMMY_ASK ask) as [[-> ->]|[Ha Hna]].
  { rewrite Float64.add_nan_r, Float64.div_nan_l. by rewrite orb_true_r. }
  rewrite (Float64.div_finite_not_nan _ _ _ _ _ two_finite)
    by by apply Float64.add_not_nan.
  symmetry. apply orb_false_iff. split; by apply Z.eqb_neq.
Qed.

Lemma is_nan_spread bid ask :
  is_nan (mask_value DUMMY_ASK ask - mask_value DUMMY_BID bid)%float
  = (bid =? DUMMY_BID) || (ask =? DUMMY_ASK).
Proof.
  destruct (mask_value_cases DUMMY_ASK ask) as [[-> ->]|[Ha Hna]].
  { rewrite sub_nan_l. by rewrite orb_true_r. }
  destruct (mask_value_cases DUMMY_BID bid) as [[-> ->]|[Hb Hnb]].
  { by rewrite Float64.sub_nan_r. }
  rewrite Float64.sub_not_nan by done.
  symmetry. apply orb_false_iff. split; by apply Z.eqb_neq.
Qed.

(** *** The cells of the result *)

Lemma result_cell_with_columns (s : store) frame cols j name c i :
  NoDup cols.*1 -> cols !! j = Some (name, c) ->
  result_cell (Ok (length s, s ++ [with_columns frame cols])) name i = col_get c i.
Proof.
  intros Hnd Hj. cbn [result_cell].
  rewrite list_lookup_middle by done.
  by rewrite (lookup_with_columns_in _ _ _ _ _ Hnd Hj).
Qed.

(** The best prices that [derive] reads. *)
Lemma derive_best_prices df num_levels topk cols :
  derive df num_levels topk = Ok cols ->
  exists bids asks,
    get_int df "bid_price_1" = Ok bids /\ get_int df "ask_price_1" = Ok asks /\
    let best_bid := mask_value DUMMY_BID <$> bids in
    let best_ask := mask_value DUMMY_ASK <$> asks in
    cols !! 0%nat = Some ("best_bid", FloatCol best_bid) /\
    cols !! 1%nat = Some ("best_ask", FloatCol best_ask) /\
    cols !! 2%nat
    = Some ("mid", FloatCol (zip_with (fun b a => ((b + a) / 2)%float) best_bid best_ask)) /\
    cols !! 3%nat
    = Some ("spread", FloatCol (zip_with (fun b a => (a - b)%float) best_bid best_ask)).
Proof.
  unfold derive. intros H. do 6 ok_bind H.
  apply column0_mask_inv in E3 as (bids & Hbids & ->).
  apply column0_mask_inv in E4 as (asks & Hasks & ->).
  pose proof (level_arrays_first _ _ _ _ _ E Hbids) as Hb.
  pose proof (level_arrays_first _ _ _ _ _ E0 Hasks) as Ha.
  repeat ok_bind H. simplify_eq.
  exists bids, asks. split; [exact Hb|]. split; [exact Ha|]. cbn. done.
Qed.

(** *** The depth aggregates *)

Lemma level_arrays_width df prefix num_levels a :
  _level_arrays df prefix num_levels = Ok a ->
  length (by_col a) = Z.to_nat num_levels.
Proof.
  unfold _level_arrays. intros Ha.
  destruct (mapR _ _) as [cols|] eqn:Hcols; [|done]. cbn in Ha. simplify_eq.
  apply mapR_length in Hcols. cbn [by_col]. rewrite Hcols.
  unfold _level_columns. by rewrite length_fmap, length_seqZ.
Qed.

(** A depth beyond the levels of the array takes them all. *)
Lemma topk_depth_clamp sizes k :
  Z.of_nat (length (by_col sizes)) <= k ->
  _topk_depth sizes k = _topk_depth sizes (Z.of_nat (length (by_col sizes))).
Proof.
  intros Hk. unfold _topk_depth, slice_stop.
  destruct (Z.ltb_spec k 0); [lia|].
  destruct (Z.ltb_spec (Z.of_nat (length (by_col sizes))) 0); [lia|].
  f_equal. f_equal. lia.
Qed.

Lemma derive_topk_clamp df num_levels topk :
  0 <= num_levels <= topk ->
  derive df num_levels topk = derive df num_levels num_levels.
Proof.
  intros Hk. unfold derive.
  destruct (_level_arrays df "bid_price" num_levels) as [bp|]; [|done]. cbn [bind].
  destruct (_level_arrays df "ask_price" num_levels) as [ap|]; [|done]. cbn [bind].
  destruct (_level_arrays df "bid_size" num_levels) as [bs|] eqn:Hbs; [|done]. cbn [bind].
  destruct (_level_arrays df "ask_size" num_levels) as [as_|] eqn:Has; [|done]. cbn [bind].
  apply level_arrays_width in Hbs, Has.
  rewrite (topk_depth_clamp bs topk), (topk_depth_clamp as_ topk) by lia.
  rewrite (topk_depth_clamp bs num_levels), (topk_depth_clamp as_ num_levels) by lia.
  done.
Qed.

Lemma topk_depth_zero sizes : _topk_depth sizes 0 = replicate (shape0 sizes) 0.
Proof. unfold _topk_depth, slice_stop. cbn. by rewrite take_0. Qed.

(** The depth columns that [derive] assigns. *)
Lemma derive_depth_columns df num_levels topk cols :
  derive df num_levels topk = Ok cols ->
  exists bid_sizes ask_sizes,
    _level_arrays df "bid_size" num_levels = Ok bid_sizes /\
    _level_arrays df "ask_size" num_levels = Ok ask_sizes /\
    let bid_depth_k := _topk_depth bid_sizes topk in
    let ask_depth_k := _topk_depth ask_sizes topk in
    cols !! 5%nat
    = Some ("topk_imbalance",
            FloatCol (truediv64 (sub64 bid_depth_k ask_depth_k)
                        (add64 bid_depth_k ask_depth_k))) /\
    cols !! 6%nat = Some ("depth_topk_bid", IntCol bid_depth_k) /\
    cols !! 7%nat = Some ("depth_topk_ask", IntCol ask_depth_k) /\
    cols !! 8%nat = Some ("depth_total_topk", IntCol (add64 bid_depth_k ask_depth_k)).
Proof.
  unfold derive. intros H. repeat ok_bind H. simplify_eq.
  do 2 eexists. split; [done|]. split; [done|]. cbn. done.
Qed.

(** *** The first row *)

Lemma rolling_event_rate_first t rest window_ns rates :
  0 <= window_ns -> int64_min + window_ns <= t <= int64_max ->
  _rolling_event_rate (t :: rest) window_ns = Ok rates ->
  rates !! 0%nat = Some (of_Z 1 / window_seconds window_ns)%float.
Proof.
  intros Hw Ht. unfold _rolling_event_rate. cbn [sweep drop].
  destruct (window_bound t window_ns) as [bound|] eqn:Hb; [|done].
  apply window_bound_inv in Hb as [_ ->]. cbn [bind advance].
  rewrite wrap64_id by (unfold in_int64, int64_max in *; lia).
  destruct (Z.ltb_spec t (t - window_ns)); [lia|]. cbn [bind].
  destruct (rate_of_count _ _) as [rate|] eqn:Hrate; [|done]. cbn [bind].
  destruct (sweep _ _ _ _ _) as [rates'|]; [|done]. cbn [bind].
  intros. simplify_eq. cbn. f_equal.
  unfold rate_of_count in Hrate. destruct (_ =? 0)%float; [done|].
  by simplify_eq.
Qed.

Lemma rolling_std_first series window v :
  (0 < window)%nat -> _rolling_std series window !! 0%nat = Some v -> v = 0%float.
Proof.
  intros Hw. unfold _rolling_std, fillna, rolling.
  rewrite !list_lookup_fmap.
  destruct (seq 0 (length series) !! 0%nat) as [i|] eqn:Hi; [|done].
  apply lookup_seq in Hi as [-> _]. cbn [fmap option_fmap option_map].
  unfold window_at. cbn [Nat.add].
  replace (1 - window)%nat with 0%nat by lia. rewrite drop_0.
  unfold window_std.
  assert (length (observed (take 1 series)) <= 1)%nat as Hobs.
  { unfold observed. etransitivity; [apply length_filter|].
    rewrite length_fmap, length_take. lia. }
  destruct (Nat.ltb_spec (length (observed (take 1 series))) 2); [|lia].
  cbn. intros. by simplify_eq.
Qed.

(** *** Columns without missing values *)

Lemma sweep_not_nan time_ns window_ns todo idx left rates s m e :
  Prim2SF (window_seconds window_ns) = S754_finite s m e ->
  sweep time_ns window_ns todo idx left = Ok rates ->
  Forall (fun rate => is_nan rate = false) rates.
Proof.
  intros Hsec. revert idx left rates.
  induction todo as [|t todo IH]; intros idx left rates; cbn [sweep].
  - intros. simplify_eq. constructor.
  - destruct (window_bound _ _) as [bound|]; [|done]. cbn [bind].
    destruct (advance _ _ _) as [left'|]; [|done]. cbn [bind].
    destruct (rate_of_count _ _) as [rate|] eqn:Hrate; [|done]. cbn [bind].
    destruct (sweep _ _ _ _ _) as [rates'|] eqn:Hrest; [|done]. cbn [bind].
    intros. simplify_eq. constructor; [|by eapply IH].
    unfold rate_of_count in Hrate. destruct (_ =? 0)%float; [done|]. simplify_eq.
    eapply Float64.div_finite_not_nan; [exact Hsec|apply of_Z_not_nan].
Qed.

Lemma rolling_std_not_nan series window :
  Forall (fun v => is_nan v = false) (_rolling_std series window).
Proof.
  unfold _rolling_std, fillna. apply Forall_fmap, Forall_forall. intros x _. cbn.
  by destruct (is_nan x) eqn:Hx.
Qed.

End Features.

(** ** [analysis/labels.py] *)

Module Labels.

(** [series.shift(periods)] *)
Definition shift (periods : Z) (values : list float) : list float :=
  let n := length values in
  if 0 <=? periods
  then take n (replicate (Z.to_nat periods) nan ++ values)
  else drop (Z.to_nat (- periods)) values
         ++ replicate (Nat.min (Z.to_nat (- periods)) n) nan.

(** [np.maximum(spread / 2.0, 1)] *)
Definition threshold_of (spread : float) : float :=
  maximum (spread / 2)%float 1%float.

(** [np.where(raw_move > threshold, 1,
              np.where(raw_move < -threshold, -1, 0))], as [int8] *)
Definition label_of (raw_move threshold : float) : Z :=
  if (threshold <? raw_move)%float then 1
  else if (raw_move <? - threshold)%float then -1
  else 0.

Definition raw_move_name (horizon : Z) : string := "raw_move_H" +:+ pretty horizon.
Definition label_name (horizon : Z) : string := "label_H" +:+ pretty horizon.

Definition store_get_float (l : loc) (name : string) : M (list float) :=
  c <- store_getitem l name ;;;
  match c with
  | FloatCol v => ret v
  | IntCol _ => lift (Raise UnsupportedDtype)
  end.

(** The body of [for horizon in horizons]. *)
Definition label_horizon (labeled : loc) (horizon : Z) : M unit :=
  mid <- store_get_float labeled "mid" ;;;
  let future_mid := shift (- horizon) mid in
  mid' <- store_get_float labeled "mid" ;;;
  let raw_move := zip_with (fun f m => (f - m)%float) future_mid mid' in
  spread <- store_get_float labeled "spread" ;;;
  let threshold := threshold_of <$> spread in
  let label := zip_with label_of raw_move threshold in
  _ <- store_setitem labeled (raw_move_name horizon) (FloatCol raw_move) ;;;
  store_setitem labeled (label_name horizon) (IntCol label).

Fixpoint for_each {A} (items : list A) (body : A -> M unit) : M unit :=
  match items with
  | [] => ret tt
  | a :: rest => _ <- body a ;;; for_each rest body
  end.

Definition generate_labels (df : loc) (horizons : list Z) : M loc :=
  labeled <- copy df ;;;
  _ <- for_each horizons (label_horizon labeled) ;;;
  ret labeled.

(** *** What [generate_labels] leaves in the store *)

(** The two columns that the iteration for [horizon] assigns. *)
Definition label_columns (mid spread : list float) (horizon : Z)
  : list (string * column) :=
  let raw_move := zip_with (fun f m => (f - m)%float) (shift (- horizon) mid) mid in
  [ (raw_move_name horizon, FloatCol raw_move);
    (label_name horizon, IntCol (zip_with label_of raw_move (threshold_of <$> spread))) ].

Definition label_names (horizons : list Z) : list string :=
  horizons ≫= (fun h => [raw_move_name h; label_name h]).

Lemma label_columns_names mid spread horizons :
  (horizons ≫= label_columns mid spread).*1 = label_names horizons.
Proof.
  unfold label_names. induction horizons as [|h hs IH]; [done|].
  cbn. by rewrite IH.
Qed.

Lemma mid_not_label_name horizons : "mid" ∉ label_names horizons.
Proof.
  unfold label_names. rewrite list_elem_of_bind. intros (h & Hin & _).
  cbn in Hin. repeat (apply elem_of_cons in Hin as [Hin|Hin]; [discriminate Hin|]).
  by apply elem_of_nil in Hin.
Qed.

Lemma spread_not_label_name horizons : "spread" ∉ label_names horizons.
Proof.
  unfold label_names. rewrite list_elem_of_bind. intros (h & Hin & _).
  cbn in Hin. repeat (apply elem_of_cons in Hin as [Hin|Hin]; [discriminate Hin|]).
  by apply elem_of_nil in Hin.
Qed.

Lemma store_get_float_inv l name s v s' :
  store_get_float l name s = Ok (v, s') ->
  exists d, s !! l = Some d /\ get_float d name = Ok v /\ s' = s.
Proof.
  unfold store_get_float, mbind, store_getitem, get_float, lift, ret.
  destruct (s !! l) as [d|]; [|done].
  destruct (getitem d name) as [[x|x]|] eqn:Hget; cbn; try done.
  intros. simplify_eq. exists d. by rewrite Hget.
Qed.

Lemma label_horizon_inv l horizon s u s' d :
  s !! l = Some d ->
  label_horizon l horizon s = Ok (u, s') ->
  exists mid spread,
    get_float d "mid" = Ok mid /\ get_float d "spread" = Ok spread /\
    s' = <[l := with_columns d (label_columns mid spread horizon)]> s /\
    Forall (fun nc => col_len nc.2 = nrows d) (label_columns mid spread horizon).
Proof.
  intros Hd. unfold label_horizon. unfold mbind at 1.
  destruct (store_get_float l "mid" s) as [[mid s1]|] eqn:H1; [|done].
  apply store_get_float_inv in H1 as (d1 & Hd1 & Hmid & ->). simplify_eq.
  unfold mbind at 1.
  destruct (store_get_float l "mid" s) as [[mid' s1]|] eqn:H1; [|done].
  apply store_get_float_inv in H1 as (d1 & Hd1 & Hmid' & ->). simplify_eq.
  assert (mid' = mid) as -> by congruence.
  unfold mbind at 1.
  destruct (store_get_float l "spread" s) as [[spread s1]|] eqn:H1; [|done].
  apply store_get_float_inv in H1 as (d1 & Hd1 & Hspread & ->). simplify_eq.
  unfold mbind at 1.
  destruct (store_setitem l (raw_move_name horizon) _ s) as [[u1 s1]|] eqn:H1; [|done].
  apply store_setitem_inv in H1 as (d1 & Hd1 & Hlen1 & ->). simplify_eq.
  intros H2.
  apply store_setitem_inv in H2 as (d2 & Hd2 & Hlen2 & ->).
  rewrite list_lookup_insert_eq in Hd2 by (by eapply lookup_lt_Some).
  simplify_eq. cbn [nrows] in Hlen2.
  exists mid, spread. rewrite list_insert_insert_eq.
  split; [done|]. split; [done|]. split; [reflexivity|].
  unfold label_columns. apply Forall_cons. split; [exact Hlen1|].
  apply Forall_cons. split; [exact Hlen2|]. constructor.
Qed.

Lemma get_float_with_columns d cols name :
  name ∉ cols.*1 -> get_float (with_columns d cols) name = get_float d name.
Proof.
  intros Hname. unfold get_float, getitem.
  by rewrite lookup_with_columns_other.
Qed.

Lemma for_each_labels_inv l horizons s u s' d :
  s !! l = Some d ->
  for_each horizons (label_horizon l) s = Ok (u, s') ->
  exists cols,
    s' = <[l := with_columns d cols]> s /\
    Forall (fun nc => col_len nc.2 = nrows d) cols /\
    cols.*1 = label_names horizons /\
    forall mid spread,
      get_float d "mid" = Ok mid -> get_float d "spread" = Ok spread ->
      cols = horizons ≫= label_columns mid spread.
Proof.
  revert s d. induction horizons as [|h hs IH]; intros s d Hd; cbn.
  - unfold ret. intros. simplify_eq. exists []. cbn.
    split; [symmetry; by apply list_insert_id|done].
  - unfold mbind at 1.
    destruct (label_horizon l h s) as [[u1 s1]|] eqn:Hh; [|done].
    eapply label_horizon_inv in Hh as (mid & spread & Hmid & Hspread & -> & Hall); [|done].
    intros Hrest.
    eapply IH in Hrest as (cols & -> & Hall' & Hnames & Hcols).
    2:{ apply list_lookup_insert_eq. by eapply lookup_lt_Some. }
    exists (label_columns mid spread h ++ cols).
    rewrite list_insert_insert_eq, with_columns_app.
    split; [done|]. split; [|split].
    + apply Forall_app. split; [done|].
      by rewrite nrows_with_columns in Hall'.
    + rewrite fmap_app, Hnames. done.
    + intros mid0 spread0 Hmid0 Hspread0.
      assert (mid0 = mid) as -> by congruence.
      assert (spread0 = spread) as -> by congruence.
      unfold label_columns at 1. cbn [app]. do 2 f_equal.
      apply Hcols; rewrite get_float_with_columns; try done.
      * apply (mid_not_label_name [h]).
      * apply (spread_not_label_name [h]).
Qed.

Lemma generate_labels_inv df horizons s r s' :
  generate_labels df horizons s = Ok (r, s') ->
  exists frame cols,
    s !! df = Some frame /\
    r = length s /\
    s' = s ++ [with_columns frame cols] /\
    Forall (fun nc => col_len nc.2 = nrows frame) cols /\
    cols.*1 = label_names horizons /\
    forall mid spread,
      get_float frame "mid" = Ok mid -> get_float frame "spread" = Ok spread ->
      cols = horizons ≫= label_columns mid spread.
Proof.
  unfold generate_labels, mbind, copy, ret.
  destruct (s !! df) as [frame|] eqn:Hdf; [|done].
  destruct (for_each horizons _ _) as [[u s1]|] eqn:Hloop; [|done].
  intros. simplify_eq.
  eapply for_each_labels_inv in Hloop as (cols & -> & Hall & Hnames & Hcols).
  2:{ rewrite lookup_app_r by lia. by rewrite Nat.sub_diag. }
  exists frame, cols. by rewrite insert_fresh.
Qed.

(** A horizon that was requested reads [mid] and [spread]. *)
Lemma generate_labels_reads df horizons s r s' frame :
  generate_labels df horizons s = Ok (r, s') ->
  s !! df = Some frame -> horizons <> [] ->
  exists mid spread,
    get_float frame "mid" = Ok mid /\ get_float frame "spread" = Ok spread.
Proof.
  unfold generate_labels, mbind, copy, ret. intros H Hdf Hne. rewrite Hdf in H.
  destruct horizons as [|h hs]; [done|]. cbn [for_each] in H.
  unfold mbind at 1 in H.
  destruct (label_horizon _ h _) as [[u1 s1]|] eqn:Hh; [|done].
  eapply label_horizon_inv in Hh as (mid & spread & Hmid & Hspread & _).
  2:{ rewrite lookup_app_r by lia. by rewrite Nat.sub_diag. }
  eauto.
Qed.

Lemma raw_move_name_inj h h' : raw_move_name h = raw_move_name h' -> h = h'.
Proof.
  unfold raw_move_name. cbn. intros H. simplify_eq. by apply (inj pretty).
Qed.

Lemma label_name_inj h h' : label_name h = label_name h' -> h = h'.
Proof.
  unfold label_name. cbn. intros H. simplify_eq. by apply (inj pretty).
Qed.

Lemma raw_move_name_not_label h h' : raw_move_name h <> label_name h'.
Proof. unfold raw_move_name, label_name. cbn. discriminate. Qed.

Lemma length_shift periods values : length (shift periods values) = length values.
Proof.
  unfold shift. destruct (0 <=? periods).
  - rewrite length_take, length_app, length_replicate. lia.
  - rewrite length_app, length_drop, length_replicate. lia.
Qed.

(** The rows without a future mid. *)
Lemma shift_future_missing (horizon : Z) (mid : list float) (i : nat) :
  (i < length mid)%nat -> Z.of_nat (length mid) - horizon <= Z.of_nat i ->
  shift (- horizon) mid !! i = Some nan.
Proof.
  intros Hi Hlate. unfold shift.
  destruct (Z.leb_spec 0 (- horizon)); [lia|].
  replace (- - horizon) with horizon by lia.
  rewrite lookup_app_r by (rewrite length_drop; lia).
  apply lookup_replicate. split; [done|]. rewrite length_drop. lia.
Qed.

Lemma label_of_nan threshold : label_of nan threshold = 0.
Proof. unfold label_of. by rewrite ltb_nan_r, ltb_nan_l. Qed.

(** *** The value that a shift brings to a row *)

(** The entry [periods] rows before row [i], missing when there is no
    such row. *)
Definition shifted (periods : Z) (values : list float) (i : nat) : float :=
  let j := Z.of_nat i - periods in
  if (0 <=? j) && (j <? Z.of_nat (length values))
  then default nan (values !! Z.to_nat j)
  else nan.

Lemma shift_lookup periods values i :
  (i < length values)%nat ->
  shift periods values !! i = Some (shifted periods values i).
Proof.
  intros Hi. unfold shift, shifted.
  destruct (Z.leb_spec 0 periods) as [Hp|Hp].
  - rewrite lookup_take_lt by done.
    destruct (decide (i < Z.to_nat periods)%nat) as [Hlt|Hge].
    + rewrite lookup_app_l by (rewrite length_replicate; lia).
      rewrite lookup_replicate_2 by done.
      destruct (Z.leb_spec 0 (Z.of_nat i - periods)); [lia|]. done.
    + rewrite lookup_app_r by (rewrite length_replicate; lia).
      rewrite length_replicate.
      destruct (Z.leb_spec 0 (Z.of_nat i - periods)); [|lia].
      destruct (Z.ltb_spec (Z.of_nat i - periods) (Z.of_nat (length values))); [|lia].
      cbn [andb]. replace (Z.to_nat (Z.of_nat i - periods)) with (i - Z.to_nat periods)%nat by lia.
      destruct (lookup_lt_is_Some_2 values (i - Z.to_nat periods)) as [x ->]; [lia|]. done.
  - destruct (Z.leb_spec 0 (Z.of_nat i - periods)); [|lia].
    destruct (Z.ltb_spec (Z.of_nat i - periods) (Z.of_nat (length values))) as [Hin|Hout];
      cbn [andb].
    + rewrite lookup_app_l by (rewrite length_drop; lia).
      rewrite lookup_drop.
      replace (Z.to_nat (Z.of_nat i - periods)) with (Z.to_nat (- periods) + i)%nat by lia.
      destruct (lookup_lt_is_Some_2 values (Z.to_nat (- periods) + i)) as [x ->]; [lia|]. done.
    + rewrite lookup_app_r by (rewrite length_drop; lia).
      rewrite length_drop. apply lookup_replicate_2. lia.
Qed.

(** *** A label that is not zero *)

Lemma opp_nan : (- nan)%float = nan.
Proof. reflexivity. Qed.

Lemma threshold_of_nan : threshold_of nan = nan.
Proof. reflexivity. Qed.

Lemma label_of_values raw_move threshold :
  label_of raw_move threshold = 1 \/ label_of raw_move threshold = -1 \/
  label_of raw_move threshold = 0.
Proof. unfold label_of. repeat destruct (_ <? _)%float; auto. Qed.

Lemma label_of_not_zero raw_move spread :
  label_of raw_move (threshold_of spread) <> 0 ->
  is_nan raw_move = false /\ is_nan spread = false.
Proof.
  intros Hl. split.
  - destruct (is_nan raw_move) eqn:Hm; [|done].
    apply Float64.is_nan_true in Hm as ->. by rewrite label_of_nan in Hl.
  - destruct (is_nan spread) eqn:Hs; [|done].
    apply Float64.is_nan_true in Hs as ->. rewrite threshold_of_nan in Hl.
    unfold label_of in Hl. by rewrite ltb_nan_l, opp_nan, ltb_nan_r in Hl.
Qed.

(** *** When [generate_labels] returns *)






(** A frame without [mid] is refused as soon as a horizon is requested. *)
Lemma generate_labels_missing_mid df horizon horizons s frame :
  s !! df = Some frame -> columns frame !! "mid" = None ->
  generate_labels df (horizon :: horizons) s = Raise KeyError.
Proof.
  intros Hdf Hmid. unfold generate_labels, mbind, copy. rewrite Hdf.
  cbn [for_each]. unfold mbind, label_horizon, mbind, store_get_float, mbind, store_getitem.
  rewrite lookup_app_r by lia. rewrite Nat.sub_diag. cbn [lookup list_lookup].
  unfold getitem. by rewrite Hmid.
Qed.

(** *** The cells of the labelled frame *)

Lemma label_columns_lookup mid spread horizons horizon :
  horizon ∈ horizons ->
  let raw_move :=
    zip_with (fun f m => (f - m)%float) (shift (- horizon) mid) mid in
  let label := zip_with label_of raw_move (threshold_of <$> spread) in
  forall frame,
    columns (with_columns frame (horizons ≫= label_columns mid spread))
      !! raw_move_name horizon = Some (FloatCol raw_move) /\
    columns (with_columns frame (horizons ≫= label_columns mid spread))
      !! label_name horizon = Some (IntCol label).
Proof.
  intros Hin raw_move label frame. split.
  - apply lookup_with_columns_same.
    + rewrite label_columns_names. unfold label_names.
      apply list_elem_of_bind. exists horizon. split; [|done]. by left.
    + intros c' Hc'. apply list_elem_of_bind in Hc' as (h' & Hc' & _).
      unfold label_columns in Hc'. apply elem_of_cons in Hc' as [Hc'|Hc'].
      * pose proof (f_equal fst Hc') as Hn. pose proof (f_equal snd Hc') as Hc.
        cbn [fst snd] in Hn, Hc. apply raw_move_name_inj in Hn as <-. done.
      * apply elem_of_cons in Hc' as [Hc'|Hc']; [|by apply elem_of_nil in Hc'].
        pose proof (f_equal fst Hc') as Hn. cbn [fst] in Hn.
        by apply raw_move_name_not_label in Hn.
  - apply lookup_with_columns_same.
    + rewrite label_columns_names. unfold label_names.
      apply list_elem_of_bind. exists horizon. split; [|done]. right. by left.
    + intros c' Hc'. apply list_elem_of_bind in Hc' as (h' & Hc' & _).
      unfold label_columns in Hc'. apply elem_of_cons in Hc' as [Hc'|Hc'].
      * pose proof (f_equal fst Hc') as Hn. cbn [fst] in Hn. symmetry in Hn.
        by apply raw_move_name_not_label in Hn.
      * apply elem_of_cons in Hc' as [Hc'|Hc']; [|by apply elem_of_nil in Hc'].
        pose proof (f_equal fst Hc') as Hn. pose proof (f_equal snd Hc') as Hc.
        cbn [fst snd] in Hn, Hc. apply label_name_inj in Hn as <-. done.
Qed.

(** The move and the label of row [i] in the frame a call returned. *)
Lemma generate_labels_cells df horizons s r s' frame mid spread horizon i m sp :
  generate_labels df horizons s = Ok (r, s') ->
  s !! df = Some frame ->
  horizon ∈ horizons ->
  get_float frame "mid" = Ok mid -> get_float frame "spread" = Ok spread ->
  mid !! i = Some m -> spread !! i = Some sp ->
  let raw_move := (shifted (- horizon) mid i - m)%float in
  result_cell (Ok (r, s')) (raw_move_name horizon) i = Some (F64 raw_move) /\
  result_cell (Ok (r, s')) (label_name horizon) i
  = Some (I64 (label_of raw_move (threshold_of sp))).
Proof.
  intros Hrun Hdf Hin Hmid Hspread Hm Hsp raw_move.
  apply generate_labels_inv in Hrun
    as (frame' & cols & Hdf' & -> & -> & Hall & Hnames & Hcols).
  rewrite Hdf in Hdf'. injection Hdf' as <-.
  specialize (Hcols _ _ Hmid Hspread). subst cols.
  destruct (label_columns_lookup mid spread horizons horizon Hin frame) as [Hraw Hlab].
  cbn [result_cell]. rewrite list_lookup_middle by done. rewrite Hraw, Hlab.
  cbn [col_get].
  assert (zip_with (fun f m => (f - m)%float) (shift (- horizon) mid) mid !! i
          = Some raw_move) as Hrawi.
  { rewrite lookup_zip_with, shift_lookup by (by eapply lookup_lt_Some).
    cbn. rewrite Hm. done. }
  split; [by rewrite Hrawi|].
  rewrite lookup_zip_with, Hrawi. cbn. rewrite list_lookup_fmap, Hsp. done.
Qed.

End Labels.

(** ** [analysis/clean_validate.py] *)

Module CleanValidate.

(** [series.replace(dummy, np.nan)]: the column becomes [float64] when
    an entry is replaced and keeps its dtype otherwise. *)
Definition replace_dummy (dummy : Z) (values : list Z) : column :=
  if bool_decide (dummy ∈ values)
  then FloatCol ((fun p => if p =? dummy then nan else of_Z p) <$> values)
  else IntCol values.

(** Comparison of two entries as numpy compares them: as integers when
    both arrays are [int64], as floats otherwise. *)
Definition cell_float (c : cell) : float :=
  match c with
  | I64 z => of_Z z
  | F64 f => f
  end.

Definition cell_ltb (a b : cell) : bool :=
  match a, b with
  | I64 x, I64 y => x <? y
  | _, _ => (cell_float a <? cell_float b)%float
  end.

Definition cell_leb (a b : cell) : bool :=
  match a, b with
  | I64 x, I64 y => x <=? y
  | _, _ => (cell_float a <=? cell_float b)%float
  end.

(** [series.isna()] on one entry *)
Definition cell_isna (c : cell) : bool :=
  match c with
  | I64 _ => false
  | F64 f => is_nan f
  end.

Definition cells (c : column) : list cell :=
  match c with
  | IntCol l => I64 <$> l
  | FloatCol l => F64 <$> l
  end.

(** [(best_bid < best_ask) | best_bid.isna() | best_ask.isna()] *)
Definition spread_ok (best_bid best_ask : column) : list bool :=
  zip_with (fun b a => cell_ltb b a || cell_isna b || cell_isna a)
    (cells best_bid) (cells best_ask).

(** [frame.replace(dummy, np.nan).values]: one common dtype for the
    whole array, [float64] as soon as one column was converted. *)
Definition replaced_values (dummy : Z) (cols : list (list Z)) : list column :=
  let replaced := replace_dummy dummy <$> cols in
  if forallb (fun c => match c with IntCol _ => true | FloatCol _ => false end) replaced
  then replaced
  else (fun c => FloatCol (to_floats c)) <$> replaced.

Definition float_max : float := 0x1.fffffffffffffp+1023%float.

(** [np.nan_to_num(values, nan=fill)] on one entry *)
Definition nan_to_num (fill : float) (c : cell) : cell :=
  match c with
  | I64 z => I64 z
  | F64 f =>
      if is_nan f then F64 fill
      else if (f =? infinity)%float then F64 float_max
      else if (f =? neg_infinity)%float then F64 (- float_max)%float
      else F64 f
  end.

(** [(a[:, :-1] <rel> a[:, 1:]).all()] for an array held by columns *)
Fixpoint adjacent_all (rel : cell -> cell -> bool) (cols : list (list cell)) : bool :=
  match cols with
  | c1 :: ((c2 :: _) as rest) =>
      forallb (fun b => b) (zip_with rel c1 c2) && adjacent_all rel rest
  | _ => true
  end.

Definition monotonic (rel : cell -> cell -> bool) (fill : float)
    (cols : list column) : bool :=
  adjacent_all rel ((fun c => nan_to_num fill <$> cells c) <$> cols).

Definition non_negative (a : array2 Z) : bool :=
  forallb (forallb (fun z => 0 <=? z)) (by_col a).

(** [add_halt_flags]: a copy with the column [is_halt]. *)
Definition add_halt_flags (df : loc) : M loc :=
  frame <- copy df ;;;
  event_type <- store_getitem frame "event_type" ;;;
  match event_type with
  | IntCol v =>
      _ <- store_setitem frame "is_halt"
             (IntCol ((fun e => if e =? 7 then 1 else 0) <$> v)) ;;;
      ret frame
  | FloatCol _ => lift (Raise UnsupportedDtype)
  end.

Record Summary : Type := mkSummary {
  rows : Z;
  spread_violations : Z;
  sizes_non_negative : Z;
  bid_monotonic : Z;
  ask_monotonic : Z;
  halt_rows : Z
}.

Definition count_true (l : list bool) : Z :=
  Z.of_nat (length (filter (fun b => b = true) l)).

Definition int_of_bool (b : bool) : Z := if b then 1 else 0.

Definition sanity_checks (df : DataFrame) (num_levels : Z) : result Summary :=
  bid_price_1 <~ get_int df "bid_price_1" ;;
  let best_bid := replace_dummy DUMMY_BID bid_price_1 in
  ask_price_1 <~ get_int df "ask_price_1" ;;
  let best_ask := replace_dummy DUMMY_ASK ask_price_1 in
  let ok := spread_ok best_bid best_ask in
  bid_sizes <~ _level_arrays df "bid_size" num_levels ;;
  ask_sizes <~ _level_arrays df "ask_size" num_levels ;;
  let sizes_ok := non_negative bid_sizes && non_negative ask_sizes in
  bid_price_arr <~ _level_arrays df "bid_price" num_levels ;;
  let bid_prices := replaced_values DUMMY_BID (by_col bid_price_arr) in
  ask_price_arr <~ _level_arrays df "ask_price" num_levels ;;
  let ask_prices := replaced_values DUMMY_ASK (by_col ask_price_arr) in
  let bid_mono := monotonic (fun a b => cell_leb b a) neg_infinity bid_prices in
  let ask_mono := monotonic cell_leb infinity ask_prices in
  event_type <~ get_int df "event_type" ;;
  Ok (mkSummary
        (Z.of_nat (nrows df))
        (count_true (negb <$> ok))
        (int_of_bool sizes_ok)
        (int_of_bool bid_mono)
        (int_of_bool ask_mono)
        (count_true ((fun e => e =? 7) <$> event_type))).

(** *** Spread violations *)





(** A masked price is missing exactly when the raw price is the
    sentinel. *)
Lemma replace_dummy_isna dummy values i p :
  values !! i = Some p ->
  cell_isna <$> cells (replace_dummy dummy values) !! i = Some (p =? dummy).
Proof.
  intros Hp. unfold replace_dummy. case_bool_decide as Hin; cbn [cells].
  - rewrite !list_lookup_fmap, Hp. cbn. f_equal.
    destruct (p =? dummy); [done|apply of_Z_not_nan].
  - rewrite list_lookup_fmap, Hp. cbn. f_equal.
    destruct (Z.eqb_spec p dummy) as [->|]; [|done].
    exfalso. apply Hin. by eapply list_elem_of_lookup_2.
Qed.

Lemma length_cells c : length (cells c) = col_len c.
Proof. destruct c; cbn; by rewrite length_fmap. Qed.

Lemma replace_dummy_len dummy values :
  col_len (replace_dummy dummy values) = length values.
Proof. unfold replace_dummy. case_bool_decide; cbn; by rewrite ?length_fmap. Qed.

(** *** The frames [sanity_checks] accepts *)

Definition is_int_col (df : DataFrame) (name : string) : bool :=
  match columns df !! name with
  | Some (IntCol _) => true
  | _ => false
  end.

Definition sanity_columns (num_levels : Z) : list string :=
  [ "bid_price_1"; "ask_price_1"; "event_type" ]
  ++ _level_columns "bid_size" num_levels
  ++ _level_columns "ask_size" num_levels
  ++ _level_columns "bid_price" num_levels
  ++ _level_columns "ask_price" num_levels.


Lemma get_int_ok df name :
  is_int_col df name = true -> exists l, get_int df name = Ok l.
Proof.
  unfold is_int_col, get_int, getitem.
  destruct (columns df !! name) as [[l|l]|]; cbn; try done. eauto.
Qed.

Lemma mapR_get_int_ok df names :
  Forall (fun name => is_int_col df name = true) names ->
  exists cols, mapR (get_int df) names = Ok cols.
Proof.
  induction 1 as [|name names Hname _ [cols IH]]; cbn; [eauto|].
  destruct (get_int_ok _ _ Hname) as [l ->]. rewrite IH. cbn. eauto.
Qed.

Lemma level_arrays_ok df prefix num_levels :
  Forall (fun name => is_int_col df name = true) (_level_columns prefix num_levels) ->
  exists a, _level_arrays df prefix num_levels = Ok a.
Proof.
  intros H. unfold _level_arrays.
  destruct (mapR_get_int_ok _ _ H) as [cols ->]. cbn. eauto.
Qed.


(** *** [add_halt_flags] on the store *)

(** [(df["event_type"] == 7).astype("int8")] *)
Definition halt_flags (event_type : list Z) : list Z :=
  (fun e => if e =? 7 then 1 else 0) <$> event_type.

Lemma add_halt_flags_ok df s frame event_type :
  s !! df = Some frame ->
  get_int frame "event_type" = Ok event_type ->
  length event_type = nrows frame ->
  add_halt_flags df s
  = Ok (length s,
        s ++ [with_columns frame [("is_halt", IntCol (halt_flags event_type))]]).
Proof.
  intros Hdf Hev Hlen. unfold add_halt_flags, mbind, copy. rewrite Hdf.
  unfold store_getitem. rewrite lookup_app_r by lia. rewrite Nat.sub_diag.
  cbn [lookup list_lookup].
  unfold get_int in Hev. destruct (getitem frame "event_type") as [[v|v]|]; try done.
  cbn in Hev. simplify_eq.
  unfold store_setitem. rewrite lookup_app_r by lia. rewrite Nat.sub_diag.
  cbn [lookup list_lookup]. unfold setitem. cbn [col_len].
  rewrite length_fmap. destruct (decide _); [|done].
  unfold ret. by rewrite insert_fresh.
Qed.

Lemma add_halt_flags_missing df s frame :
  s !! df = Some frame ->
  columns frame !! "event_type" = None ->
  add_halt_flags df s = Raise KeyError.
Proof.
  intros Hdf Hev. unfold add_halt_flags, mbind, copy. rewrite Hdf.
  unfold store_getitem. rewrite lookup_app_r by lia. rewrite Nat.sub_diag.
  cbn [lookup list_lookup]. unfold getitem. by rewrite Hev.
Qed.

(** The number of flags set is the number of halt rows. *)
Lemma halt_flags_sum event_type :
  foldr Z.add 0 (halt_flags event_type)
  = count_true ((fun e => e =? 7) <$> event_type).
Proof.
  unfold count_true, halt_flags.
  induction event_type as [|e l IH]; [done|].
  cbn [fmap list_fmap foldr]. rewrite IH.
  destruct (e =? 7).
  - rewrite filter_cons_True by done. cbn [length]. lia.
  - rewrite filter_cons_False by done. lia.
Qed.

(** *** [sanity_checks] reads the raw columns only *)

Lemma get_int_insert_ne df name name' c :
  name <> name' ->
  get_int (mkFrame (nrows df) (<[name' := c]> (columns df))) name = get_int df name.
Proof.
  intros Hne. unfold get_int, getitem. cbn [columns].
  by rewrite lookup_insert_ne.
Qed.

Lemma mapR_ext {A B} (f g : A -> result B) l :
  Forall (fun a => f a = g a) l -> mapR f l = mapR g l.
Proof.
  induction 1 as [|a l Ha _ IH]; [done|]. cbn. by rewrite Ha, IH.
Qed.

Lemma level_arrays_insert_ne df prefix num_levels name' c :
  name' ∉ _level_columns prefix num_levels ->
  _level_arrays (mkFrame (nrows df) (<[name' := c]> (columns df))) prefix num_levels
  = _level_arrays df prefix num_levels.
Proof.
  intros Hnot. unfold _level_arrays. cbn [nrows].
  rewrite (mapR_ext _ (get_int df)); [done|].
  apply Forall_forall. intros name Hname. apply get_int_insert_ne.
  intros ->. done.
Qed.

Lemma sanity_checks_insert_ne df num_levels name' c :
  name' ∉ sanity_columns num_levels ->
  sanity_checks (mkFrame (nrows df) (<[name' := c]> (columns df))) num_levels
  = sanity_checks df num_levels.
Proof.
  unfold sanity_columns. intros Hnot.
  apply not_elem_of_app in Hnot as [Hraw Hnot].
  apply not_elem_of_app in Hnot as [Hbs Hnot].
  apply not_elem_of_app in Hnot as [Has Hnot].
  apply not_elem_of_app in Hnot as [Hbp Hap].
  rewrite !not_elem_of_cons in Hraw. destruct Hraw as (Hb & Ha & He & _).
  unfold sanity_checks.
  rewrite !get_int_insert_ne by done.
  rewrite !level_arrays_insert_ne by done. done.
Qed.

(** A level column starts with the first letter of its prefix. *)
Lemma level_column_head prefix a rest num_levels name :
  prefix = String a rest ->
  name ∈ _level_columns prefix num_levels ->
  exists rest', name = String a rest'.
Proof.
  intros -> Hin. unfold _level_columns in Hin.
  apply list_elem_of_fmap in Hin as (level & -> & _). cbn. eauto.
Qed.

Lemma is_halt_not_sanity_column num_levels : "is_halt" ∉ sanity_columns num_levels.
Proof.
  unfold sanity_columns. rewrite !not_elem_of_app, !not_elem_of_cons.
  repeat split; try discriminate; try apply not_elem_of_nil;
    intros Hin; eapply level_column_head in Hin as [rest' Heq];
    try reflexivity; discriminate.
Qed.


(** *** A missing level above a present one *)

Lemma number_eqb_infinity x :
  Float64.number x = true ->
  (x =? infinity)%float = false /\ (x =? neg_infinity)%float = false.
Proof.
  unfold Float64.number. intros H. rewrite !FloatAxioms.eqb_spec.
  change (Prim2SF infinity) with (S754_infinity false).
  change (Prim2SF neg_infinity) with (S754_infinity true).
  by destruct (Prim2SF x) as [[]|[]| |[] ? ?].
Qed.

Lemma number_leb_infinity x :
  Float64.number x = true ->
  (x <=? neg_infinity)%float = false /\ (infinity <=? x)%float = false.
Proof.
  unfold Float64.number. intros H. rewrite !FloatAxioms.leb_spec.
  change (Prim2SF infinity) with (S754_infinity false).
  change (Prim2SF neg_infinity) with (S754_infinity true).
  by destruct (Prim2SF x) as [[]|[]| |[] ? ?].
Qed.

Lemma nan_to_num_number fill x :
  Float64.number x = true -> nan_to_num fill (F64 x) = F64 x.
Proof.
  intros H. cbn. rewrite (Float64.number_not_nan _ H).
  destruct (number_eqb_infinity _ H) as [-> ->]. done.
Qed.

(** The entries of a masked column. *)
Definition masked (dummy : Z) (values : list Z) : list float :=
  (fun p => if p =? dummy then nan else of_Z p) <$> values.

Lemma to_floats_replace_dummy dummy values :
  to_floats (replace_dummy dummy values) = masked dummy values.
Proof.
  unfold replace_dummy, masked. case_bool_decide as Hin; cbn; [done|].
  apply list_fmap_ext. intros i p Hp.
  destruct (Z.eqb_spec p dummy) as [->|]; [|done].
  exfalso. apply Hin. by eapply list_elem_of_lookup_2.
Qed.

(** As soon as one level holds the sentinel the whole array is
    [float64]. *)
Lemma replaced_values_float dummy cols c :
  c ∈ cols -> dummy ∈ c ->
  replaced_values dummy cols = (fun c => FloatCol (masked dummy c)) <$> cols.
Proof.
  intros Hc Hd. unfold replaced_values.
  destruct (forallb _ _) eqn:Hall.
  - exfalso. rewrite forallb_forall in Hall.
    assert (replace_dummy dummy c = FloatCol (masked dummy c)) as Hfloat.
    { unfold replace_dummy. by rewrite bool_decide_eq_true_2. }
    specialize (Hall (FloatCol (masked dummy c))).
    assert (false = true); [|done]. apply Hall.
    apply list_elem_of_In, list_elem_of_fmap. exists c. by rewrite Hfloat.
  - rewrite <- list_fmap_compose. apply list_fmap_ext. intros i x _. cbn.
    by rewrite to_floats_replace_dummy.
Qed.

Lemma adjacent_all_false rel (cols : list (list cell)) l c1 c2 i a b :
  cols !! l = Some c1 -> cols !! S l = Some c2 ->
  c1 !! i = Some a -> c2 !! i = Some b -> rel a b = false ->
  adjacent_all rel cols = false.
Proof.
  revert l. induction cols as [|c cols IH]; intros l H1 H2 Ha Hb Hrel; [done|].
  destruct cols as [|c' cols]; [done|].
  cbn [adjacent_all]. destruct l as [|l]; cbn in H1, H2.
  - simplify_eq. apply andb_false_iff. left.
    apply not_true_iff_false. intros Hall. rewrite forallb_forall in Hall.
    specialize (Hall (rel a b)). rewrite Hrel in Hall.
    assert (false = true); [|done]. apply Hall.
    apply list_elem_of_In. apply (list_elem_of_lookup_2 _ i).
    rewrite lookup_zip_with, Ha. cbn. rewrite Hb. cbn. by rewrite Hrel.
  - apply andb_false_iff. right. by apply (IH l).
Qed.

Lemma mapR_lookup {A B} (f : A -> result B) l bs j a :
  mapR f l = Ok bs -> l !! j = Some a ->
  exists b, f a = Ok b /\ bs !! j = Some b.
Proof.
  revert bs j. induction l as [|x l IH]; intros bs j; cbn; [done|].
  destruct (f x) as [y|] eqn:Hy; [|done]. cbn [bind].
  destruct (mapR f l) as [ys|]; [|done]. cbn [bind].
  intros ? Hj. simplify_eq. destruct j as [|j]; cbn in Hj.
  - simplify_eq. by exists y.
  - destruct (IH ys j eq_refl Hj) as (b & Hb & Hl). by exists b.
Qed.

Lemma level_columns_lookup prefix num_levels j :
  Z.of_nat j < num_levels ->
  _level_columns prefix num_levels !! j
  = Some (prefix +:+ "_" +:+ pretty (1 + Z.of_nat j)).
Proof.
  intros Hj. unfold _level_columns.
  rewrite list_lookup_fmap, lookup_seqZ_lt by lia. done.
Qed.

(** The column of level [j + 1] in a level array. *)
Lemma level_arrays_lookup df prefix num_levels a j :
  _level_arrays df prefix num_levels = Ok a ->
  Z.of_nat j < num_levels ->
  exists c, get_int df (prefix +:+ "_" +:+ pretty (1 + Z.of_nat j)) = Ok c /\
            by_col a !! j = Some c.
Proof.
  unfold _level_arrays. intros Ha Hj.
  destruct (mapR _ _) as [cols|] eqn:Hcols; [|done]. cbn in Ha. simplify_eq.
  cbn [by_col]. eapply mapR_lookup; [done|]. by apply level_columns_lookup.
Qed.

Lemma monotonic_gap rel fill dummy cols l c1 c2 i y :
  cols !! l = Some c1 -> cols !! S l = Some c2 ->
  c1 !! i = Some dummy -> c2 !! i = Some y -> y <> dummy ->
  (forall x, Float64.number x = true -> rel (F64 fill) (F64 x) = false) ->
  monotonic rel fill (replaced_values dummy cols) = false.
Proof.
  intros H1 H2 Hd Hy Hne Hrel.
  rewrite (replaced_values_float dummy cols c1).
  2:{ by eapply list_elem_of_lookup_2. }
  2:{ by eapply list_elem_of_lookup_2. }
  unfold monotonic.
  eapply (adjacent_all_false _ _ l _ _ i (F64 fill) (F64 (of_Z y))).
  - rewrite !list_lookup_fmap, H1. reflexivity.
  - rewrite !list_lookup_fmap, H2. reflexivity.
  - cbn [cells]. unfold masked. rewrite !list_lookup_fmap, Hd. cbn.
    rewrite Z.eqb_refl. cbn. reflexivity.
  - cbn [cells]. unfold masked. rewrite !list_lookup_fmap, Hy. cbn.
    destruct (Z.eqb_spec y dummy); [done|].
    f_equal. apply nan_to_num_number, Float64.of_Z_number.
  - apply Hrel, Float64.of_Z_number.
Qed.

Lemma adjacent_all_short rel (cols : list (list cell)) :
  (length cols <= 1)%nat -> adjacent_all rel cols = true.
Proof. destruct cols as [|c [|c' cols]]; cbn; [done|done|lia]. Qed.

Lemma length_replaced_values dummy cols :
  length (replaced_values dummy cols) = length cols.
Proof.
  unfold replaced_values. destruct (forallb _ _); by rewrite ?length_fmap.
Qed.

(** *** Spread violations on the raw prices *)

(** Both best prices present and [best_bid >= best_ask], on the raw
    [int64] prices. *)
Definition crossed (row : Z * Z) : Prop :=
  row.1 <> DUMMY_BID /\ row.2 <> DUMMY_ASK /\ row.2 <= row.1.

#[global] Instance crossed_dec row : Decision (crossed row).
Proof. unfold crossed. apply _. Defined.








End CleanValidate.

(** ** [analysis/load_lobster.py]

    [pd.read_csv] is file input: the two sources enter as the frames it
    returns (all of the file for [load_full], one frame per chunk for
    [iter_load]). *)

Module LoadLobster.

(** Rounding a float to the nearest integer, ties to even ([np.round]),
    then numpy's cast to [int64]; what is not a number of the [int64]
    range becomes [int64_min], as the cast does on x86-64.  The cast is
    reached for finite values only: pandas looks for NaN and infinities
    first ([astype_int64] below). *)
Definition round_half_even (m : Z) (e : Z) : Z :=
  if 0 <=? e then m * 2 ^ e
  else
    let d := 2 ^ (- e) in
    let q := m / d in
    let r := m mod d in
    if 2 * r <? d then q
    else if d <? 2 * r then q + 1
    else if Z.even q then q else q + 1.

Definition round_to_int64 (f : float) : Z :=
  match Prim2SF f with
  | S754_zero _ => 0
  | S754_finite s m e =>
      let v := round_half_even (Z.pos m) e in
      let v := if s then - v else v in
      if (int64_min <=? v) && (v <=? int64_max) then v else int64_min
  | _ => int64_min
  end.

(** The values of [np.round(df["time_sec"] * 1e9).astype("int64")] when
    the cast is reached. *)
Definition time_ns_of (time_sec : list float) : list Z :=
  (fun s => round_to_int64 (s * 1e9)%float) <$> time_sec.

Definition is_finite (f : float) : bool :=
  match Prim2SF f with
  | S754_zero _ | S754_finite _ _ _ => true
  | _ => false
  end.

(** No product [time_sec * 1e9] is NaN or an infinity. *)
Definition finite_times (time_sec : list float) : bool :=
  forallb (fun s => is_finite (s * 1e9)%float) time_sec.

(** [np.round(df["time_sec"] * 1e9).astype("int64")]: the [astype] of
    pandas raises IntCastingNaNError, a ValueError, when a value of the
    column is NaN or an infinity (rounding keeps both), and casts
    otherwise. *)
Definition round_astype_int64 (time_sec : list float) : result (list Z) :=
  if finite_times time_sec then Ok (time_ns_of time_sec) else Raise ValueError.

(** [pd.concat([message, orderbook], axis=1)] for two frames with the same
    index and disjoint column names. *)
Definition concat_columns (message orderbook : DataFrame) : DataFrame :=
  mkFrame (nrows message) (columns message ∪ columns orderbook).

Definition with_time_ns (df : DataFrame) : result DataFrame :=
  time_sec <~ get_float df "time_sec" ;;
  time_ns <~ round_astype_int64 time_sec ;;
  setitem df "time_ns" (IntCol time_ns).

Definition load_full (message orderbook : DataFrame) : result DataFrame :=
  if decide (nrows message <> nrows orderbook) then Raise ValueError
  else with_time_ns (concat_columns message orderbook).

(** The rows [start .. start + len - 1] of a frame. *)
Definition col_slice (start len : nat) (c : column) : column :=
  match c with
  | IntCol l => IntCol (take len (drop start l))
  | FloatCol l => FloatCol (take len (drop start l))
  end.

Definition slice_rows (start len : nat) (df : DataFrame) : DataFrame :=
  mkFrame (Nat.min len (nrows df - start)) (col_slice start len <$> columns df).

(** The frames a reader with [chunksize=chunk_rows] yields: full chunks,
    then what is left. *)
Definition chunks (chunk_rows : nat) (df : DataFrame) : list DataFrame :=
  (fun k => slice_rows (k * chunk_rows) chunk_rows df)
    <$> seq 0 ((nrows df + chunk_rows - 1) / chunk_rows)%nat.

(** What a generator did when it was run to its end: the frames it
    yielded and the exception that ended it, if one did. *)
Definition generated : Type := (list DataFrame * option exn)%type.

(** The loop over [zip(message_iter, orderbook_iter)]: it ends without
    an exception as soon as one of the two readers is exhausted. *)
Fixpoint iter_pairs (message_chunks orderbook_chunks : list DataFrame) : generated :=
  match message_chunks, orderbook_chunks with
  | message_chunk :: ms, orderbook_chunk :: os =>
      if decide (nrows message_chunk <> nrows orderbook_chunk)
      then ([], Some ValueError)
      else
        match with_time_ns (concat_columns message_chunk orderbook_chunk) with
        | Ok df => let '(rest, e) := iter_pairs ms os in (df :: rest, e)
        | Raise e => ([], Some e)
        end
  | _, _ => ([], None)
  end.

Definition iter_load (message orderbook : DataFrame) (chunk_rows : Z) : generated :=
  if chunk_rows <? 1 then ([], Some ValueError)
  else iter_pairs (chunks (Z.to_nat chunk_rows) message)
                  (chunks (Z.to_nat chunk_rows) orderbook).

(** [load_lobster]: the chunked reader when [chunk_rows] is given and not
    zero, the batch reader otherwise.  The generator is only created
    here; it runs when the caller iterates. *)
Definition load_lobster (message orderbook : DataFrame) (chunk_rows : option Z)
  : result (option DataFrame * option generated) :=
  match chunk_rows with
  | Some c =>
      if c =? 0
      then df <~ load_full message orderbook ;; Ok (Some df, None)
      else Ok (None, Some (iter_load message orderbook c))
  | None => df <~ load_full message orderbook ;; Ok (Some df, None)
  end.

(** [load_full] refuses two sources of different length. *)
Lemma load_full_mismatch message orderbook :
  nrows message <> nrows orderbook ->
  load_full message orderbook = Raise ValueError.
Proof. intros H. unfold load_full. by destruct (decide _). Qed.



(** *** Aligned sources *)

Lemma time_ns_of_slice start len time_sec :
  time_ns_of (take len (drop start time_sec))
  = take len (drop start (time_ns_of time_sec)).
Proof. unfold time_ns_of. by rewrite fmap_take, fmap_drop. Qed.

Lemma length_time_ns_of time_sec : length (time_ns_of time_sec) = length time_sec.
Proof. unfold time_ns_of. by rewrite length_fmap. Qed.

(** The frame that [load_full] builds from two sources. *)
Definition loaded (message orderbook : DataFrame) (time_sec : list float) : DataFrame :=
  mkFrame (nrows message)
    (<["time_ns" := IntCol (time_ns_of time_sec)]>
       (columns message ∪ columns orderbook)).

Lemma with_time_ns_concat message orderbook time_sec :
  columns message !! "time_sec" = Some (FloatCol time_sec) ->
  length time_sec = nrows message ->
  finite_times time_sec = true ->
  with_time_ns (concat_columns message orderbook)
  = Ok (loaded message orderbook time_sec).
Proof.
  intros Hts Hlen Hfin. unfold with_time_ns, get_float, getitem, concat_columns.
  cbn [columns]. rewrite (lookup_union_Some_l _ _ _ _ Hts). cbn.
  unfold round_astype_int64. rewrite Hfin. cbn [bind].
  unfold setitem. cbn [nrows columns col_len]. rewrite length_time_ns_of.
  by destruct (decide _).
Qed.

(** A column with a NaN or an infinite product is refused. *)
Lemma with_time_ns_not_finite message orderbook time_sec :
  columns message !! "time_sec" = Some (FloatCol time_sec) ->
  finite_times time_sec = false ->
  with_time_ns (concat_columns message orderbook) = Raise ValueError.
Proof.
  intros Hts Hfin. unfold with_time_ns, get_float, getitem, concat_columns.
  cbn [columns]. rewrite (lookup_union_Some_l _ _ _ _ Hts). cbn.
  unfold round_astype_int64. by rewrite Hfin.
Qed.

Lemma load_full_ok message orderbook time_sec :
  nrows message = nrows orderbook ->
  columns message !! "time_sec" = Some (FloatCol time_sec) ->
  length time_sec = nrows message ->
  finite_times time_sec = true ->
  load_full message orderbook = Ok (loaded message orderbook time_sec).
Proof.
  intros Hn Hts Hlen Hfin. unfold load_full.
  destruct (decide _); [done|]. by apply with_time_ns_concat.
Qed.

Lemma finite_times_slice start len time_sec :
  finite_times time_sec = true ->
  finite_times (take len (drop start time_sec)) = true.
Proof.
  unfold finite_times. rewrite !forallb_forall. intros H s Hs. apply H.
  apply list_elem_of_In in Hs. apply list_elem_of_In.
  by apply (subseteq_drop start), (subseteq_take len).
Qed.



(** A pair of aligned chunks gives the rows of the loaded frame that the
    chunk covers. *)
Lemma with_time_ns_slices message orderbook time_sec start len :
  columns message !! "time_sec" = Some (FloatCol time_sec) ->
  length time_sec = nrows message ->
  finite_times time_sec = true ->
  with_time_ns (concat_columns (slice_rows start len message)
                               (slice_rows start len orderbook))
  = Ok (slice_rows start len (loaded message orderbook time_sec)).
Proof.
  intros Hts Hlen Hfin.
  rewrite (with_time_ns_concat _ _ (take len (drop start time_sec))).
  - unfold loaded, slice_rows. cbn [nrows columns]. f_equal. f_equal.
    rewrite fmap_insert, map_fmap_union. cbn [col_slice].
    by rewrite time_ns_of_slice.
  - unfold slice_rows. cbn [columns]. rewrite lookup_fmap, Hts. done.
  - unfold slice_rows. cbn [nrows]. rewrite length_take, length_drop. lia.
  - by apply finite_times_slice.
Qed.

Lemma iter_pairs_aligned message orderbook time_sec chunk_rows ks :
  nrows message = nrows orderbook ->
  columns message !! "time_sec" = Some (FloatCol time_sec) ->
  length time_sec = nrows message ->
  finite_times time_sec = true ->
  iter_pairs ((fun k => slice_rows (k * chunk_rows) chunk_rows message) <$> ks)
             ((fun k => slice_rows (k * chunk_rows) chunk_rows orderbook) <$> ks)
  = ((fun k => slice_rows (k * chunk_rows) chunk_rows
                 (loaded message orderbook time_sec)) <$> ks, None).
Proof.
  intros Hn Hts Hlen Hfin. induction ks as [|k ks IH]; [done|].
  cbn [fmap list_fmap iter_pairs].
  destruct (decide _) as [Hne|_].
  { exfalso. apply Hne. unfold slice_rows. cbn [nrows]. by rewrite Hn. }
  rewrite (with_time_ns_slices _ _ time_sec) by done.
  cbn [fmap list_fmap] in IH. by rewrite IH.
Qed.

(** On aligned sources the streaming loader yields the chunks of the
    frame that the batch loader returns. *)
Lemma iter_load_aligned message orderbook time_sec chunk_rows :
  1 <= chunk_rows ->
  nrows message = nrows orderbook ->
  columns message !! "time_sec" = Some (FloatCol time_sec) ->
  length time_sec = nrows message ->
  finite_times time_sec = true ->
  iter_load message orderbook chunk_rows
  = (chunks (Z.to_nat chunk_rows) (loaded message orderbook time_sec), None).
Proof.
  intros Hc Hn Hts Hlen Hfin. unfold iter_load.
  destruct (Z.ltb_spec chunk_rows 1); [lia|].
  unfold chunks. rewrite <- Hn. cbn [loaded nrows].
  by apply iter_pairs_aligned.
Qed.

(** *** A timestamp that is not finite

    Both loaders refuse it: the batch loader at once, the streaming
    loader when it reaches the chunk that holds it. *)

Lemma forallb_false_lookup {A} (f : A -> bool) (l : list A) :
  forallb f l = false -> exists i x, l !! i = Some x /\ f x = false.
Proof.
  induction l as [|a l IH]; cbn; [done|].
  destruct (f a) eqn:Ha; cbn.
  - intros H. destruct (IH H) as (i & x & Hi & Hx). by exists (S i), x.
  - intros _. by exists 0%nat, a.
Qed.

Lemma forallb_lookup {A} (f : A -> bool) (l : list A) i x :
  forallb f l = true -> l !! i = Some x -> f x = true.
Proof.
  rewrite forallb_forall. intros H Hi. apply H, list_elem_of_In.
  by eapply list_elem_of_lookup_2.
Qed.

Lemma load_full_not_finite message orderbook time_sec :
  nrows message = nrows orderbook ->
  columns message !! "time_sec" = Some (FloatCol time_sec) ->
  finite_times time_sec = false ->
  load_full message orderbook = Raise ValueError.
Proof.
  intros Hn Hts Hfin. unfold load_full.
  destruct (decide _); [done|]. by apply (with_time_ns_not_finite _ _ time_sec).
Qed.

Lemma iter_pairs_not_finite message orderbook time_sec c ks :
  nrows message = nrows orderbook ->
  columns message !! "time_sec" = Some (FloatCol time_sec) ->
  length time_sec = nrows message ->
  (exists k, k ∈ ks /\ finite_times (take c (drop (k * c) time_sec)) = false) ->
  (iter_pairs ((fun k => slice_rows (k * c) c message) <$> ks)
              ((fun k => slice_rows (k * c) c orderbook) <$> ks)).2
  = Some ValueError.
Proof.
  intros Hn Hts Hlen. induction ks as [|k ks IH]; intros (k' & Hin & Hbad).
  - by apply elem_of_nil in Hin.
  - rewrite !fmap_cons. cbn [iter_pairs]. destruct (decide _) as [Hne|_]; [done|].
    assert (columns (slice_rows (k * c) c message) !! "time_sec"
            = Some (FloatCol (take c (drop (k * c) time_sec)))) as Hslice.
    { unfold slice_rows. cbn [columns]. by rewrite lookup_fmap, Hts. }
    destruct (finite_times (take c (drop (k * c) time_sec))) eqn:Hk.
    + rewrite (with_time_ns_concat _ _ _ Hslice); [| |done].
      2:{ unfold slice_rows. cbn [nrows]. rewrite length_take, length_drop. lia. }
      assert (exists k, k ∈ ks /\ finite_times (take c (drop (k * c) time_sec)) = false)
        as Hlater.
      { exists k'. split; [|done].
        apply elem_of_cons in Hin as [->|Hin]; [congruence|done]. }
      specialize (IH Hlater).
      destruct (iter_pairs _ _) as [rest e]. exact IH.
    + by rewrite (with_time_ns_not_finite _ _ _ Hslice).
Qed.

Lemma iter_load_not_finite message orderbook time_sec chunk_rows :
  1 <= chunk_rows ->
  nrows message = nrows orderbook ->
  columns message !! "time_sec" = Some (FloatCol time_sec) ->
  length time_sec = nrows message ->
  finite_times time_sec = false ->
  (iter_load message orderbook chunk_rows).2 = Some ValueError.
Proof.
  intros Hc Hn Hts Hlen Hfin. unfold iter_load.
  destruct (Z.ltb_spec chunk_rows 1); [lia|]. unfold chunks. rewrite <- Hn.
  set (c := Z.to_nat chunk_rows). assert (0 < c)%nat as Hpos by lia.
  apply (iter_pairs_not_finite _ _ time_sec); [done..|].
  destruct (forallb_false_lookup _ _ Hfin) as (i & x & Hi & Hx).
  pose proof (lookup_lt_Some _ _ _ Hi) as Hlt.
  pose proof (Nat.div_mod_eq i c) as Hdiv.
  pose proof (Nat.mod_upper_bound i c ltac:(lia)) as Hmod.
  exists (i / c)%nat. split.
  - apply elem_of_seq. split; [lia|]. cbn.
    apply Nat.div_le_lower_bound; [lia|]. nia.
  - destruct (finite_times (take c (drop (i / c * c) time_sec))) eqn:Hk; [|done].
    rewrite <- Hx. symmetry.
    apply (forallb_lookup _ _ (i mod c) x Hk).
    rewrite lookup_take_lt by done. rewrite lookup_drop.
    replace (i / c * c + i mod c)%nat with i by lia. done.
Qed.

(** *** Sources of different lengths *)

Lemma ceil_div_lt k n c : (0 < c)%nat -> (k < (n + c - 1) / c)%nat <-> (k * c < n)%nat.
Proof.
  intros Hc. split.
  - intros Hk. pose proof (Nat.Div0.mul_div_le (n + c - 1) c). nia.
  - intros Hk. apply Nat.div_le_lower_bound; [lia|]. nia.
Qed.

Lemma seq_ceil_cons k n c :
  (0 < c)%nat -> (k * c < n)%nat ->
  seq k ((n + c - 1) / c - k) = k :: seq (S k) ((n + c - 1) / c - S k).
Proof.
  intros Hc Hk. apply (ceil_div_lt k n c Hc) in Hk.
  replace ((n + c - 1) / c - k)%nat with (S ((n + c - 1) / c - S k)) by lia.
  done.
Qed.


Lemma iter_pairs_nil_l os : iter_pairs [] os = ([], None).
Proof. done. Qed.


(** *** The columns the readers name *)

Definition MESSAGE_COLUMNS : list string :=
  [ "time_sec"; "event_type"; "order_id"; "size"; "price"; "direction" ].

Definition _orderbook_columns (num_levels : Z) : list string :=
  seqZ 1 num_levels ≫= (fun level : Z =>
    [ "ask_price_" +:+ pretty level; "ask_size_" +:+ pretty level;
      "bid_price_" +:+ pretty level; "bid_size_" +:+ pretty level ]).

(** The order book readers name the level columns that the validator and
    the feature engine ask for, and no other. *)
Lemma orderbook_columns_levels num_levels name :
  name ∈ _orderbook_columns num_levels <->
  name ∈ _level_columns "ask_price" num_levels \/
  name ∈ _level_columns "ask_size" num_levels \/
  name ∈ _level_columns "bid_price" num_levels \/
  name ∈ _level_columns "bid_size" num_levels.
Proof.
  unfold _orderbook_columns, _level_columns.
  rewrite list_elem_of_bind, !list_elem_of_fmap. split.
  - intros (level & Hin & Hlevel).
    rewrite !elem_of_cons in Hin. destruct Hin as [->|[->|[->|[->|Hin]]]].
    + left. by exists level.
    + right. left. by exists level.
    + right. right. left. by exists level.
    + right. right. right. by exists level.
    + by apply elem_of_nil in Hin.
  - intros [(level & -> & Hl)|[(level & -> & Hl)|[(level & -> & Hl)|(level & -> & Hl)]]];
      exists level; (split; [|done]); rewrite !elem_of_cons; auto.
Qed.

End LoadLobster.

(** ** [analysis/run.py]: [_process_pair] in memory

    The two sources enter as the frames [pd.read_csv] returns and the size
    test on the message file as a boolean.  Writing the summary, the
    exports, the plots and the report is file output and is left out: the
    run returns the values that are written. *)

Module Run.

Import LoadLobster CleanValidate Features Labels.

(** The fields of [config.Config] that the run reads. *)
Record Config : Type := mkConfig {
  num_levels : Z;
  topk : Z;
  horizons_events : list Z;
  chunk_rows : Z
}.

(** The dtype of every column. *)
Definition is_int (c : column) : bool :=
  match c with
  | IntCol _ => true
  | FloatCol _ => false
  end.

Definition dtypes (df : DataFrame) : gmap string bool := is_int <$> columns df.

(** One column under another; an [int64] column under a [float64] one
    is promoted. *)
Definition append_column (a b : column) : column :=
  match a, b with
  | IntCol x, IntCol y => IntCol (x ++ y)
  | _, _ => FloatCol (to_floats a ++ to_floats b)
  end.

(** [pd.concat(frames, ignore_index=True)] for frames with the same
    columns and dtypes, which the chunks of one reader are; other frames
    are outside this embedding.  An empty list is refused by pandas. *)
Definition stack (a b : DataFrame) : result DataFrame :=
  if decide (dtypes a = dtypes b)
  then Ok (mkFrame (nrows a + nrows b)
             (map_zip_with append_column (columns a) (columns b)))
  else Raise UnsupportedDtype.

Fixpoint stack_all (acc : DataFrame) (frames : list DataFrame) : result DataFrame :=
  match frames with
  | [] => Ok acc
  | f :: rest => acc' <~ stack acc f ;; stack_all acc' rest
  end.

Definition concat_rows (frames : list DataFrame) : result DataFrame :=
  match frames with
  | [] => Raise ValueError
  | f :: rest => stack_all f rest
  end.

(** [labeled[cols]] *)
Definition select (df : DataFrame) (cols : list string) : result DataFrame :=
  cs <~ mapR (getitem df) cols ;;
  Ok (mkFrame (nrows df) (list_to_map (zip cols cs))).

(** The columns of the feature export of one horizon. *)
Definition export_columns (horizon : Z) : list string :=
  [ "time_ns"; "event_type"; "order_id"; "size"; "price"; "direction";
    "best_bid"; "best_ask"; "mid"; "spread"; "is_halt"; "level1_imbalance";
    "topk_imbalance"; "depth_topk_bid"; "depth_topk_ask"; "depth_total_topk";
    "microprice"; "event_rate"; "order_flow_imbalance"; "realized_volatility";
    raw_move_name horizon; label_name horizon ].

(** A new frame object. *)
Definition alloc (df : DataFrame) : M loc := fun s => Ok (length s, s ++ [df]).

(** Running the generator to its end, as the list comprehension does. *)
Definition collect (g : generated) : result (list DataFrame) :=
  match g.2 with
  | Some e => Raise e
  | None => Ok g.1
  end.

(** The frame the run works on: the chunks in one frame when the
    message file is large, the batch frame otherwise.  The loader returns
    one of the two, so the last case is not reached. *)
Definition load_frame (message orderbook : DataFrame) (large : bool) (cfg : Config)
  : result DataFrame :=
  let chunk_rows := if large then Some (chunk_rows cfg) else None in
  loaded <~ load_lobster message orderbook chunk_rows ;;
  match loaded with
  | (_, Some iterator) => frames <~ collect iterator ;; concat_rows frames
  | (Some full_df, None) => Ok full_df
  | (None, None) => Raise UnsupportedDtype
  end.

(** What [_process_pair] computes: the summary of the validator, the
    labelled frame and the feature export of every horizon. *)
Definition _process_pair (message orderbook : DataFrame) (large : bool) (cfg : Config)
  : M (Summary * loc * list DataFrame) :=
  df <- lift (load_frame message orderbook large cfg) ;;;
  df <- alloc df ;;;
  df <- add_halt_flags df ;;;
  flagged <- deref df ;;;
  sanity <- lift (sanity_checks flagged (num_levels cfg)) ;;;
  features <- compute_features df (num_levels cfg) (topk cfg) ;;;
  labeled <- generate_labels features (horizons_events cfg) ;;;
  labeled_frame <- deref labeled ;;;
  exports <- lift (mapR (fun horizon => select labeled_frame (export_columns horizon))
                     (horizons_events cfg)) ;;;
  ret (sanity, labeled, exports).

(** *** The chunks of a frame, put together again *)

Lemma dtypes_slice_rows start len df : dtypes (slice_rows start len df) = dtypes df.
Proof.
  unfold dtypes, slice_rows. cbn [columns]. rewrite <- map_fmap_compose.
  apply map_fmap_ext. intros name c _. by destruct c.
Qed.

Lemma append_column_slices k len c :
  append_column (col_slice 0 k c) (col_slice k len c) = col_slice 0 (k + len) c.
Proof.
  destruct c as [l|l]; cbn; rewrite !drop_0; by rewrite take_take_drop.
Qed.

Lemma stack_slices k len df :
  stack (slice_rows 0 k df) (slice_rows k len df) = Ok (slice_rows 0 (k + len) df).
Proof.
  unfold stack. rewrite !dtypes_slice_rows. destruct (decide _); [|done].
  unfold slice_rows. cbn [nrows columns]. f_equal. f_equal; [lia|].
  rewrite map_zip_with_fmap, map_zip_with_diag.
  apply map_fmap_ext. intros name c _. apply append_column_slices.
Qed.

Lemma stack_all_chunks c df k cnt :
  stack_all (slice_rows 0 (k * c) df)
    ((fun j => slice_rows (j * c) c df) <$> seq k cnt)
  = Ok (slice_rows 0 ((k + cnt) * c) df).
Proof.
  revert k. induction cnt as [|cnt IH]; intros k; cbn [seq fmap list_fmap stack_all].
  - by rewrite Nat.add_0_r.
  - rewrite stack_slices. cbn [bind].
    replace (k * c + c)%nat with (S k * c)%nat by lia.
    rewrite IH. do 2 f_equal. lia.
Qed.

Lemma slice_rows_all len df :
  wf_frame df -> (nrows df <= len)%nat -> slice_rows 0 len df = df.
Proof.
  intros Hwf Hlen. destruct df as [n cols]. unfold slice_rows. cbn [nrows columns] in *.
  f_equal; [lia|].
  rewrite <- (map_fmap_id cols) at 2. apply map_fmap_ext. intros name c Hc.
  specialize (Hwf name c Hc). cbn in Hwf.
  destruct c as [l|l]; cbn in *; rewrite drop_0, take_ge by lia; done.
Qed.

(** The chunks of a frame that has rows make up the frame. *)
Lemma concat_rows_chunks c df :
  wf_frame df -> (0 < c)%nat -> (0 < nrows df)%nat ->
  concat_rows (chunks c df) = Ok df.
Proof.
  intros Hwf Hc Hn. unfold chunks.
  pose proof (seq_ceil_cons 0 (nrows df) c Hc ltac:(lia)) as Hseq.
  rewrite Nat.sub_0_r in Hseq. rewrite Hseq. cbn [fmap list_fmap concat_rows].
  replace (0 * c)%nat with 0%nat by lia.
  replace c with (1 * c)%nat at 1 by lia.
  replace (slice_rows 0 (1 * c) df) with (slice_rows 0 (1 * c)%nat df) by done.
  rewrite (stack_all_chunks c df 1). f_equal.
  apply slice_rows_all; [done|].
  set (C := ((nrows df + c - 1) / c)%nat).
  assert (~ (C < C)%nat) as H by lia. unfold C at 2 in H.
  rewrite ceil_div_lt in H by done.
  assert (1 <= C)%nat by (apply (ceil_div_lt 0); lia). nia.
Qed.

Import EventRate.

(** *** The frames [compute_features] accepts *)

(** The raw columns that the feature engine reads. *)
Definition feature_columns (num_levels : Z) : list string :=
  [ "time_ns"; "event_type"; "direction"; "size" ]
  ++ _level_columns "bid_price" num_levels
  ++ _level_columns "ask_price" num_levels
  ++ _level_columns "bid_size" num_levels
  ++ _level_columns "ask_size" num_levels.

Definition feature_schema (df : DataFrame) (num_levels : Z) : Prop :=
  Forall (fun name => CleanValidate.is_int_col df name = true)
    (feature_columns num_levels).

Lemma window_seconds_default :
  (window_seconds window_ns_default =? 0)%float = false.
Proof. reflexivity. Qed.

Lemma derive_ok df num_levels topk :
  wf_frame df -> 0 < num_levels -> feature_schema df num_levels ->
  (forall time_ns, get_int df "time_ns" = Ok time_ns ->
     no_underflow window_ns_default time_ns) ->
  exists cols,
    derive df num_levels topk = Ok cols /\
    Forall (fun nc : string * column => col_len nc.2 = nrows df) cols.
Proof.
  intros Hwf Hn Hschema Htime. unfold feature_schema, feature_columns in Hschema.
  apply Forall_cons in Hschema as [Ht H]. apply Forall_cons in H as [He H].
  apply Forall_cons in H as [Hd H]. apply Forall_cons in H as [Hs H].
  apply Forall_app in H as [Hbp H]. apply Forall_app in H as [Hap H].
  apply Forall_app in H as [Hbs Has].
  destruct (CleanValidate.get_int_ok _ _ Ht) as [time_ns Htime_ns].
  destruct (CleanValidate.get_int_ok _ _ He) as [event_type Hevent].
  destruct (CleanValidate.get_int_ok _ _ Hd) as [direction Hdir].
  destruct (CleanValidate.get_int_ok _ _ Hs) as [size Hsize].
  destruct (CleanValidate.level_arrays_ok _ _ _ Hbp) as [bp Hbp'].
  destruct (CleanValidate.level_arrays_ok _ _ _ Hap) as [ap Hap'].
  destruct (CleanValidate.level_arrays_ok _ _ _ Hbs) as [bs Hbs'].
  destruct (CleanValidate.level_arrays_ok _ _ _ Has) as [as_ Has'].
  destruct (level_arrays_column0 _ _ _ _ Hn Hbp') as [bp0 Hbp0].
  destruct (level_arrays_column0 _ _ _ _ Hn Hap') as [ap0 Hap0].
  destruct (level_arrays_column0 _ _ _ _ Hn Hbs') as [bs0 Hbs0].
  destruct (level_arrays_column0 _ _ _ _ Hn Has') as [as0 Has0].
  destruct (rolling_event_rate_counts time_ns window_ns_default)
    as (counts & Hrate & Hcounts & _);
    [unfold window_ns_default, int64_max; lia|by apply Htime|apply window_seconds_default|].
  pose proof (get_int_length _ _ _ Hwf (level_arrays_first _ _ _ _ _ Hbp' Hbp0)) as Lbp.
  pose proof (get_int_length _ _ _ Hwf (level_arrays_first _ _ _ _ _ Hap' Hap0)) as Lap.
  pose proof (get_int_length _ _ _ Hwf (level_arrays_first _ _ _ _ _ Hbs' Hbs0)) as Lbs.
  pose proof (get_int_length _ _ _ Hwf (level_arrays_first _ _ _ _ _ Has' Has0)) as Las.
  pose proof (get_int_length _ _ _ Hwf Htime_ns) as Lt.
  pose proof (get_int_length _ _ _ Hwf Hevent) as Le.
  pose proof (get_int_length _ _ _ Hwf Hdir) as Ld.
  pose proof (get_int_length _ _ _ Hwf Hsize) as Ls.
  pose proof (level_arrays_lengths _ _ _ _ Hwf Hbs') as Abs.
  pose proof (level_arrays_lengths _ _ _ _ Hwf Has') as Aas.
  pose proof (level_arrays_shape _ _ _ _ Hbs') as Sbs.
  pose proof (level_arrays_shape _ _ _ _ Has') as Sas.
  unfold derive.
  rewrite Hbp', Hap', Hbs', Has'. cbn [bind].
  rewrite (column0_mask _ _ _ Hbp0), (column0_mask _ _ _ Hap0), Hbs0, Has0. cbn [bind].
  rewrite Htime_ns. cbn [bind]. rewrite Hrate. cbn [bind].
  rewrite Hevent, Hdir, Hsize. cbn [bind].
  eexists. split; [reflexivity|].
  destruct bs as [nbs cbs], as_ as [nas cas]. cbn [shape0 by_col] in *. subst nbs nas.
  repeat (apply Forall_cons; split); [..|apply Forall_nil]; cbn [snd col_len];
    unfold truediv64, sub64, add64, mul64, _rolling_sum, fillna;
    rewrite ?length_rolling_std, ?length_rolling, ?length_fmap, ?length_zip_with,
      ?length_pct_change, ?length_fmap, ?length_zip_with, ?length_topk_depth,
      ?length_fmap by done;
    lia.
Qed.

(** *** The frames the readers give

    [read_csv] is called with the names and the dtypes of the columns, so
    a source frame has exactly these columns. *)

Definition message_frame (message : DataFrame) (time_sec : list float) : Prop :=
  wf_frame message /\
  dom (columns message) = list_to_set MESSAGE_COLUMNS /\
  columns message !! "time_sec" = Some (FloatCol time_sec) /\
  Forall (fun name => is_int_col message name = true)
    [ "event_type"; "order_id"; "size"; "price"; "direction" ].

Definition orderbook_frame (orderbook : DataFrame) (num_levels : Z) : Prop :=
  wf_frame orderbook /\
  dom (columns orderbook) = list_to_set (_orderbook_columns num_levels) /\
  Forall (fun name => is_int_col orderbook name = true) (_orderbook_columns num_levels).

(** In both modes the run works on the frame of the batch loader. *)
Lemma load_frame_loaded message orderbook time_sec large cfg :
  wf_frame message -> wf_frame orderbook ->
  nrows message = nrows orderbook ->
  columns message !! "time_sec" = Some (FloatCol time_sec) ->
  finite_times time_sec = true ->
  (large = true -> 0 <= chunk_rows cfg /\ (0 < nrows message)%nat) ->
  load_frame message orderbook large cfg = Ok (loaded message orderbook time_sec) /\
  wf_frame (loaded message orderbook time_sec).
Proof.
  intros Hwm Hwo Hn Hts Hfin Hlarge.
  assert (length time_sec = nrows message) as Hlen by apply (Hwm _ _ Hts).
  assert (wf_frame (loaded message orderbook time_sec)) as Hwf.
  { unfold wf_frame, loaded. cbn [nrows columns].
    apply map_Forall_insert_2; [cbn; by rewrite length_time_ns_of|].
    apply map_Forall_union_2; [done|]. rewrite Hn. done. }
  split; [|done].
  unfold load_frame, load_lobster.
  pose proof (load_full_ok _ _ _ Hn Hts Hlen Hfin) as Hfull.
  destruct large; [|by rewrite Hfull].
  destruct (Hlarge eq_refl) as [Hc Hrows].
  destruct (Z.eqb_spec (chunk_rows cfg) 0); [by rewrite Hfull|].
  cbn [bind]. rewrite (iter_load_aligned _ _ time_sec) by (done || lia).
  cbn [collect snd fst bind].
  apply concat_rows_chunks; [done|lia|done].
Qed.

(** In both modes a timestamp that is not finite ends the run with the
    ValueError of the cast. *)
Lemma load_frame_not_finite message orderbook time_sec large cfg :
  wf_frame message ->
  nrows message = nrows orderbook ->
  columns message !! "time_sec" = Some (FloatCol time_sec) ->
  finite_times time_sec = false ->
  (large = true -> 0 <= chunk_rows cfg) ->
  load_frame message orderbook large cfg = Raise ValueError.
Proof.
  intros Hwm Hn Hts Hfin Hlarge.
  assert (length time_sec = nrows message) as Hlen by apply (Hwm _ _ Hts).
  unfold load_frame, load_lobster.
  pose proof (load_full_not_finite _ _ _ Hn Hts Hfin) as Hfull.
  destruct large; [|by rewrite Hfull].
  specialize (Hlarge eq_refl).
  destruct (Z.eqb_spec (chunk_rows cfg) 0); [by rewrite Hfull|].
  cbn [bind]. unfold collect.
  rewrite (iter_load_not_finite _ _ time_sec) by (done || lia). done.
Qed.


(** *** The raw columns of the flagged frame *)









(** *** The steps of the run *)

Lemma compute_features_of_derive df num_levels topk s frame cols :
  s !! df = Some frame ->
  derive frame num_levels topk = Ok cols ->
  Forall (fun nc : string * column => col_len nc.2 = nrows frame) cols ->
  compute_features df num_levels topk s
  = Ok (length s, s ++ [with_columns frame cols]).
Proof.
  intros Hdf Hderive Hall. unfold compute_features, mbind, deref, lift, copy.
  rewrite Hdf, Hderive, Hdf.
  rewrite (store_setitems_ok _ _ _ frame); [|by rewrite lookup_app_r, Nat.sub_diag by lia|done].
  unfold ret. by rewrite insert_fresh.
Qed.





End Run.

(** ** [strategy.py] *)

Module Strategy.

#[local] Open Scope R_scope.

Record LobsterEvent : Type := mkEvent {
  event_type : Z;
  price : R;
  size : Z;
  direction : Z
}.

Record AvellanedaStoikovParams : Type := mkParams {
  gamma : R;
  sigma : R;
  kappa : R;
  horizon : R
}.

Definition reservation_price (mid_price inventory : R)
    (params : AvellanedaStoikovParams) (t : R) : R :=
  mid_price - inventory * gamma params * sigma params ^ 2 * (horizon params - t).

(** [2 / params.gamma] and [params.gamma / params.kappa] raise on a zero
    divisor, [math.log] on an argument that is not positive. *)
Definition optimal_spread (params : AvellanedaStoikovParams) (t : R) : result R :=
  let term1 := gamma params * sigma params ^ 2 * (horizon params - t) in
  if Req_EM_T (gamma params) 0 then Raise ZeroDivisionError
  else if Req_EM_T (kappa params) 0 then Raise ZeroDivisionError
  else if Rle_dec (1 + gamma params / kappa params) 0 then Raise ValueError
  else
    let term2 := (2 / gamma params) * ln (1 + gamma params / kappa params) in
    Ok (0.5 * (term1 + term2)).

Inductive Side : Type := Bid | Ask.

(** One trade of [book.match()]. *)
Record Trade : Type := mkTrade {
  aggressor_id : Z;
  trade_price : R;
  qty : R
}.

(** One side of [book.top_levels(k)]: [(price, size)] per level. *)
Definition levels : Type := list (R * R).

Record BacktestResult : Type := mkResult {
  orders_per_second : R;
  pnl : R;
  trades : Z
}.

(** A call of [book.add_order], with the place of the call: line 110
    submits the market event, lines 148 and 150 submit the two quotes. *)
Inductive origin : Type := MarketEvent | Quote.

Record Submitted : Type := mkSubmitted {
  sub_origin : origin;
  sub_id : Z;
  sub_price : R;
  sub_size : Z;
  sub_side : Side
}.

Definition is_quote (o : Submitted) : bool :=
  match sub_origin o with
  | Quote => true
  | MarketEvent => false
  end.

(** The buffer width of the warm-up. *)
Definition WIDTH : nat := 50.

Section Backtest.

(** The matching engine [lob_engine] and the predictive model are
    external: the simulator sees them through these operations. *)
Variable Book : Type.
Variable new_book : Book.
Variable add_order : Book -> Z -> R -> Z -> Side -> Book.
Variable match_book : Book -> Book * list Trade.
Variable top_levels : Book -> nat -> levels * levels.
Variable Snapshot : Type.
(** [np.array(levels, dtype=np.float32).reshape(1, 10)] *)
Variable as_snapshot : levels * levels -> Snapshot.
(** [model(torch.from_numpy(history).unsqueeze(0)).item()] *)
Variable predict : list Snapshot -> R.

Definition build_lob_snapshot (book : Book) : Snapshot :=
  as_snapshot (top_levels book 5).

(** [top[side][0][0]] *)
Definition best_price (side_levels : levels) : result R :=
  match side_levels with
  | (p, _) :: _ => Ok p
  | [] => Raise IndexError
  end.

(** The state the loop of [run_backtest] carries. *)
Record Sim : Type := mkSim {
  book : Book;
  snapshots : list Snapshot;
  inventory : R;
  cash : R;
  n_trades : Z;
  order_id : Z
}.

Definition init : Sim := mkSim new_book [] 0 0 0 1.

(** The body of [for trade in matches], where [ask_id] is the value
    of [order_id - 1] after both quotes were submitted. *)
Definition settle (ask_id : Z) (st : Sim) (trade : Trade) : Sim :=
  if decide (aggressor_id trade = ask_id)
  then mkSim (book st) (snapshots st)
             (inventory st - qty trade)
             (cash st + qty trade * trade_price trade)
             (n_trades st + 1) (order_id st)
  else mkSim (book st) (snapshots st)
             (inventory st + qty trade)
             (cash st - qty trade * trade_price trade)
             (n_trades st + 1) (order_id st).

Definition mid_of (best_bid best_ask fallback : R) : R :=
  if Rlt_dec 0 best_bid
  then if Rlt_dec 0 best_ask then (best_bid + best_ask) / 2 else fallback
  else fallback.

(** [max(min(predicted_delta, 0.5), -0.5)] *)
Definition toxicity_penalty (predicted_delta : R) : R :=
  Rmax (Rmin predicted_delta 0.5) (-0.5).

(** One iteration of the loop over the events, with the orders it
    submitted. *)
Definition step (params : AvellanedaStoikovParams) (idx : nat)
    (event : LobsterEvent) (st : Sim) : result (Sim * list Submitted) :=
  let side := if decide (direction event = 1%Z) then Bid else Ask in
  let book1 := add_order (book st) (order_id st) (price event) (size event) side in
  let market := mkSubmitted MarketEvent (order_id st) (price event) (size event) side in
  let order_id1 := (order_id st + 1)%Z in
  let book2 := fst (match_book book1) in
  let snapshot := build_lob_snapshot book2 in
  let snapshots1 := snapshots st ++ [snapshot] in
  if (length snapshots1 <? WIDTH)%nat
  then Ok (mkSim book2 snapshots1 (inventory st) (cash st) (n_trades st) order_id1,
           [market])
  else
    let snapshots2 :=
      if (WIDTH <? length snapshots1)%nat then tail snapshots1 else snapshots1 in
    let predicted_delta := predict snapshots2 in
    let top := top_levels book2 1 in
    best_bid <~ best_price (fst top) ;;
    best_ask <~ best_price (snd top) ;;
    let mid := mid_of best_bid best_ask (price event) in
    let adjusted_inventory := inventory st + toxicity_penalty predicted_delta in
    let t := INR idx / INR (Nat.max 1 (length snapshots2)) in
    let r_price := reservation_price mid adjusted_inventory params t in
    spread <~ optimal_spread params t ;;
    let bid_quote := r_price - spread in
    let ask_quote := r_price + spread in
    let book3 := add_order book2 order_id1 bid_quote 1 Bid in
    let bid := mkSubmitted Quote order_id1 bid_quote 1 Bid in
    let order_id2 := (order_id1 + 1)%Z in
    let book4 := add_order book3 order_id2 ask_quote 1 Ask in
    let ask := mkSubmitted Quote order_id2 ask_quote 1 Ask in
    let order_id3 := (order_id2 + 1)%Z in
    let '(book5, matches) := match_book book4 in
    let st1 := mkSim book5 snapshots2 (inventory st) (cash st) (n_trades st) order_id3 in
    Ok (foldl (settle (order_id3 - 1)%Z) st1 matches, [market; bid; ask]).

(** [for idx, event in enumerate(load_lobster(data_path))], from the
    event of index [idx] on; the result lists the orders of each
    iteration. *)
Fixpoint run_events (params : AvellanedaStoikovParams) (idx : nat)
    (events : list LobsterEvent) (st : Sim)
  : result (Sim * list (list Submitted)) :=
  match events with
  | [] => Ok (st, [])
  | event :: rest =>
      r <~ step params idx event st ;;
      r' <~ run_events params (S idx) rest (fst r) ;;
      Ok (fst r', snd r :: snd r')
  end.

(** The mid of the final book: [0.0] unless both best prices are
    positive.  Python's [and] reads the ask side only when the bid test
    passed. *)
Definition final_mid (b : Book) : result R :=
  let final_top := top_levels b 1 in
  best_bid <~ best_price (fst final_top) ;;
  if Rlt_dec 0 best_bid
  then
    best_ask <~ best_price (snd final_top) ;;
    Ok (if Rlt_dec 0 best_ask then (best_bid + best_ask) / 2 else 0)
  else Ok 0.

(** [run_backtest]; [elapsed] is the reading of the wall clock. *)
Definition run_backtest (events : list LobsterEvent)
    (params : AvellanedaStoikovParams) (elapsed : R) : result BacktestResult :=
  r <~ run_events params 0 events init ;;
  let st := fst r in
  let ops := if Rlt_dec 0 elapsed then IZR (order_id st) / elapsed else 0 in
  fm <~ final_mid (book st) ;;
  Ok (mkResult ops (cash st + inventory st * fm) (n_trades st)).


Lemma toxicity_penalty_examples :
  toxicity_penalty 10 = 0.5 /\ toxicity_penalty (-10) = -0.5 /\
  toxicity_penalty 0.1 = 0.1.
Proof.
  unfold toxicity_penalty, Rmax, Rmin.
  repeat split; repeat destruct (Rle_dec _ _); lra.
Qed.

(** *** The accounting of the fills *)

(** The signed quantity of a trade: what it adds to the inventory. *)
Definition signed_qty (ask_id : Z) (trade : Trade) : R :=
  if decide (aggressor_id trade = ask_id) then - qty trade else qty trade.

Definition sumR (l : list R) : R := foldr Rplus 0 l.

Lemma settle_fields ask_id st trade :
  inventory (settle ask_id st trade) = inventory st + signed_qty ask_id trade /\
  cash (settle ask_id st trade)
    = cash st - signed_qty ask_id trade * trade_price trade /\
  n_trades (settle ask_id st trade) = (n_trades st + 1)%Z /\
  book (settle ask_id st trade) = book st /\
  snapshots (settle ask_id st trade) = snapshots st /\
  order_id (settle ask_id st trade) = order_id st.
Proof.
  unfold settle, signed_qty.
  destruct (decide _); cbn; repeat split; first [reflexivity | lra].
Qed.

Lemma settle_all ask_id matches st :
  inventory (foldl (settle ask_id) st matches)
    = inventory st + sumR (signed_qty ask_id <$> matches) /\
  cash (foldl (settle ask_id) st matches)
    = cash st
      - sumR ((fun tr => signed_qty ask_id tr * trade_price tr) <$> matches) /\
  n_trades (foldl (settle ask_id) st matches)
    = (n_trades st + Z.of_nat (length matches))%Z /\
  book (foldl (settle ask_id) st matches) = book st /\
  snapshots (foldl (settle ask_id) st matches) = snapshots st /\
  order_id (foldl (settle ask_id) st matches) = order_id st.
Proof.
  revert st. induction matches as [|tr ms IH]; intros st; cbn [foldl].
  - cbn. repeat split; first [reflexivity | lra | lia].
  - destruct (IH (settle ask_id st tr)) as (Hi & Hc & Hn & Hb & Hs & Ho).
    destruct (settle_fields ask_id st tr) as (Hi' & Hc' & Hn' & Hb' & Hs' & Ho').
    rewrite Hi, Hc, Hn, Hb, Hs, Ho, Hi', Hc', Hn', Hb', Hs', Ho'.
    cbn [fmap list_fmap foldr length]. unfold sumR. cbn [foldr].
    repeat split; first [reflexivity | lra | lia].
Qed.

(** *** The warm-up *)

(** The contract of the engine that the simulator relies on: a query
    for one level answers with one level per side. *)
Definition engine_answers : Prop :=
  forall b, fst (top_levels b 1) <> [] /\ snd (top_levels b 1) <> [].

(** Parameters on which the closed forms are defined. *)
Definition valid_params (params : AvellanedaStoikovParams) : Prop :=
  0 < gamma params /\ 0 < kappa params.

Lemma optimal_spread_ok params t :
  valid_params params ->
  optimal_spread params t
  = Ok (0.5 * (gamma params * (sigma params * sigma params) * (horizon params - t)
               + (2 / gamma params) * ln (1 + gamma params / kappa params))).
Proof.
  intros [Hg Hk]. unfold optimal_spread.
  destruct (Req_EM_T (gamma params) 0); [lra|].
  destruct (Req_EM_T (kappa params) 0); [lra|].
  destruct (Rle_dec (1 + gamma params / kappa params) 0) as [Hle|_].
  - assert (0 < gamma params / kappa params) by (apply Rdiv_lt_0_compat; lra). lra.
  - do 2 f_equal. lra.
Qed.

Lemma best_price_ok l : l <> [] -> exists p, best_price l = Ok p.
Proof. destruct l as [|[p q] l]; [done|]. intros _. by exists p. Qed.

(** While the buffer is short the iteration submits the market event
    only. *)
Lemma step_warm_up params idx event st :
  (length (snapshots st) + 1 < WIDTH)%nat ->
  exists st',
    step params idx event st = Ok (st', [
      mkSubmitted MarketEvent (order_id st) (price event) (size event)
        (if decide (direction event = 1%Z) then Bid else Ask)]) /\
    length (snapshots st') = (length (snapshots st) + 1)%nat.
Proof.
  intros Hlen. unfold step. rewrite length_app. cbn [length].
  destruct (Nat.ltb_spec (length (snapshots st) + 1) WIDTH); [|lia].
  eexists. split; [reflexivity|]. cbn [snapshots]. rewrite length_app. cbn [length]. lia.
Qed.

(** Once the buffer is full the iteration submits the market event and
    the two quotes, and leaves the buffer full. *)
Lemma step_quoting params idx event st :
  engine_answers -> valid_params params ->
  (WIDTH <= length (snapshots st) + 1 <= WIDTH + 1)%nat ->
  exists st' market bid ask,
    step params idx event st = Ok (st', [market; bid; ask]) /\
    sub_origin market = MarketEvent /\
    sub_origin bid = Quote /\ sub_side bid = Bid /\ sub_size bid = 1%Z /\
    sub_origin ask = Quote /\ sub_side ask = Ask /\ sub_size ask = 1%Z /\
    sub_id bid = (order_id st + 1)%Z /\ sub_id ask = (order_id st + 2)%Z /\
    length (snapshots st') = WIDTH.
Proof.
  intros Hengine Hparams Hlen. unfold step. rewrite length_app. cbn [length].
  destruct (Nat.ltb_spec (length (snapshots st) + 1) WIDTH); [lia|].
  set (book2 := fst (match_book _)).
  destruct (Hengine book2) as [Hb Ha].
  destruct (best_price_ok _ Hb) as [bb ->].
  destruct (best_price_ok _ Ha) as [ba ->]. cbn [bind].
  rewrite optimal_spread_ok by done. cbn [bind].
  match goal with
  | |- context [match_book (add_order (add_order ?b ?i ?q ?z ?d) ?i' ?q' ?z' ?d')] =>
      destruct (match_book (add_order (add_order b i q z d) i' q' z' d'))
        as [book5 matches]
  end.
  do 4 eexists. split; [reflexivity|].
  cbn [sub_origin sub_side sub_size sub_id].
  repeat split; try lia.
  match goal with |- context [foldl (settle ?a) ?s matches] =>
    destruct (settle_all a matches s) as (_ & _ & _ & _ & -> & _) end.
  cbn [snapshots].
  destruct (Nat.ltb_spec WIDTH (length (snapshots st) + 1)) as [Hgt|Hle].
  - rewrite length_tl, length_app. cbn [length]. lia.
  - rewrite length_app. cbn [length]. lia.
Qed.

(** The orders of the run, iteration by iteration: [processed] events
    were consumed before [events]. *)
Lemma run_events_log params events processed st :
  engine_answers -> valid_params params ->
  length (snapshots st) = Nat.min processed WIDTH ->
  exists st' log,
    run_events params processed events st = Ok (st', log) /\
    length log = length events /\
    forall k orders, log !! k = Some orders ->
      ((processed + k + 1 < WIDTH)%nat -> filter is_quote orders = []) /\
      ((WIDTH <= processed + k + 1)%nat ->
         exists bid ask, filter is_quote orders = [bid; ask] /\
           sub_side bid = Bid /\ sub_size bid = 1%Z /\
           sub_side ask = Ask /\ sub_size ask = 1%Z).
Proof.
  intros Hengine Hparams. revert processed st.
  induction events as [|event events IH]; intros processed st Hlen.
  - exists st, []. split; [done|]. split; [done|]. intros k orders Hk.
    rewrite lookup_nil in Hk. discriminate.
  - cbn [run_events].
    destruct (decide (processed + 1 < WIDTH)%nat) as [Hwarm|Hfull].
    + destruct (step_warm_up params processed event st) as (st1 & -> & Hlen1); [lia|].
      cbn [bind fst snd].
      destruct (IH (S processed) st1) as (st' & log & -> & Hlog & Hlater); [lia|].
      cbn [bind fst snd]. exists st'. eexists. split; [reflexivity|].
      split; [cbn; lia|].
      intros [|k] orders Hko; cbn in Hko.
      * simplify_eq. split; [done|]. lia.
      * destruct (Hlater k orders Hko) as [H1 H2]. split; intros; [apply H1|apply H2]; lia.
    + destruct (step_quoting params processed event st)
        as (st1 & market & bid & ask & -> & Hm & Hbo & Hbs & Hbz & Hao & Has & Haz & _ & _ & Hlen1);
        [done|done|lia|].
      cbn [bind fst snd].
      destruct (IH (S processed) st1) as (st' & log & -> & Hlog & Hlater).
      { rewrite Hlen1. lia. }
      cbn [bind fst snd]. exists st'. eexists. split; [reflexivity|].
      split; [cbn; lia|].
      intros [|k] orders Hko; cbn in Hko.
      * simplify_eq. split; [lia|]. intros _. exists bid, ask.
        unfold is_quote.
        rewrite !filter_cons, Hm, Hbo, Hao, filter_nil. cbn.
        repeat split; done.
      * destruct (Hlater k orders Hko) as [H1 H2]. split; intros; [apply H1|apply H2]; lia.
Qed.

End Backtest.

(** The parameters of the regression point of the design document. *)
Definition reference_params : AvellanedaStoikovParams := mkParams 0.1 0.02 1.5 1.

(** A book that never trades and always shows one level per side; it
    serves as a concrete engine. *)
Definition quiet_levels (k : nat) : levels * levels :=
  (replicate k (100, 1), replicate k (101, 1)).

Definition quiet_run (events : list LobsterEvent)
  : result (Sim unit unit * list (list Submitted)) :=
  run_events unit (fun _ _ _ _ _ => tt) (fun _ => (tt, []))
    (fun _ => quiet_levels) unit (fun _ => tt) (fun _ => 0)
    reference_params 0 events (init unit tt unit).

(** The same expression on binary64 floats, for the regression point:
    [sigma ** 2] is the correctly rounded square. *)
Definition reservation_price_binary64
    (mid_price inventory gamma sigma horizon t : float) : float :=
  (mid_price - inventory * gamma * (sigma * sigma) * (horizon - t))%float.

Example reservation_price_binary64_reference :
  reservation_price_binary64 100 0 0.1 0.02 1 0 = 100%float.
Proof. reflexivity. Qed.

End Strategy.

(** * Concrete frames *)

Module Fixtures.

Import Features Labels CleanValidate LoadLobster.

(** Three aligned rows with two levels.  In row 1 both bid levels are
    absent (sentinel price) but carry the sizes 7 and 2; in row 2 the book
    is crossed (best bid 1005 above best ask 1001). *)
Definition raw_columns : list (string * column) :=
  [ ("time_ns", IntCol [0; 500000000; 1600000000]);
    ("event_type", IntCol [1; 4; 7]);
    ("order_id", IntCol [11; 12; 13]);
    ("size", IntCol [10; 5; 2]);
    ("price", IntCol [1000; 1001; 1002]);
    ("direction", IntCol [1; -1; 1]);
    ("bid_price_1", IntCol [1000; DUMMY_BID; 1005]);
    ("bid_size_1", IntCol [10; 7; 3]);
    ("ask_price_1", IntCol [1002; 1003; 1001]);
    ("ask_size_1", IntCol [5; 7; 3]);
    ("bid_price_2", IntCol [999; DUMMY_BID; 999]);
    ("bid_size_2", IntCol [1; 2; 3]);
    ("ask_price_2", IntCol [1003; 1004; DUMMY_ASK]);
    ("ask_size_2", IntCol [4; 4; 9]) ].

Definition raw_frame : DataFrame := mkFrame 3 (list_to_map raw_columns).

(** The same frame with every column changed in row 2. *)
Definition raw_frame_changed_later : DataFrame :=
  mkFrame 3 (list_to_map
    [ ("time_ns", IntCol [0; 500000000; 600000000]);
      ("event_type", IntCol [1; 4; 1]);
      ("order_id", IntCol [11; 12; 99]);
      ("size", IntCol [10; 5; 400]);
      ("price", IntCol [1000; 1001; 2000]);
      ("direction", IntCol [1; -1; -1]);
      ("bid_price_1", IntCol [1000; DUMMY_BID; 1500]);
      ("bid_size_1", IntCol [10; 7; 30]);
      ("ask_price_1", IntCol [1002; 1003; 1600]);
      ("ask_size_1", IntCol [5; 7; 1]);
      ("bid_price_2", IntCol [999; DUMMY_BID; DUMMY_BID]);
      ("bid_size_2", IntCol [1; 2; 0]);
      ("ask_price_2", IntCol [1003; 1004; 1700]);
      ("ask_size_2", IntCol [4; 4; 8]) ]).

(** Frames whose first timestamp is the least [int64]: they agree in
    row 0 and differ in row 1 only. *)
Definition early_frame (second : Z) : DataFrame :=
  mkFrame 3 (<["time_ns" := IntCol [int64_min; second; int64_max]]>
               (columns raw_frame)).

(** The frame with a column that already carries a derived name. *)
Definition frame_with_mid : DataFrame :=
  mkFrame 3 (<["mid" := IntCol [7; 7; 7]]> (columns raw_frame)).

(** A feature frame: a mid that rises, a constant spread. *)
Definition drift_frame : DataFrame :=
  mkFrame 4 (list_to_map
    [ ("mid", FloatCol [100; 105; 110; 115]%float);
      ("spread", FloatCol [2; 2; 2; 2]%float) ]).


(** A message source of four rows and an order book source of two. *)
Definition message_4 : DataFrame :=
  mkFrame 4 (list_to_map
    [ ("time_sec", FloatCol [34200.5; 34200.75; 34201; 34201.25]%float);
      ("event_type", IntCol [1; 1; 4; 3]) ]).

Definition orderbook_2 : DataFrame :=
  mkFrame 2 (list_to_map
    [ ("ask_price_1", IntCol [1002; 1003]);
      ("bid_price_1", IntCol [1000; 1001]) ]).

(** Three aligned rows as the two readers give them, with two levels:
    the rows of [raw_frame] before [time_ns] is computed. *)
Definition message_rows : DataFrame :=
  mkFrame 3 (list_to_map
    [ ("time_sec", FloatCol [0; 0.5; 1.6]%float);
      ("event_type", IntCol [1; 4; 7]);
      ("order_id", IntCol [11; 12; 13]);
      ("size", IntCol [10; 5; 2]);
      ("price", IntCol [1000; 1001; 1002]);
      ("direction", IntCol [1; -1; 1]) ]).

Definition orderbook_rows : DataFrame :=
  mkFrame 3 (list_to_map
    [ ("ask_price_1", IntCol [1002; 1003; 1001]);
      ("ask_size_1", IntCol [5; 7; 3]);
      ("bid_price_1", IntCol [1000; DUMMY_BID; 1005]);
      ("bid_size_1", IntCol [10; 7; 3]);
      ("ask_price_2", IntCol [1003; 1004; DUMMY_ASK]);
      ("ask_size_2", IntCol [4; 4; 9]);
      ("bid_price_2", IntCol [999; DUMMY_BID; 999]);
      ("bid_size_2", IntCol [1; 2; 3]) ]).


(** A frame in which the second bid level is present where the first is
    absent (row 1). *)
Definition gap_frame : DataFrame :=
  mkFrame 3 (<["bid_price_2" := IntCol [999; 998; 999]]> (columns raw_frame)).

(** Two rows with one level.  Row 0 is not crossed: its best bid
    [2^53] is below its best ask [2^53 + 1]; row 1 has no bid. *)
Definition large_price_frame : DataFrame :=
  mkFrame 2 (list_to_map
    [ ("event_type", IntCol [1; 1]);
      ("bid_price_1", IntCol [2 ^ 53; DUMMY_BID]);
      ("bid_size_1", IntCol [1; 0]);
      ("ask_price_1", IntCol [2 ^ 53 + 1; 2 ^ 53 + 5]);
      ("ask_size_1", IntCol [1; 1]) ]).

End Fixtures.

(** * The properties of the design document *)

Section StrategyClaims.

Import Strategy.
#[local] Open Scope R_scope.

Variable Book : Type.
Variable new_book : Book.
Variable add_order : Book -> Z -> R -> Z -> Side -> Book.
Variable match_book : Book -> Book * list Trade.
Variable top_levels : Book -> nat -> levels * levels.
Variable Snapshot : Type.
Variable as_snapshot : levels * levels -> Snapshot.
Variable predict : list Snapshot -> R.

#[local] Abbreviation sim_step := (step Book add_order match_book top_levels Snapshot as_snapshot predict).
#[local] Abbreviation sim_run := (run_events Book add_order match_book top_levels Snapshot as_snapshot predict).
#[local] Abbreviation sim_init := (init Book new_book Snapshot).
#[local] Abbreviation sim_backtest :=
  (run_backtest Book new_book add_order match_book top_levels Snapshot as_snapshot predict).



End StrategyClaims.



(** ** Labels *)

(** C1 (as amended). For every frame and every requested horizon [h],
    [generate_labels] leaves the final [h] rows without a valid move:
    [raw_move_H] is missing (NaN) at every index [i > length - h - 1].
    [label_H] is an [int8] column and holds [0] at those indices: the
    comparisons with the missing move are false. *)
Theorem final_rows_missing_move_zero_label
    (s : store) (df : loc) (horizons : list Z) (r : loc) (s' : store)
    (frame : DataFrame) (horizon : Z) (i : nat) :
  Labels.generate_labels df horizons s = Ok (r, s') ->
  s !! df = Some frame ->
  horizon ∈ horizons ->
  (i < nrows frame)%nat ->
  Z.of_nat (nrows frame) - horizon - 1 < Z.of_nat i ->
  result_cell (Ok (r, s')) (Labels.raw_move_name horizon) i = Some (F64 nan) /\
  result_cell (Ok (r, s')) (Labels.label_name horizon) i = Some (I64 0).
Proof.
  intros Hrun Hdf Hin Hi Hlate.
  destruct (Labels.generate_labels_reads _ _ _ _ _ _ Hrun Hdf) as (mid & spread & Hmid & Hspread).
  { intros ->. by apply elem_of_nil in Hin. }
  apply Labels.generate_labels_inv in Hrun
    as (frame' & cols & Hdf' & -> & -> & Hall & Hnames & Hcols).
  rewrite Hdf in Hdf'. injection Hdf' as <-.
  specialize (Hcols _ _ Hmid Hspread). subst cols.
  set (raw := zip_with (fun f m => (f - m)%float) (Labels.shift (- horizon) mid) mid).
  set (lab := zip_with Labels.label_of raw (Labels.threshold_of <$> spread)).
  assert (Labels.label_columns mid spread horizon
          = [(Labels.raw_move_name horizon, FloatCol raw);
             (Labels.label_name horizon, IntCol lab)]) as Hpair by reflexivity.
  assert (Forall (fun nc : string * column => col_len nc.2 = nrows frame)
            (Labels.label_columns mid spread horizon)) as Hlen.
  { rewrite Forall_forall in Hall. apply Forall_forall. intros nc Hnc.
    apply Hall. apply list_elem_of_bind. eauto. }
  rewrite Hpair in Hlen. apply Forall_cons in Hlen as [Hraw Hlen].
  apply Forall_cons in Hlen as [Hlab _]. cbn in Hraw, Hlab.
  assert (length mid = nrows frame) as Hmidlen.
  { unfold raw in Hraw. rewrite length_zip_with, Labels.length_shift in Hraw. lia. }
  assert (raw !! i = Some nan) as Hrawi.
  { unfold raw. destruct (lookup_lt_is_Some_2 mid i) as [m Hm]; [lia|].
    rewrite lookup_zip_with.
    rewrite Labels.shift_future_missing by lia. cbn. rewrite Hm. cbn.
    by rewrite sub_nan_l. }
  assert (lab !! i = Some 0) as Hlabi.
  { destruct (lookup_lt_is_Some_2 lab i) as [v Hv]; [lia|].
    rewrite Hv. f_equal. unfold lab in Hv. rewrite lookup_zip_with in Hv.
    rewrite Hrawi in Hv. cbn in Hv.
    destruct ((Labels.threshold_of <$> spread) !! i) as [t|]; cbn in Hv; [|done].
    simplify_eq. apply Labels.label_of_nan. }
  cbn [result_cell]. rewrite lookup_app_r by lia. rewrite Nat.sub_diag. cbn [lookup list_lookup].
  rewrite (lookup_with_columns_same frame _ (Labels.raw_move_name horizon) (FloatCol raw)).
  2:{ rewrite Labels.label_columns_names. unfold Labels.label_names.
      apply list_elem_of_bind. exists horizon. split; [|done]. by left. }
  2:{ intros c' Hc'. apply list_elem_of_bind in Hc' as (h' & Hc' & _).
      unfold Labels.label_columns in Hc'. apply elem_of_cons in Hc' as [Hc'|Hc'].
      - pose proof (f_equal fst Hc') as Hn. pose proof (f_equal snd Hc') as Hc.
        cbn [fst snd] in Hn, Hc. apply Labels.raw_move_name_inj in Hn as <-. done.
      - apply elem_of_cons in Hc' as [Hc'|Hc']; [|by apply elem_of_nil in Hc'].
        pose proof (f_equal fst Hc') as Hn. cbn [fst] in Hn.
        by apply Labels.raw_move_name_not_label in Hn. }
  rewrite (lookup_with_columns_same frame _ (Labels.label_name horizon) (IntCol lab)).
  2:{ rewrite Labels.label_columns_names. unfold Labels.label_names.
      apply list_elem_of_bind. exists horizon. split; [|done]. right. by left. }
  2:{ intros c' Hc'. apply list_elem_of_bind in Hc' as (h' & Hc' & _).
      unfold Labels.label_columns in Hc'. apply elem_of_cons in Hc' as [Hc'|Hc'].
      - pose proof (f_equal fst Hc') as Hn. cbn [fst] in Hn. symmetry in Hn.
        by apply Labels.raw_move_name_not_label in Hn.
      - apply elem_of_cons in Hc' as [Hc'|Hc']; [|by apply elem_of_nil in Hc'].
        pose proof (f_equal fst Hc') as Hn. pose proof (f_equal snd Hc') as Hc.
        cbn [fst snd] in Hn, Hc. apply Labels.label_name_inj in Hn as <-. done. }
  cbn [col_get]. by rewrite Hrawi, Hlabi.
Qed.

(** The last row of the drifting series, horizon 1, is an instance. *)
Lemma final_rows_missing_move_zero_label_witness :
  result_cell (Labels.generate_labels 0%nat [1; 2] [Fixtures.drift_frame])
    (Labels.raw_move_name 1) 3 = Some (F64 nan) /\
  result_cell (Labels.generate_labels 0%nat [1; 2] [Fixtures.drift_frame])
    (Labels.label_name 1) 3 = Some (I64 0).
Proof.
  assert (Labels.generate_labels 0%nat [1; 2] [Fixtures.drift_frame]
          = Ok (1%nat, [Fixtures.drift_frame] ++ [with_columns Fixtures.drift_frame
               ([1; 2] ≫= Labels.label_columns [100; 105; 110; 115]%float [2; 2; 2; 2]%float)]))
    as Hrun by (vm_compute; reflexivity).
  rewrite Hrun.
  apply (final_rows_missing_move_zero_label [Fixtures.drift_frame] 0%nat [1; 2] 1%nat _
           Fixtures.drift_frame 1 3%nat Hrun).
  - reflexivity.
  - by left.
  - cbn. lia.
  - cbn. lia.
Defined.

(** On the drifting series the label of the last row of horizon 1, and
    of the last two rows of horizon 2, is the number [0], not a missing
    marker, although the move of these rows is missing. *)
Lemma label_of_final_rows_is_zero :
  result_cell (Labels.generate_labels 0%nat [1; 2] [Fixtures.drift_frame])
    "raw_move_H1" 3 = Some (F64 nan) /\
  result_cell (Labels.generate_labels 0%nat [1; 2] [Fixtures.drift_frame])
    "label_H1" 3 = Some (I64 0) /\
  result_cell (Labels.generate_labels 0%nat [1; 2] [Fixtures.drift_frame])
    "label_H2" 2 = Some (I64 0) /\
  result_cell (Labels.generate_labels 0%nat [1; 2] [Fixtures.drift_frame])
    "label_H2" 3 = Some (I64 0).
Proof. vm_compute. repeat split; reflexivity. Qed.

(** ** Alignment *)

(** C5 (the code at the failing input). The message source has four
    rows, the order book source two, and the chunks hold two rows: the
    batch loader refuses the pair, but the streaming loader yields the
    one chunk in which both sources have two rows and ends without an
    exception, because [zip] stops at the shorter reader. *)
Theorem iter_load_misses_length_mismatch :
  nrows Fixtures.message_4 <> nrows Fixtures.orderbook_2 /\
  LoadLobster.load_full Fixtures.message_4 Fixtures.orderbook_2 = Raise ValueError /\
  snd (LoadLobster.iter_load Fixtures.message_4 Fixtures.orderbook_2 2) = None /\
  nrows <$> fst (LoadLobster.iter_load Fixtures.message_4 Fixtures.orderbook_2 2)
  = [2%nat].
Proof. vm_compute. repeat split; (reflexivity || discriminate). Qed.

(** ** The event rate *)




(** ** The validator *)



(** Beyond [2^53] the claim fails.  Replacing a sentinel turns the bid
    column into [float64], the comparison with the [int64] ask column is
    then made on floats, and [2^53 + 1] rounds to [2^53]: the row with
    best bid [2^53] and best ask [2^53 + 1] is counted although no row of
    the frame has both sides present and [best_bid >= best_ask]. *)
Lemma float_comparison_counts_uncrossed_row :
  get_int Fixtures.large_price_frame "bid_price_1" = Ok [2 ^ 53; DUMMY_BID] /\
  get_int Fixtures.large_price_frame "ask_price_1" = Ok [2 ^ 53 + 1; 2 ^ 53 + 5] /\
  filter (fun row : Z * Z =>
            row.1 <> DUMMY_BID /\ row.2 <> DUMMY_ASK /\ row.2 <= row.1)
    (zip [2 ^ 53; DUMMY_BID] [2 ^ 53 + 1; 2 ^ 53 + 5]) = [] /\
  CleanValidate.spread_violations <$>
    of_result (CleanValidate.sanity_checks Fixtures.large_price_frame 1) = Some 1.
Proof.
  split; [vm_compute; reflexivity|]. split; [vm_compute; reflexivity|].
  split; [|vm_compute; reflexivity].
  cbn [zip zip_with]. rewrite !filter_cons, filter_nil.
  destruct (decide _) as [(_ & _ & H)|_]; [cbn in H; lia|].
  destruct (decide _) as [(H & _)|_]; [by cbn in H|]. done.
Qed.

(** ** The feature engine *)

(** What the derived columns may not disturb: the frame that a call
    returned holds the rows and the columns of the input, the columns
    [added] apart, and no object of the caller's store was touched. *)
Definition only_adds (s : store) (df : loc) (r : loc) (s' : store)
    (added : list string) : Prop :=
  exists frame out,
    s !! df = Some frame /\ s' !! r = Some out /\ r <> df /\
    nrows out = nrows frame /\
    (forall name, name ∉ added -> columns out !! name = columns frame !! name) /\
    dom (columns out) = dom (columns frame) ∪ list_to_set added /\
    (wf_frame frame -> wf_frame out) /\
    (forall l, (l < length s)%nat -> s' !! l = s !! l).

Lemma only_adds_with_columns (s : store) df frame cols :
  s !! df = Some frame ->
  Forall (fun nc : string * column => col_len nc.2 = nrows frame) cols ->
  only_adds s df (length s) (s ++ [with_columns frame cols]) cols.*1.
Proof.
  intros Hdf Hall. exists frame, (with_columns frame cols).
  split; [done|]. split.
  { rewrite lookup_app_r by lia. by rewrite Nat.sub_diag. }
  split. { apply lookup_lt_Some in Hdf. lia. }
  split; [apply nrows_with_columns|].
  split. { intros name Hname. by apply lookup_with_columns_other. }
  split; [apply dom_with_columns|].
  split. { intros Hwf. by apply wf_with_columns. }
  intros l Hl. by rewrite lookup_app_l.
Qed.

(** C10 (as amended). [compute_features] and [generate_labels] return a
    new frame with the row count of the input, in which every input
    column whose name is not the name of a derived (respectively label)
    column is unchanged and the columns of the result are those of the
    input and the derived ones; the caller's frame, like every object of
    the store, is not mutated. *)
Theorem features_and_labels_only_add_columns (s : store) (df : loc) :
  (forall num_levels topk r s',
     Features.compute_features df num_levels topk s = Ok (r, s') ->
     only_adds s df r s' Features.derived_names) /\
  (forall horizons r s',
     Labels.generate_labels df horizons s = Ok (r, s') ->
     only_adds s df r s' (Labels.label_names horizons)).
Proof.
  split.
  - intros num_levels topk r s' Hrun.
    apply Features.compute_features_inv in Hrun
      as (frame & cols & Hdf & Hderive & -> & -> & Hall).
    rewrite <- (Features.derive_names _ _ _ _ Hderive).
    by apply only_adds_with_columns.
  - intros horizons r s' Hrun.
    apply Labels.generate_labels_inv in Hrun
      as (frame & cols & Hdf & -> & -> & Hall & Hnames & _).
    rewrite <- Hnames. by apply only_adds_with_columns.
Qed.

(** A frame that already has a column [mid] gets it overwritten: the
    input holds the integer 7 in row 0, the result the computed mid. *)
Lemma existing_mid_column_is_overwritten :
  (columns Fixtures.frame_with_mid !! "mid") ≫= (fun c => col_get c 0)
  = Some (I64 7) /\
  result_cell (Features.compute_features 0%nat 2 2 [Fixtures.frame_with_mid]) "mid" 0
  = Some (F64 1001).
Proof. vm_compute. split; reflexivity. Qed.

(** C2 (as amended). [compute_features] is causal on frames whose
    timestamps up to row [i] are not so early that [t - 10^9] leaves
    [int64]: when two frames agree on the rows [0 .. i], every derived
    column has the same value in row [i] of the two results. *)
Theorem compute_features_is_causal
    (s1 s2 : store) (df1 df2 : loc) (frame1 frame2 : DataFrame)
    (num_levels topk : Z) (i : nat) (r1 r2 : loc) (s1' s2' : store) :
  s1 !! df1 = Some frame1 ->
  s2 !! df2 = Some frame2 ->
  head_rows (S i) frame1 = head_rows (S i) frame2 ->
  (i < nrows frame1)%nat ->
  (forall time_ns, get_int frame1 "time_ns" = Ok time_ns ->
     EventRate.no_underflow Features.window_ns_default (take (S i) time_ns)) ->
  Features.compute_features df1 num_levels topk s1 = Ok (r1, s1') ->
  Features.compute_features df2 num_levels topk s2 = Ok (r2, s2') ->
  Forall (fun name =>
            exists v, result_cell (Ok (r1, s1')) name i = Some v /\
                      result_cell (Ok (r2, s2')) name i = Some v)
    Features.derived_names.
Proof.
  intros Hdf1 Hdf2 Hhead Hi Htime Hrun1 Hrun2.
  apply Features.compute_features_inv in Hrun1
    as (f1 & cols1 & Hdf1' & Hderive1 & -> & -> & Hall1).
  apply Features.compute_features_inv in Hrun2
    as (f2 & cols2 & Hdf2' & Hderive2 & -> & -> & Hall2).
  rewrite Hdf1 in Hdf1'. injection Hdf1' as <-.
  rewrite Hdf2 in Hdf2'. injection Hdf2' as <-.
  pose proof (Features.derive_head (S i) _ _ _ _ Hderive1 Htime) as Hhead1.
  assert (forall time_ns, get_int frame2 "time_ns" = Ok time_ns ->
            EventRate.no_underflow Features.window_ns_default (take (S i) time_ns))
    as Htime2.
  { intros t2 Ht2. apply (Features.get_int_head (S i)) in Ht2.
    rewrite <- Hhead in Ht2.
    apply Features.get_int_head_inv in Ht2 as (t1 & Ht1 & ->). by apply Htime. }
  pose proof (Features.derive_head (S i) _ _ _ _ Hderive2 Htime2) as Hhead2.
  rewrite Hhead, Hhead2 in Hhead1. injection Hhead1 as Hcols.
  pose proof (Features.derive_names _ _ _ _ Hderive1) as Hn1.
  pose proof (Features.derive_names _ _ _ _ Hderive2) as Hn2.
  apply Forall_lookup. intros j name Hj.
  assert (exists c1, cols1 !! j = Some (name, c1)) as [c1 Hc1].
  { rewrite <- Hn1, list_lookup_fmap in Hj.
    destruct (cols1 !! j) as [[n c]|]; cbn in Hj; simplify_eq. eauto. }
  assert (exists c2, cols2 !! j = Some (name, c2)) as [c2 Hc2].
  { rewrite <- Hn2, list_lookup_fmap in Hj.
    destruct (cols2 !! j) as [[n c]|]; cbn in Hj; simplify_eq. eauto. }
  assert (col_take (S i) c1 = col_take (S i) c2) as Htake.
  { apply (f_equal (fun l => l !! j)) in Hcols.
    rewrite !list_lookup_fmap, Hc1, Hc2 in Hcols. cbn in Hcols. by simplify_eq. }
  assert (col_len c1 = nrows frame1) as Hlen1.
  { rewrite Forall_lookup in Hall1. apply (Hall1 _ _ Hc1). }
  destruct (col_get_is_Some c1 i) as [v Hv]; [lia|].
  exists v. cbn [result_cell].
  rewrite !lookup_app_r by lia. rewrite !Nat.sub_diag. cbn [lookup list_lookup].
  rewrite (lookup_with_columns_in frame1 cols1 j name c1); [|rewrite Hn1; apply Features.derived_names_NoDup|done].
  rewrite (lookup_with_columns_in frame2 cols2 j name c2); [|rewrite Hn2; apply Features.derived_names_NoDup|done].
  split; [done|].
  rewrite <- (col_get_take (S i) c2 i), <- Htake, col_get_take by lia. done.
Qed.

(** The two fixtures agree on the rows 0 and 1 and differ in row 2:
    every derived column agrees in row 1. *)
Lemma compute_features_is_causal_witness :
  Forall (fun name =>
            exists v,
              result_cell (Features.compute_features 0%nat 2 2 [Fixtures.raw_frame])
                name 1 = Some v /\
              result_cell
                (Features.compute_features 0%nat 2 2 [Fixtures.raw_frame_changed_later])
                name 1 = Some v)
    Features.derived_names.
Proof.
  destruct (Features.compute_features 0%nat 2 2 [Fixtures.raw_frame])
    as [[r1 s1']|e1] eqn:H1; [|vm_compute in H1; discriminate H1].
  destruct (Features.compute_features 0%nat 2 2 [Fixtures.raw_frame_changed_later])
    as [[r2 s2']|e2] eqn:H2; [|vm_compute in H2; discriminate H2].
  apply (compute_features_is_causal [Fixtures.raw_frame] [Fixtures.raw_frame_changed_later]
           0%nat 0%nat Fixtures.raw_frame Fixtures.raw_frame_changed_later 2 2 1%nat
           r1 r2 s1' s2').
  - reflexivity.
  - reflexivity.
  - vm_compute. reflexivity.
  - cbn. lia.
  - intros time_ns Ht. vm_compute in Ht. injection Ht as <-.
    unfold EventRate.no_underflow, Features.window_ns_default, int64_min, int64_max.
    cbn [take]. repeat constructor; lia.
  - exact H1.
  - exact H2.
Defined.

(** Two frames that agree on row 0 and differ in the timestamp of row 1
    only: row 0 holds the least [int64], [t - 10^9] wraps, the pointer
    runs into the later rows and the event rate of row 0 depends on
    them. *)
Lemma event_rate_of_wrapped_row_reads_later_rows :
  head_rows 1 (Fixtures.early_frame int64_max) = head_rows 1 (Fixtures.early_frame 0) /\
  result_cell (Features.compute_features 0%nat 2 2 [Fixtures.early_frame int64_max])
    "event_rate" 0 = Some (F64 0) /\
  result_cell (Features.compute_features 0%nat 2 2 [Fixtures.early_frame 0])
    "event_rate" 0 = Some (F64 (-1)).
Proof. vm_compute. repeat split; reflexivity. Qed.

(** C4 (as amended). In every row the aggregates [depth_topk_bid] and
    [depth_topk_ask] are the [int64] sums of the sizes stored at the top
    [K] levels of the side, whatever the prices of these levels are: the
    size stored at a sentinel-priced level is added like any other (it
    contributes 0 only when the stored size is 0); [topk_imbalance] is the
    quotient of their difference and their sum. *)
Theorem topk_depth_adds_stored_sizes
    (s : store) (df : loc) (num_levels topk : Z) (r : loc) (s' : store)
    (frame : DataFrame) (i : nat) :
  Features.compute_features df num_levels topk s = Ok (r, s') ->
  s !! df = Some frame ->
  wf_frame frame ->
  (i < nrows frame)%nat ->
  exists bid_sizes ask_sizes,
    _level_arrays frame "bid_size" num_levels = Ok bid_sizes /\
    _level_arrays frame "ask_size" num_levels = Ok ask_sizes /\
    let bid_depth := Features.stored_sum (by_col bid_sizes) topk i in
    let ask_depth := Features.stored_sum (by_col ask_sizes) topk i in
    result_cell (Ok (r, s')) "depth_topk_bid" i = Some (I64 bid_depth) /\
    result_cell (Ok (r, s')) "depth_topk_ask" i = Some (I64 ask_depth) /\
    result_cell (Ok (r, s')) "topk_imbalance" i
    = Some (F64 (of_Z (wrap64 (bid_depth - ask_depth))
                 / of_Z (wrap64 (bid_depth + ask_depth)))%float).
Proof.
  intros Hrun Hdf Hwf Hi.
  apply Features.compute_features_inv in Hrun
    as (frame' & cols & Hdf' & Hderive & -> & -> & Hall).
  rewrite Hdf in Hdf'. injection Hdf' as <-.
  pose proof (Features.derive_names _ _ _ _ Hderive) as Hnames.
  assert (NoDup cols.*1) as Hnd by (rewrite Hnames; apply Features.derived_names_NoDup).
  unfold Features.derive in Hderive.
  do 4 Features.ok_bind Hderive.
  pose proof (Features.level_arrays_lengths _ _ _ _ Hwf E1) as Hbs.
  pose proof (Features.level_arrays_lengths _ _ _ _ Hwf E2) as Has.
  assert (shape0 x1 = nrows frame) as Hn1.
  { unfold _level_arrays in E1. destruct (Levels.mapR _ _); cbn in E1; by simplify_eq. }
  assert (shape0 x2 = nrows frame) as Hn2.
  { unfold _level_arrays in E2. destruct (Levels.mapR _ _); cbn in E2; by simplify_eq. }
  destruct x1 as [n1 bs], x2 as [n2 as_]. cbn [shape0 by_col] in *. subst n1 n2.
  repeat Features.ok_bind Hderive. injection Hderive as <-.
  exists (mkArray2 (nrows frame) bs), (mkArray2 (nrows frame) as_).
  split; [done|]. split; [done|]. cbn zeta. cbn [by_col result_cell].
  rewrite !lookup_app_r by lia. rewrite !Nat.sub_diag. cbn [lookup list_lookup].
  pose proof (Features.topk_depth_lookup (nrows frame) bs topk i Hi Hbs) as Hb.
  pose proof (Features.topk_depth_lookup (nrows frame) as_ topk i Hi Has) as Ha.
  erewrite (lookup_with_columns_in frame _ 6 "depth_topk_bid"); [|done|reflexivity].
  erewrite (lookup_with_columns_in frame _ 7 "depth_topk_ask"); [|done|reflexivity].
  erewrite (lookup_with_columns_in frame _ 5 "topk_imbalance"); [|done|reflexivity].
  cbn [col_get]. rewrite Hb, Ha. split; [done|]. split; [done|].
  unfold Features.truediv64, Features.sub64, Features.add64.
  rewrite !lookup_zip_with, Hb, Ha. done.
Qed.

(** Row 1 of the fixture: both bid levels are sentinel-priced and store
    the sizes 7 and 2. *)
Lemma topk_depth_adds_stored_sizes_witness :
  exists bid_sizes ask_sizes,
    _level_arrays Fixtures.raw_frame "bid_size" 2 = Ok bid_sizes /\
    _level_arrays Fixtures.raw_frame "ask_size" 2 = Ok ask_sizes /\
    let bid_depth := Features.stored_sum (by_col bid_sizes) 2 1 in
    let ask_depth := Features.stored_sum (by_col ask_sizes) 2 1 in
    result_cell (Features.compute_features 0%nat 2 2 [Fixtures.raw_frame])
      "depth_topk_bid" 1 = Some (I64 bid_depth) /\
    result_cell (Features.compute_features 0%nat 2 2 [Fixtures.raw_frame])
      "depth_topk_ask" 1 = Some (I64 ask_depth) /\
    result_cell (Features.compute_features 0%nat 2 2 [Fixtures.raw_frame])
      "topk_imbalance" 1
    = Some (F64 (of_Z (wrap64 (bid_depth - ask_depth))
                 / of_Z (wrap64 (bid_depth + ask_depth)))%float).
Proof.
  destruct (Features.compute_features 0%nat 2 2 [Fixtures.raw_frame])
    as [[r s']|e] eqn:Hrun; [|vm_compute in Hrun; discriminate Hrun].
  apply (topk_depth_adds_stored_sizes [Fixtures.raw_frame] 0%nat 2 2 r s'
           Fixtures.raw_frame 1%nat Hrun).
  - reflexivity.
  - apply (bool_decide_unpack _). vm_compute. reflexivity.
  - cbn. lia.
Defined.

(** In row 1 of the fixture the two top bid levels carry the sentinel
    price, and the aggregate over the top two levels is 9, the sum of the
    sizes 7 and 2 stored at the two absent levels, not 0. *)
Lemma sentinel_level_sizes_are_counted :
  (columns Fixtures.raw_frame !! "bid_price_1") ≫= (fun c => col_get c 1)
  = Some (I64 DUMMY_BID) /\
  (columns Fixtures.raw_frame !! "bid_price_2") ≫= (fun c => col_get c 1)
  = Some (I64 DUMMY_BID) /\
  (columns Fixtures.raw_frame !! "bid_size_1") ≫= (fun c => col_get c 1)
  = Some (I64 7) /\
  (columns Fixtures.raw_frame !! "bid_size_2") ≫= (fun c => col_get c 1)
  = Some (I64 2) /\
  result_cell (Features.compute_features 0%nat 2 2 [Fixtures.raw_frame])
    "depth_topk_bid" 1 = Some (I64 9).
Proof. vm_compute. repeat split; reflexivity. Qed.

(** * Further properties of the code *)

(** The fixtures are frames as the readers give them. *)
Lemma fixture_message_frame :
  Run.message_frame Fixtures.message_rows [0; 0.5; 1.6]%float.
Proof.
  split; [apply (bool_decide_unpack _); vm_compute; reflexivity|].
  split; [apply (bool_decide_unpack _); vm_compute; reflexivity|].
  split; [vm_compute; reflexivity|].
  apply (bool_decide_unpack _). vm_compute. reflexivity.
Qed.

Lemma fixture_orderbook_frame : Run.orderbook_frame Fixtures.orderbook_rows 2.
Proof.
  split; [apply (bool_decide_unpack _); vm_compute; reflexivity|].
  split; [apply (bool_decide_unpack _); vm_compute; reflexivity|].
  apply (bool_decide_unpack _). vm_compute. reflexivity.
Qed.


(** ** The feature engine on its inputs *)

(** In every row [best_bid] and [best_ask] are the prices of level 1 with
    the sentinel of the side replaced by NaN, and [mid] and [spread] are
    NaN exactly in the rows in which the bid or the ask of level 1 holds
    its sentinel. *)
Theorem missing_side_gives_missing_mid_and_spread
    (s : store) (df : loc) (num_levels topk : Z) (r : loc) (s' : store)
    (frame : DataFrame) (bids asks : list Z) (i : nat) (b a : Z) :
  Features.compute_features df num_levels topk s = Ok (r, s') ->
  s !! df = Some frame ->
  get_int frame "bid_price_1" = Ok bids ->
  get_int frame "ask_price_1" = Ok asks ->
  bids !! i = Some b -> asks !! i = Some a ->
  exists mid spread,
    result_cell (Ok (r, s')) "best_bid" i
    = Some (F64 (if b =? DUMMY_BID then nan else of_Z b)) /\
    result_cell (Ok (r, s')) "best_ask" i
    = Some (F64 (if a =? DUMMY_ASK then nan else of_Z a)) /\
    result_cell (Ok (r, s')) "mid" i = Some (F64 mid) /\
    result_cell (Ok (r, s')) "spread" i = Some (F64 spread) /\
    is_nan mid = (b =? DUMMY_BID) || (a =? DUMMY_ASK) /\
    is_nan spread = (b =? DUMMY_BID) || (a =? DUMMY_ASK).
Proof.
  intros Hrun Hdf Hbids Hasks Hb Ha.
  apply Features.compute_features_inv in Hrun
    as (frame' & cols & Hdf' & Hderive & -> & -> & Hall).
  rewrite Hdf in Hdf'. injection Hdf' as <-.
  pose proof (Features.derive_names _ _ _ _ Hderive) as Hnames.
  assert (NoDup cols.*1) as Hnd by (rewrite Hnames; apply Features.derived_names_NoDup).
  destruct (Features.derive_best_prices _ _ _ _ Hderive)
    as (bids' & asks' & Hbids' & Hasks' & H0 & H1 & H2 & H3).
  rewrite Hbids in Hbids'. injection Hbids' as <-.
  rewrite Hasks in Hasks'. injection Hasks' as <-.
  exists ((Features.mask_value DUMMY_BID b + Features.mask_value DUMMY_ASK a) / 2)%float,
    (Features.mask_value DUMMY_ASK a - Features.mask_value DUMMY_BID b)%float.
  rewrite (Features.result_cell_with_columns _ _ _ _ _ _ _ Hnd H0),
    (Features.result_cell_with_columns _ _ _ _ _ _ _ Hnd H1),
    (Features.result_cell_with_columns _ _ _ _ _ _ _ Hnd H2),
    (Features.result_cell_with_columns _ _ _ _ _ _ _ Hnd H3).
  cbn [col_get].
  rewrite !lookup_zip_with, !list_lookup_fmap, Hb, Ha. cbn.
  repeat split; [apply Features.is_nan_mid|apply Features.is_nan_spread].
Qed.

(** Row 1 of the fixture has no bid. *)
Lemma missing_side_gives_missing_mid_and_spread_witness :
  exists mid spread,
    result_cell (Features.compute_features 0%nat 2 2 [Fixtures.raw_frame]) "best_bid" 1
    = Some (F64 (if DUMMY_BID =? DUMMY_BID then nan else of_Z DUMMY_BID)) /\
    result_cell (Features.compute_features 0%nat 2 2 [Fixtures.raw_frame]) "best_ask" 1
    = Some (F64 (if 1003 =? DUMMY_ASK then nan else of_Z 1003)) /\
    result_cell (Features.compute_features 0%nat 2 2 [Fixtures.raw_frame]) "mid" 1
    = Some (F64 mid) /\
    result_cell (Features.compute_features 0%nat 2 2 [Fixtures.raw_frame]) "spread" 1
    = Some (F64 spread) /\
    is_nan mid = (DUMMY_BID =? DUMMY_BID) || (1003 =? DUMMY_ASK) /\
    is_nan spread = (DUMMY_BID =? DUMMY_BID) || (1003 =? DUMMY_ASK).
Proof.
  destruct (Features.compute_features 0%nat 2 2 [Fixtures.raw_frame])
    as [[r s']|e] eqn:Hrun; [|vm_compute in Hrun; discriminate Hrun].
  apply (missing_side_gives_missing_mid_and_spread [Fixtures.raw_frame] 0%nat 2 2 r s'
           Fixtures.raw_frame [1000; DUMMY_BID; 1005] [1002; 1003; 1001] 1%nat
           DUMMY_BID 1003 Hrun).
  - reflexivity.
  - vm_compute. reflexivity.
  - vm_compute. reflexivity.
  - reflexivity.
  - reflexivity.
Defined.

(** On a well-formed frame that holds the [int64] columns the engine
    reads, with at least one level and timestamps from which one second
    can be subtracted within [int64], [compute_features] returns: the
    result is a new frame with the rows of the input and the thirteen
    derived columns beside those of the input. *)
Theorem compute_features_returns_on_loader_frames
    (s : store) (df : loc) (frame : DataFrame) (num_levels topk : Z)
    (time_ns : list Z) :
  s !! df = Some frame ->
  wf_frame frame ->
  0 < num_levels ->
  Run.feature_schema frame num_levels ->
  get_int frame "time_ns" = Ok time_ns ->
  EventRate.no_underflow Features.window_ns_default time_ns ->
  exists out,
    Features.compute_features df num_levels topk s = Ok (length s, s ++ [out]) /\
    nrows out = nrows frame /\
    wf_frame out /\
    dom (columns out) = dom (columns frame) ∪ list_to_set Features.derived_names.
Proof.
  intros Hdf Hwf Hn Hschema Htime Hrange.
  destruct (Run.derive_ok frame num_levels topk Hwf Hn Hschema) as (cols & Hderive & Hall).
  { intros t Ht. rewrite Htime in Ht. by injection Ht as <-. }
  exists (with_columns frame cols).
  split; [by apply Run.compute_features_of_derive|].
  split; [apply nrows_with_columns|].
  split; [by apply wf_with_columns|].
  rewrite dom_with_columns. by rewrite (Features.derive_names _ _ _ _ Hderive).
Qed.

Lemma compute_features_returns_on_loader_frames_witness :
  exists out,
    Features.compute_features 0%nat 2 2 [Fixtures.raw_frame]
    = Ok (length [Fixtures.raw_frame], [Fixtures.raw_frame] ++ [out]) /\
    nrows out = nrows Fixtures.raw_frame /\
    wf_frame out /\
    dom (columns out)
    = dom (columns Fixtures.raw_frame) ∪ list_to_set Features.derived_names.
Proof.
  apply (compute_features_returns_on_loader_frames [Fixtures.raw_frame] 0%nat
           Fixtures.raw_frame 2 2 [0; 500000000; 1600000000]).
  - reflexivity.
  - apply (bool_decide_unpack _). vm_compute. reflexivity.
  - lia.
  - apply (bool_decide_unpack _). vm_compute. reflexivity.
  - vm_compute. reflexivity.
  - unfold EventRate.no_underflow, Features.window_ns_default, int64_min, int64_max.
    repeat constructor; lia.
Defined.

(** Without a level ([num_levels <= 0]) there is no first column:
    [compute_features] raises IndexError on every frame. *)
Theorem compute_features_without_levels_raises_index_error
    (s : store) (df : loc) (frame : DataFrame) (num_levels topk : Z) :
  s !! df = Some frame ->
  num_levels <= 0 ->
  Features.compute_features df num_levels topk s = Raise IndexError.
Proof.
  intros Hdf Hn. unfold Features.compute_features, mbind, deref, lift.
  rewrite Hdf. by rewrite Features.derive_no_level.
Qed.

Lemma compute_features_without_levels_raises_index_error_witness :
  Features.compute_features 0%nat 0 2 [Fixtures.raw_frame] = Raise IndexError.
Proof.
  apply (compute_features_without_levels_raises_index_error [Fixtures.raw_frame] 0%nat
           Fixtures.raw_frame 0 2).
  - reflexivity.
  - lia.
Defined.

(** A frame that holds the bid prices of the levels [1 .. have] but not
    of level [have + 1] is refused with KeyError when more than [have]
    levels are requested. *)
Theorem compute_features_missing_level_raises_key_error
    (s : store) (df : loc) (frame : DataFrame) (have num_levels topk : Z) :
  s !! df = Some frame ->
  0 <= have < num_levels ->
  Forall (fun name => CleanValidate.is_int_col frame name = true)
    (_level_columns "bid_price" have) ->
  columns frame !! ("bid_price_" +:+ pretty (have + 1)) = None ->
  Features.compute_features df num_levels topk s = Raise KeyError.
Proof.
  intros Hdf Hhave Hint Hmiss.
  unfold Features.compute_features, mbind, deref, lift. rewrite Hdf.
  assert (Features.derive frame num_levels topk = Raise KeyError) as ->; [|done].
  unfold Features.derive, _level_arrays.
  assert (mapR (get_int frame) (_level_columns "bid_price" num_levels) = Raise KeyError)
    as ->; [|done].
  unfold _level_columns in *.
  replace num_levels with (have + (num_levels - have)) by lia.
  rewrite seqZ_app by lia. rewrite (seqZ_cons (1 + have)) by lia.
  rewrite fmap_app. cbn [fmap list_fmap].
  induction Hint as [|name names Hname _ IH]; cbn [app mapR].
  - unfold get_int at 1, getitem.
    replace (1 + have) with (have + 1) by lia.
    change ("bid_price" +:+ "_" +:+ pretty (have + 1))
      with ("bid_price_" +:+ pretty (have + 1)).
    by rewrite Hmiss.
  - destruct (CleanValidate.get_int_ok _ _ Hname) as [c ->]. cbn [bind].
    by rewrite IH.
Qed.

(** The fixture holds two levels; three are requested. *)
Lemma compute_features_missing_level_raises_key_error_witness :
  Features.compute_features 0%nat 3 2 [Fixtures.raw_frame] = Raise KeyError.
Proof.
  apply (compute_features_missing_level_raises_key_error [Fixtures.raw_frame] 0%nat
           Fixtures.raw_frame 2 3 2).
  - reflexivity.
  - lia.
  - apply (bool_decide_unpack _). vm_compute. reflexivity.
  - vm_compute. reflexivity.
Defined.

(** A depth [topk] at or beyond the number of levels gives the result
    of [topk = num_levels]: the slice of the levels is clamped. *)
Theorem topk_beyond_levels_is_clamped
    (s : store) (df : loc) (num_levels topk : Z) :
  0 <= num_levels <= topk ->
  Features.compute_features df num_levels topk s
  = Features.compute_features df num_levels num_levels s.
Proof.
  intros Hk. unfold Features.compute_features, mbind, deref.
  destruct (s !! df) as [frame|]; [|done].
  by rewrite Features.derive_topk_clamp.
Qed.

Lemma topk_beyond_levels_is_clamped_witness :
  Features.compute_features 0%nat 2 5 [Fixtures.raw_frame]
  = Features.compute_features 0%nat 2 2 [Fixtures.raw_frame].
Proof.
  apply (topk_beyond_levels_is_clamped [Fixtures.raw_frame] 0%nat 2 5). lia.
Defined.

(** With [topk = 0] no level is added: in every row the three depth
    columns hold 0 and [topk_imbalance], the quotient 0 / 0, is NaN. *)
Theorem topk_zero_gives_zero_depth_and_missing_imbalance
    (s : store) (df : loc) (num_levels : Z) (r : loc) (s' : store)
    (frame : DataFrame) (i : nat) :
  Features.compute_features df num_levels 0 s = Ok (r, s') ->
  s !! df = Some frame ->
  (i < nrows frame)%nat ->
  result_cell (Ok (r, s')) "depth_topk_bid" i = Some (I64 0) /\
  result_cell (Ok (r, s')) "depth_topk_ask" i = Some (I64 0) /\
  result_cell (Ok (r, s')) "depth_total_topk" i = Some (I64 0) /\
  result_cell (Ok (r, s')) "topk_imbalance" i = Some (F64 nan).
Proof.
  intros Hrun Hdf Hi.
  apply Features.compute_features_inv in Hrun
    as (frame' & cols & Hdf' & Hderive & -> & -> & Hall).
  rewrite Hdf in Hdf'. injection Hdf' as <-.
  pose proof (Features.derive_names _ _ _ _ Hderive) as Hnames.
  assert (NoDup cols.*1) as Hnd by (rewrite Hnames; apply Features.derived_names_NoDup).
  destruct (Features.derive_depth_columns _ _ _ _ Hderive)
    as (bs & as_ & Hbs & Has & H5 & H6 & H7 & H8).
  rewrite !Features.topk_depth_zero in *.
  rewrite (Features.level_arrays_shape _ _ _ _ Hbs),
    (Features.level_arrays_shape _ _ _ _ Has) in *.
  rewrite (Features.result_cell_with_columns _ _ _ _ _ _ _ Hnd H5),
    (Features.result_cell_with_columns _ _ _ _ _ _ _ Hnd H6),
    (Features.result_cell_with_columns _ _ _ _ _ _ _ Hnd H7),
    (Features.result_cell_with_columns _ _ _ _ _ _ _ Hnd H8).
  cbn [col_get]. unfold Features.truediv64, Features.sub64, Features.add64.
  rewrite !lookup_zip_with, !lookup_replicate_2 by done. cbn.
  repeat split; reflexivity.
Qed.

Lemma topk_zero_gives_zero_depth_and_missing_imbalance_witness :
  result_cell (Features.compute_features 0%nat 2 0 [Fixtures.raw_frame])
    "depth_topk_bid" 1 = Some (I64 0) /\
  result_cell (Features.compute_features 0%nat 2 0 [Fixtures.raw_frame])
    "depth_topk_ask" 1 = Some (I64 0) /\
  result_cell (Features.compute_features 0%nat 2 0 [Fixtures.raw_frame])
    "depth_total_topk" 1 = Some (I64 0) /\
  result_cell (Features.compute_features 0%nat 2 0 [Fixtures.raw_frame])
    "topk_imbalance" 1 = Some (F64 nan).
Proof.
  destruct (Features.compute_features 0%nat 2 0 [Fixtures.raw_frame])
    as [[r s']|e] eqn:Hrun; [|vm_compute in Hrun; discriminate Hrun].
  apply (topk_zero_gives_zero_depth_and_missing_imbalance [Fixtures.raw_frame] 0%nat 2
           r s' Fixtures.raw_frame 1%nat Hrun).
  - reflexivity.
  - cbn. lia.
Defined.

(** In the first row of the result the event rate is 1 event per
    second (the event itself, over the window of one second) and the
    realized volatility is 0, as long as one second can be subtracted from
    the first timestamp within [int64]. *)
Theorem first_row_rate_and_volatility
    (s : store) (df : loc) (num_levels topk : Z) (r : loc) (s' : store)
    (frame : DataFrame) (t : Z) (rest : list Z) :
  Features.compute_features df num_levels topk s = Ok (r, s') ->
  s !! df = Some frame ->
  get_int frame "time_ns" = Ok (t :: rest) ->
  (0 < nrows frame)%nat ->
  int64_min + 10 ^ 9 <= t <= int64_max ->
  result_cell (Ok (r, s')) "event_rate" 0 = Some (F64 1) /\
  result_cell (Ok (r, s')) "realized_volatility" 0 = Some (F64 0).
Proof.
  intros Hrun Hdf Htime Hrows Ht.
  apply Features.compute_features_inv in Hrun
    as (frame' & cols & Hdf' & Hderive & -> & -> & Hall).
  rewrite Hdf in Hdf'. injection Hdf' as <-.
  pose proof (Features.derive_names _ _ _ _ Hderive) as Hnames.
  assert (NoDup cols.*1) as Hnd by (rewrite Hnames; apply Features.derived_names_NoDup).
  rewrite Forall_lookup in Hall.
  unfold Features.derive in Hderive. repeat Features.ok_bind Hderive.
  injection Htime as ->.
  injection Hderive as <-.
  erewrite (Features.result_cell_with_columns _ _ _ 10 "event_rate"); [|done|reflexivity].
  erewrite (Features.result_cell_with_columns _ _ _ 12 "realized_volatility");
    [|done|reflexivity].
  cbn [col_get]. split.
  - assert (0 <= Features.window_ns_default) as Hw
      by (unfold Features.window_ns_default; lia).
    assert (int64_min + Features.window_ns_default <= t <= int64_max) as Ht'
      by (unfold Features.window_ns_default; lia).
    by rewrite (Features.rolling_event_rate_first _ _ _ _ Hw Ht' E8).
  - pose proof (Hall 12%nat _ eq_refl) as Hlen. cbn [snd col_len] in Hlen.
    match goal with |- F64 <$> ?l !! 0%nat = _ =>
      destruct (lookup_lt_is_Some_2 l 0) as [v Hv]; [lia|]; rewrite Hv;
      apply Features.rolling_std_first in Hv; [by subst|lia] end.
Qed.

Lemma first_row_rate_and_volatility_witness :
  result_cell (Features.compute_features 0%nat 2 2 [Fixtures.raw_frame])
    "event_rate" 0 = Some (F64 1) /\
  result_cell (Features.compute_features 0%nat 2 2 [Fixtures.raw_frame])
    "realized_volatility" 0 = Some (F64 0).
Proof.
  destruct (Features.compute_features 0%nat 2 2 [Fixtures.raw_frame])
    as [[r s']|e] eqn:Hrun; [|vm_compute in Hrun; discriminate Hrun].
  apply (first_row_rate_and_volatility [Fixtures.raw_frame] 0%nat 2 2 r s'
           Fixtures.raw_frame 0 [500000000; 1600000000] Hrun).
  - reflexivity.
  - vm_compute. reflexivity.
  - cbn. lia.
  - unfold int64_min, int64_max. lia.
Defined.

(** ** The event rate on timestamps in any order *)



(** With a window of length zero the first rate is a division by zero:
    on every array that is not empty [_rolling_event_rate] raises
    ZeroDivisionError. *)
Theorem event_rate_zero_window_raises (t : Z) (rest : list Z) :
  in_int64 t ->
  EventRate._rolling_event_rate (t :: rest) 0 = Raise ZeroDivisionError.
Proof. apply EventRate.rolling_event_rate_zero_window. Qed.

Lemma event_rate_zero_window_raises_witness :
  EventRate._rolling_event_rate [5; 6] 0 = Raise ZeroDivisionError.
Proof.
  apply (event_rate_zero_window_raises 5 [6]).
  unfold in_int64, int64_min, int64_max. lia.
Defined.

(** ** The two loaders *)







(** The columns that the order book reader names for [num_levels] levels
    are the level columns [ask_price_l], [ask_size_l], [bid_price_l] and
    [bid_size_l] that the validator and the feature engine ask for with
    the same [num_levels], and no other. *)
Theorem orderbook_columns_are_level_columns (num_levels : Z) (name : string) :
  name ∈ LoadLobster._orderbook_columns num_levels <->
  name ∈ _level_columns "ask_price" num_levels \/
  name ∈ _level_columns "ask_size" num_levels \/
  name ∈ _level_columns "bid_price" num_levels \/
  name ∈ _level_columns "bid_size" num_levels.
Proof. apply LoadLobster.orderbook_columns_levels. Qed.

(** ** The validator *)

(** [add_halt_flags] returns a new frame with the rows of the input, in
    which [is_halt] holds 1 in the rows whose event type is 7 and 0 in the
    others; every other column is unchanged and the objects of the
    caller's store are not touched. *)
Theorem add_halt_flags_marks_halts
    (s : store) (df : loc) (frame : DataFrame) (event_type : list Z) :
  s !! df = Some frame ->
  get_int frame "event_type" = Ok event_type ->
  length event_type = nrows frame ->
  exists out,
    CleanValidate.add_halt_flags df s = Ok (length s, s ++ [out]) /\
    nrows out = nrows frame /\
    (forall name, name <> "is_halt" -> columns out !! name = columns frame !! name) /\
    (forall i e, event_type !! i = Some e ->
       (columns out !! "is_halt") ≫= (fun c => col_get c i)
       = Some (I64 (if e =? 7 then 1 else 0))).
Proof.
  intros Hdf Hev Hlen.
  exists (with_columns frame [("is_halt", IntCol (CleanValidate.halt_flags event_type))]).
  split; [by apply CleanValidate.add_halt_flags_ok|].
  split; [done|]. split.
  - intros name Hne. cbn. by rewrite lookup_insert_ne.
  - intros i e He. cbn. rewrite lookup_insert_eq. cbn.
    unfold CleanValidate.halt_flags. rewrite list_lookup_fmap, He. done.
Qed.

Lemma add_halt_flags_marks_halts_witness :
  exists out,
    CleanValidate.add_halt_flags 0%nat [Fixtures.raw_frame]
    = Ok (length [Fixtures.raw_frame], [Fixtures.raw_frame] ++ [out]) /\
    nrows out = nrows Fixtures.raw_frame /\
    (forall name, name <> "is_halt" ->
       columns out !! name = columns Fixtures.raw_frame !! name) /\
    (forall i e, [1; 4; 7] !! i = Some e ->
       (columns out !! "is_halt") ≫= (fun c => col_get c i)
       = Some (I64 (if e =? 7 then 1 else 0))).
Proof.
  apply (add_halt_flags_marks_halts [Fixtures.raw_frame] 0%nat Fixtures.raw_frame [1; 4; 7]).
  - reflexivity.
  - vm_compute. reflexivity.
  - reflexivity.
Defined.

(** The validator reads the raw columns only: on the frame that
    [add_halt_flags] returned it gives the result it gives on the input,
    and [halt_rows] is the sum of the column [is_halt]. *)
Theorem sanity_checks_ignores_halt_flags
    (s : store) (df : loc) (r : loc) (s' : store) (frame out : DataFrame)
    (num_levels : Z) :
  CleanValidate.add_halt_flags df s = Ok (r, s') ->
  s !! df = Some frame ->
  s' !! r = Some out ->
  CleanValidate.sanity_checks out num_levels = CleanValidate.sanity_checks frame num_levels /\
  forall summary, CleanValidate.sanity_checks out num_levels = Ok summary ->
    exists flags,
      get_int out "is_halt" = Ok flags /\
      CleanValidate.halt_rows summary = foldr Z.add 0 flags.
Proof.
  intros Hrun Hdf Hout.
  assert (exists event_type,
            get_int frame "event_type" = Ok event_type /\
            out = with_columns frame
                    [("is_halt", IntCol (CleanValidate.halt_flags event_type))])
    as (event_type & Hev & ->).
  { unfold CleanValidate.add_halt_flags, mbind, copy in Hrun. rewrite Hdf in Hrun.
    unfold store_getitem in Hrun. rewrite list_lookup_middle in Hrun by done.
    unfold get_int.
    destruct (getitem frame "event_type") as [[v|v]|]; try done.
    unfold store_setitem in Hrun. rewrite list_lookup_middle in Hrun by done.
    destruct (setitem _ _ _) as [d|] eqn:Hset; [|done].
    unfold ret in Hrun. injection Hrun as <- <-.
    rewrite insert_fresh in Hout. rewrite list_lookup_middle in Hout by done.
    injection Hout as <-. exists v. split; [done|].
    unfold setitem in Hset. destruct (decide _); [|done]. by injection Hset as <-. }
  split.
  - apply CleanValidate.sanity_checks_insert_ne, CleanValidate.is_halt_not_sanity_column.
  - intros summary Hsum.
    exists (CleanValidate.halt_flags event_type). split.
    { unfold get_int, getitem. cbn. by rewrite lookup_insert_eq. }
    cbn [with_columns foldl fst snd] in Hsum.
    rewrite CleanValidate.sanity_checks_insert_ne in Hsum
      by apply CleanValidate.is_halt_not_sanity_column.
    unfold CleanValidate.sanity_checks in Hsum.
    repeat Features.ok_bind Hsum. injection Hsum as <-.
    cbn [CleanValidate.halt_rows].
    assert (x5 = event_type) as -> by congruence.
    symmetry. apply CleanValidate.halt_flags_sum.
Qed.

Lemma sanity_checks_ignores_halt_flags_witness :
  exists out,
    CleanValidate.sanity_checks out 2 = CleanValidate.sanity_checks Fixtures.raw_frame 2 /\
    forall summary, CleanValidate.sanity_checks out 2 = Ok summary ->
      exists flags,
        get_int out "is_halt" = Ok flags /\
        CleanValidate.halt_rows summary = foldr Z.add 0 flags.
Proof.
  destruct (CleanValidate.add_halt_flags 0%nat [Fixtures.raw_frame])
    as [[r s']|e] eqn:Hrun; [|vm_compute in Hrun; discriminate Hrun].
  destruct (s' !! r) as [out|] eqn:Hout.
  2:{ exfalso. vm_compute in Hrun. injection Hrun as <- <-. discriminate Hout. }
  exists out.
  apply (sanity_checks_ignores_halt_flags [Fixtures.raw_frame] 0%nat r s'
           Fixtures.raw_frame out 2 Hrun).
  - reflexivity.
  - exact Hout.
Defined.

(** A level whose price is the sentinel while the next level of the side
    holds a price is a violation: when in some row the bid (ask) price of
    level [l] is the sentinel and the price of level [l + 1] is not, the
    summary reports [bid_monotonic = 0] ([ask_monotonic = 0]). *)
Theorem gap_in_levels_breaks_monotonic
    (df : DataFrame) (num_levels : Z) (summary : CleanValidate.Summary)
    (bid_side : bool) (l : nat) (upper lower : list Z) (i : nat) (y : Z) :
  let prefix := if bid_side then "bid_price" else "ask_price" in
  let dummy := if bid_side then DUMMY_BID else DUMMY_ASK in
  CleanValidate.sanity_checks df num_levels = Ok summary ->
  Z.of_nat l + 1 < num_levels ->
  get_int df (prefix +:+ "_" +:+ pretty (1 + Z.of_nat l)) = Ok upper ->
  get_int df (prefix +:+ "_" +:+ pretty (1 + Z.of_nat (S l))) = Ok lower ->
  upper !! i = Some dummy ->
  lower !! i = Some y ->
  y <> dummy ->
  (if bid_side then CleanValidate.bid_monotonic summary
   else CleanValidate.ask_monotonic summary) = 0.
Proof.
  intros prefix dummy Hrun Hl Hupper Hlower Hd Hy Hne.
  unfold CleanValidate.sanity_checks in Hrun. repeat Features.ok_bind Hrun.
  injection Hrun as <-.
  cbn [CleanValidate.bid_monotonic CleanValidate.ask_monotonic].
  destruct bid_side; subst prefix dummy.
  - destruct (CleanValidate.level_arrays_lookup _ _ _ _ l E3) as (c1 & Hc1 & Hl1); [lia|].
    destruct (CleanValidate.level_arrays_lookup _ _ _ _ (S l) E3) as (c2 & Hc2 & Hl2); [lia|].
    rewrite Hupper in Hc1. injection Hc1 as <-.
    rewrite Hlower in Hc2. injection Hc2 as <-.
    rewrite (CleanValidate.monotonic_gap _ _ _ _ l upper lower i y); try done.
    intros f Hf. exact (proj1 (CleanValidate.number_leb_infinity f Hf)).
  - destruct (CleanValidate.level_arrays_lookup _ _ _ _ l E4) as (c1 & Hc1 & Hl1); [lia|].
    destruct (CleanValidate.level_arrays_lookup _ _ _ _ (S l) E4) as (c2 & Hc2 & Hl2); [lia|].
    rewrite Hupper in Hc1. injection Hc1 as <-.
    rewrite Hlower in Hc2. injection Hc2 as <-.
    rewrite (CleanValidate.monotonic_gap _ _ _ _ l upper lower i y); try done.
    intros f Hf. exact (proj2 (CleanValidate.number_leb_infinity f Hf)).
Qed.

(** In row 1 of the fixture the first bid level is absent and the second
    holds the price 998. *)
Lemma gap_in_levels_breaks_monotonic_witness :
  exists summary,
    CleanValidate.sanity_checks Fixtures.gap_frame 2 = Ok summary /\
    CleanValidate.bid_monotonic summary = 0.
Proof.
  destruct (CleanValidate.sanity_checks Fixtures.gap_frame 2) as [summary|e] eqn:Hrun;
    [|vm_compute in Hrun; discriminate Hrun].
  exists summary. split; [reflexivity|].
  apply (gap_in_levels_breaks_monotonic Fixtures.gap_frame 2 summary true 0%nat
           [1000; DUMMY_BID; 1005] [999; 998; 999] 1%nat 998 Hrun).
  - lia.
  - vm_compute. reflexivity.
  - vm_compute. reflexivity.
  - reflexivity.
  - reflexivity.
  - unfold DUMMY_BID. lia.
Defined.

(** ** The labels *)

(** For every integer horizon [h] (ahead when positive, back when
    negative) and every row [i] for which row [i + h] exists,
    [raw_move_H] is the mid of row [i + h] minus the mid of row [i], and
    [label_H] is 1 when the move exceeds [max(spread / 2, 1)], -1 when it
    is below the opposite, 0 otherwise. *)
Theorem raw_move_is_shifted_difference
    (s : store) (df : loc) (horizons : list Z) (r : loc) (s' : store)
    (frame : DataFrame) (mid spread : list float) (horizon : Z) (i : nat)
    (m sp future : float) :
  Labels.generate_labels df horizons s = Ok (r, s') ->
  s !! df = Some frame ->
  horizon ∈ horizons ->
  get_float frame "mid" = Ok mid ->
  get_float frame "spread" = Ok spread ->
  mid !! i = Some m ->
  spread !! i = Some sp ->
  0 <= Z.of_nat i + horizon ->
  mid !! Z.to_nat (Z.of_nat i + horizon) = Some future ->
  result_cell (Ok (r, s')) (Labels.raw_move_name horizon) i
  = Some (F64 (future - m)) /\
  result_cell (Ok (r, s')) (Labels.label_name horizon) i
  = Some (I64 (if (maximum (sp / 2) 1 <? future - m)%float then 1
               else if (future - m <? - maximum (sp / 2) 1)%float then -1
               else 0)).
Proof.
  intros Hrun Hdf Hin Hmid Hspread Hm Hsp Hpos Hfuture.
  pose proof (Labels.generate_labels_cells _ _ _ _ _ _ _ _ _ _ _ _
                Hrun Hdf Hin Hmid Hspread Hm Hsp) as Hcells.
  cbn zeta in Hcells.
  assert (Labels.shifted (- horizon) mid i = future) as Hshift.
  { unfold Labels.shifted.
    replace (Z.of_nat i - - horizon) with (Z.of_nat i + horizon) by lia.
    apply lookup_lt_Some in Hfuture as Hlt.
    destruct (Z.leb_spec 0 (Z.of_nat i + horizon)); [|lia].
    destruct (Z.ltb_spec (Z.of_nat i + horizon) (Z.of_nat (length mid))); [|lia].
    cbn [andb]. by rewrite Hfuture. }
  rewrite Hshift in Hcells. exact Hcells.
Qed.

(** Row 0 of the drifting series, two events ahead. *)
Lemma raw_move_is_shifted_difference_witness :
  result_cell (Labels.generate_labels 0%nat [1; 2] [Fixtures.drift_frame])
    (Labels.raw_move_name 2) 0 = Some (F64 (110 - 100)) /\
  result_cell (Labels.generate_labels 0%nat [1; 2] [Fixtures.drift_frame])
    (Labels.label_name 2) 0
  = Some (I64 (if (maximum (2 / 2) 1 <? 110 - 100)%float then 1
               else if (110 - 100 <? - maximum (2 / 2) 1)%float then -1
               else 0)).
Proof.
  destruct (Labels.generate_labels 0%nat [1; 2] [Fixtures.drift_frame])
    as [[r s']|e] eqn:Hrun; [|vm_compute in Hrun; discriminate Hrun].
  apply (raw_move_is_shifted_difference [Fixtures.drift_frame] 0%nat [1; 2] r s'
           Fixtures.drift_frame [100; 105; 110; 115]%float [2; 2; 2; 2]%float 2 0%nat
           100%float 2%float 110%float Hrun).
  - reflexivity.
  - rewrite !elem_of_cons. auto.
  - vm_compute. reflexivity.
  - vm_compute. reflexivity.
  - reflexivity.
  - reflexivity.
  - lia.
  - reflexivity.
Defined.

(** A label is one of 1, -1 and 0, and it is not 0 only in a row in
    which both the move and the spread are numbers: a row whose move or
    whose spread is NaN is labelled 0. *)
Theorem nonzero_label_needs_move_and_spread
    (s : store) (df : loc) (horizons : list Z) (r : loc) (s' : store)
    (frame : DataFrame) (mid spread : list float) (horizon : Z) (i : nat)
    (m sp : float) :
  Labels.generate_labels df horizons s = Ok (r, s') ->
  s !! df = Some frame ->
  horizon ∈ horizons ->
  get_float frame "mid" = Ok mid ->
  get_float frame "spread" = Ok spread ->
  mid !! i = Some m ->
  spread !! i = Some sp ->
  exists raw_move label,
    result_cell (Ok (r, s')) (Labels.raw_move_name horizon) i = Some (F64 raw_move) /\
    result_cell (Ok (r, s')) (Labels.label_name horizon) i = Some (I64 label) /\
    (label = 1 \/ label = -1 \/ label = 0) /\
    (label <> 0 -> is_nan raw_move = false /\ is_nan sp = false).
Proof.
  intros Hrun Hdf Hin Hmid Hspread Hm Hsp.
  destruct (Labels.generate_labels_cells _ _ _ _ _ _ _ _ _ _ _ _
              Hrun Hdf Hin Hmid Hspread Hm Hsp) as [Hraw Hlab].
  do 2 eexists. split; [exact Hraw|]. split; [exact Hlab|].
  split; [apply Labels.label_of_values|apply Labels.label_of_not_zero].
Qed.

Lemma nonzero_label_needs_move_and_spread_witness :
  exists raw_move label,
    result_cell (Labels.generate_labels 0%nat [1; 2] [Fixtures.drift_frame])
      (Labels.raw_move_name 1) 3 = Some (F64 raw_move) /\
    result_cell (Labels.generate_labels 0%nat [1; 2] [Fixtures.drift_frame])
      (Labels.label_name 1) 3 = Some (I64 label) /\
    (label = 1 \/ label = -1 \/ label = 0) /\
    (label <> 0 -> is_nan raw_move = false /\ is_nan 2%float = false).
Proof.
  destruct (Labels.generate_labels 0%nat [1; 2] [Fixtures.drift_frame])
    as [[r s']|e] eqn:Hrun; [|vm_compute in Hrun; discriminate Hrun].
  apply (nonzero_label_needs_move_and_spread [Fixtures.drift_frame] 0%nat [1; 2] r s'
           Fixtures.drift_frame [100; 105; 110; 115]%float [2; 2; 2; 2]%float 1 3%nat
           115%float 2%float Hrun).
  - reflexivity.
  - rewrite !elem_of_cons. auto.
  - vm_compute. reflexivity.
  - vm_compute. reflexivity.
  - reflexivity.
  - reflexivity.
Defined.



(** A frame without the column [mid] is refused with KeyError as soon
    as one horizon is requested; with no horizon the frame is copied and
    the columns are not read. *)
Theorem generate_labels_reads_mid_per_horizon
    (s : store) (df : loc) (frame : DataFrame) (horizon : Z) (horizons : list Z) :
  s !! df = Some frame ->
  columns frame !! "mid" = None ->
  Labels.generate_labels df (horizon :: horizons) s = Raise KeyError /\
  Labels.generate_labels df [] s = Ok (length s, s ++ [frame]).
Proof.
  intros Hdf Hmid. split; [by eapply Labels.generate_labels_missing_mid|].
  unfold Labels.generate_labels, mbind, copy. rewrite Hdf. done.
Qed.

(** The raw fixture has no [mid]. *)
Lemma generate_labels_reads_mid_per_horizon_witness :
  Labels.generate_labels 0%nat (1 :: [5]) [Fixtures.raw_frame] = Raise KeyError /\
  Labels.generate_labels 0%nat [] [Fixtures.raw_frame]
  = Ok (length [Fixtures.raw_frame], [Fixtures.raw_frame] ++ [Fixtures.raw_frame]).
Proof.
  apply (generate_labels_reads_mid_per_horizon [Fixtures.raw_frame] 0%nat
           Fixtures.raw_frame 1 [5]).
  - reflexivity.
  - vm_compute. reflexivity.
Defined.

(** ** The run over one pair of sources *)



(** The run does not depend on the mode of the loader: on two
    well-formed sources of the same length that are not empty, with a
    chunk size that is not negative, [_process_pair] gives with the
    chunked loader what it gives with the batch loader. *)
Theorem process_pair_same_in_both_modes
    (message orderbook : DataFrame) (time_sec : list float) (cfg : Run.Config)
    (s : store) :
  wf_frame message -> wf_frame orderbook ->
  nrows message = nrows orderbook ->
  columns message !! "time_sec" = Some (FloatCol time_sec) ->
  0 <= Run.chunk_rows cfg ->
  (0 < nrows message)%nat ->
  Run.load_frame message orderbook true cfg = Run.load_frame message orderbook false cfg /\
  Run._process_pair message orderbook true cfg s
  = Run._process_pair message orderbook false cfg s.
Proof.
  intros Hwm Hwo Hn Hts Hc Hrows.
  assert (Run.load_frame message orderbook true cfg
          = Run.load_frame message orderbook false cfg) as Hload.
  { destruct (LoadLobster.finite_times time_sec) eqn:Hfin.
    - destruct (Run.load_frame_loaded message orderbook time_sec true cfg) as [-> _];
        try done.
      by destruct (Run.load_frame_loaded message orderbook time_sec false cfg) as [-> _].
    - rewrite (Run.load_frame_not_finite message orderbook time_sec true cfg) by done.
      by rewrite (Run.load_frame_not_finite message orderbook time_sec false cfg). }
  split; [done|]. unfold Run._process_pair. by rewrite Hload.
Qed.

Lemma process_pair_same_in_both_modes_witness :
  Run.load_frame Fixtures.message_rows Fixtures.orderbook_rows true
    (Run.mkConfig 2 2 [1; 2] 2)
  = Run.load_frame Fixtures.message_rows Fixtures.orderbook_rows false
      (Run.mkConfig 2 2 [1; 2] 2) /\
  Run._process_pair Fixtures.message_rows Fixtures.orderbook_rows true
    (Run.mkConfig 2 2 [1; 2] 2) []
  = Run._process_pair Fixtures.message_rows Fixtures.orderbook_rows false
      (Run.mkConfig 2 2 [1; 2] 2) [].
Proof.
  apply (process_pair_same_in_both_modes Fixtures.message_rows Fixtures.orderbook_rows
           [0; 0.5; 1.6]%float (Run.mkConfig 2 2 [1; 2] 2) []).
  - apply fixture_message_frame.
  - apply fixture_orderbook_frame.
  - reflexivity.
  - vm_compute. reflexivity.
  - cbn. lia.
  - cbn. lia.
Defined.

(** In every row of the result [event_rate] and [realized_volatility]
    are numbers or infinities, never NaN, whatever the frame holds. *)
Theorem event_rate_and_volatility_are_never_missing
    (s : store) (df : loc) (num_levels topk : Z) (r : loc) (s' : store)
    (frame : DataFrame) (i : nat) :
  Features.compute_features df num_levels topk s = Ok (r, s') ->
  s !! df = Some frame ->
  (i < nrows frame)%nat ->
  exists rate volatility,
    result_cell (Ok (r, s')) "event_rate" i = Some (F64 rate) /\
    result_cell (Ok (r, s')) "realized_volatility" i = Some (F64 volatility) /\
    is_nan rate = false /\ is_nan volatility = false.
Proof.
  intros Hrun Hdf Hi.
  apply Features.compute_features_inv in Hrun
    as (frame' & cols & Hdf' & Hderive & -> & -> & Hall).
  rewrite Hdf in Hdf'. injection Hdf' as <-.
  pose proof (Features.derive_names _ _ _ _ Hderive) as Hnames.
  assert (NoDup cols.*1) as Hnd by (rewrite Hnames; apply Features.derived_names_NoDup).
  rewrite Forall_lookup in Hall.
  unfold Features.derive in Hderive. repeat Features.ok_bind Hderive.
  injection Hderive as <-.
  erewrite (Features.result_cell_with_columns _ _ _ 10 "event_rate"); [|done|reflexivity].
  erewrite (Features.result_cell_with_columns _ _ _ 12 "realized_volatility");
    [|done|reflexivity].
  cbn [col_get].
  pose proof (Hall 10%nat _ eq_refl) as Hlen10. pose proof (Hall 12%nat _ eq_refl) as Hlen12.
  cbn [snd col_len] in Hlen10, Hlen12.
  destruct (lookup_lt_is_Some_2 x8 i) as [rate Hrate]; [lia|].
  match type of Hlen12 with length ?l = _ =>
    destruct (lookup_lt_is_Some_2 l i) as [vol Hvol]; [lia|];
    pose proof (Features.rolling_std_not_nan
                  (Features.fillna 0
                     (Features.pct_change
                        (zip_with (fun b a : float => ((b + a) / 2)%float) x3 x4))) 100)
      as Hstd
  end.
  exists rate, vol. rewrite Hrate, Hvol. split; [done|]. split; [done|]. split.
  - assert (exists sg m e,
              Prim2SF (EventRate.window_seconds Features.window_ns_default)
              = S754_finite sg m e) as (sg & m & e & Hsec).
    { do 3 eexists. vm_compute. reflexivity. }
    pose proof (Features.sweep_not_nan _ _ _ _ _ _ _ _ _ Hsec E8) as Hrates.
    rewrite Forall_lookup in Hrates. by eapply Hrates.
  - rewrite Forall_lookup in Hstd. by eapply Hstd.
Qed.

(** Row 1 of the fixture, in which [mid] and [spread] are NaN. *)
Lemma event_rate_and_volatility_are_never_missing_witness :
  exists rate volatility,
    result_cell (Features.compute_features 0%nat 2 2 [Fixtures.raw_frame])
      "event_rate" 1 = Some (F64 rate) /\
    result_cell (Features.compute_features 0%nat 2 2 [Fixtures.raw_frame])
      "realized_volatility" 1 = Some (F64 volatility) /\
    is_nan rate = false /\ is_nan volatility = false.
Proof.
  destruct (Features.compute_features 0%nat 2 2 [Fixtures.raw_frame])
    as [[r s']|e] eqn:Hrun; [|vm_compute in Hrun; discriminate Hrun].
  apply (event_rate_and_volatility_are_never_missing [Fixtures.raw_frame] 0%nat 2 2 r s'
           Fixtures.raw_frame 1%nat Hrun).
  - reflexivity.
  - cbn. lia.
Defined.

(** With at most one level there is no pair of adjacent levels to
    compare: whatever the prices, the summary reports both sides monotonic. *)
Theorem single_level_is_monotonic
    (df : DataFrame) (num_levels : Z) (summary : CleanValidate.Summary) :
  num_levels <= 1 ->
  CleanValidate.sanity_checks df num_levels = Ok summary ->
  CleanValidate.bid_monotonic summary = 1 /\ CleanValidate.ask_monotonic summary = 1.
Proof.
  intros Hn Hrun. unfold CleanValidate.sanity_checks in Hrun.
  repeat Features.ok_bind Hrun. injection Hrun as <-.
  cbn [CleanValidate.bid_monotonic CleanValidate.ask_monotonic].
  apply Features.level_arrays_width in E3, E4.
  unfold CleanValidate.monotonic.
  rewrite !CleanValidate.adjacent_all_short; [done|..];
    rewrite length_fmap, CleanValidate.length_replaced_values; lia.
Qed.

(** The crossed fixture, read with one level. *)
Lemma single_level_is_monotonic_witness :
  exists summary,
    CleanValidate.sanity_checks Fixtures.raw_frame 1 = Ok summary /\
    CleanValidate.bid_monotonic summary = 1 /\ CleanValidate.ask_monotonic summary = 1.
Proof.
  destruct (CleanValidate.sanity_checks Fixtures.raw_frame 1) as [summary|e] eqn:Hrun;
    [|vm_compute in Hrun; discriminate Hrun].
  exists summary. split; [reflexivity|].
  apply (single_level_is_monotonic Fixtures.raw_frame 1 summary).
  - lia.
  - exact Hrun.
Defined.

(** ** The simulator, event by event *)

Section StrategyRuns.

Import Strategy.
#[local] Open Scope R_scope.

Variable Book : Type.
Variable new_book : Book.
Variable add_order : Book -> Z -> R -> Z -> Side -> Book.
Variable match_book : Book -> Book * list Trade.
Variable top_levels : Book -> nat -> levels * levels.
Variable Snapshot : Type.
Variable as_snapshot : levels * levels -> Snapshot.
Variable predict : list Snapshot -> R.

#[local] Abbreviation sim_step := (step Book add_order match_book top_levels Snapshot as_snapshot predict).
#[local] Abbreviation sim_run := (run_events Book add_order match_book top_levels Snapshot as_snapshot predict).
#[local] Abbreviation sim_init := (init Book new_book Snapshot).
#[local] Abbreviation sim_backtest :=
  (run_backtest Book new_book add_order match_book top_levels Snapshot as_snapshot predict).

(** An iteration numbers its orders from the counter on and leaves the
    counter after the last one. *)
Lemma step_order_ids params idx event (st st' : Sim Book Snapshot) orders :
  sim_step params idx event st = Ok (st', orders) ->
  sub_id <$> orders = seqZ (order_id _ _ st) (Z.of_nat (length orders)) /\
  order_id _ _ st' = (order_id _ _ st + Z.of_nat (length orders))%Z.
Proof.
  unfold step. destruct (_ <? WIDTH)%nat.
  - intros H. injection H as <- <-. cbn [length fmap list_fmap sub_id order_id].
    split; [|lia]. change (Z.of_nat 1) with 1%Z. rewrite seqZ_cons by lia. by rewrite seqZ_nil.
  - destruct (best_price _) as [bb|]; [|done].
    destruct (best_price _) as [ba|]; [|done]. cbn [bind].
    destruct (optimal_spread _ _) as [spread|]; [|done]. cbn [bind].
    match goal with
    | |- context [match_book (add_order (add_order ?b ?i ?q ?z ?d) ?i' ?q' ?z' ?d')] =>
        destruct (match_book (add_order (add_order b i q z d) i' q' z' d'))
          as [book5 matches]
    end.
    intros H. injection H as <- <-.
    match goal with |- context [foldl (settle _ _ ?a) ?s matches] =>
      destruct (settle_all Book Snapshot a matches s) as (_ & _ & _ & _ & _ & ->) end.
    cbn [length fmap list_fmap sub_id order_id]. split; [|lia].
    change (Z.of_nat 3) with 3%Z. rewrite !seqZ_cons by lia. rewrite seqZ_nil by lia.
    repeat f_equal; lia.
Qed.

Lemma run_order_ids params events idx (st st' : Sim Book Snapshot) log :
  sim_run params idx events st = Ok (st', log) ->
  sub_id <$> concat log = seqZ (order_id _ _ st) (Z.of_nat (length (concat log))) /\
  order_id _ _ st' = (order_id _ _ st + Z.of_nat (length (concat log)))%Z.
Proof.
  revert idx st log. induction events as [|event events IH]; intros idx st log; cbn [run_events].
  - intros H. injection H as <- <-. cbn. split; [done|lia].
  - destruct (sim_step params idx event st) as [[st1 orders]|] eqn:Hstep; [|done].
    cbn [bind fst snd].
    destruct (sim_run params (S idx) events st1) as [[st2 log']|] eqn:Hrun; [|done].
    cbn [bind fst snd]. intros H. injection H as <- <-.
    destruct (step_order_ids _ _ _ _ _ _ Hstep) as [Hids Hnext].
    destruct (IH _ _ _ Hrun) as [Hids' Hlast].
    cbn [concat]. rewrite fmap_app, length_app, Hids, Hids', Hnext, Hlast.
    split; [|lia].
    rewrite Nat2Z.inj_add, seqZ_app by lia. done.
Qed.






(** The orders of a run are numbered 1, 2, 3, ... in the order of their
    submission, market events and quotes alike; the counter ends one above
    the number of orders, and [orders_per_second] is this counter, not the
    number of orders, over the elapsed time ([0] when no time elapsed). *)
Theorem order_ids_are_consecutive
    (params : AvellanedaStoikovParams) (events : list LobsterEvent)
    (st : Sim Book Snapshot) (log : list (list Submitted)) :
  sim_run params 0 events sim_init = Ok (st, log) ->
  sub_id <$> concat log = seqZ 1 (Z.of_nat (length (concat log))) /\
  order_id _ _ st = (1 + Z.of_nat (length (concat log)))%Z /\
  forall elapsed result,
    sim_backtest events params elapsed = Ok result ->
    orders_per_second result
    = if Rlt_dec 0 elapsed
      then IZR (1 + Z.of_nat (length (concat log))) / elapsed
      else 0.
Proof.
  intros Hrun. destruct (run_order_ids _ _ _ _ _ _ Hrun) as [Hids Hlast].
  cbn [init order_id] in Hids, Hlast.
  split; [done|]. split; [done|].
  intros elapsed result. unfold run_backtest. rewrite Hrun. cbn [bind fst].
  destruct (final_mid _ _ _) as [fm|]; [|done]. cbn [bind].
  intros H. injection H as <-. cbn [orders_per_second]. by rewrite Hlast.
Qed.




End StrategyRuns.

(** *** Runs on the quiet engine *)

Lemma quiet_engine_answers :
  Strategy.engine_answers unit (fun _ => Strategy.quiet_levels).
Proof. intros b. split; discriminate. Qed.

Lemma reference_params_valid : Strategy.valid_params Strategy.reference_params.
Proof. split; cbn; lra. Qed.

(** Sixty events: eleven of them are followed by two quotes. *)
Lemma order_ids_are_consecutive_witness :
  exists st log,
    Strategy.quiet_run (replicate 60 (Strategy.mkEvent 1 100 1 1)) = Ok (st, log) /\
    (Strategy.sub_id <$> concat log = seqZ 1 (Z.of_nat (length (concat log))) /\
     Strategy.order_id _ _ st = 1 + Z.of_nat (length (concat log)) /\
     forall elapsed result,
       Strategy.run_backtest unit tt (fun _ _ _ _ _ => tt) (fun _ => (tt, []))
         (fun _ => Strategy.quiet_levels) unit (fun _ => tt) (fun _ => 0%R)
         (replicate 60 (Strategy.mkEvent 1 100 1 1)) Strategy.reference_params elapsed
       = Ok result ->
       Strategy.orders_per_second result
       = if Rlt_dec 0 elapsed
         then (IZR (1 + Z.of_nat (length (concat log))) / elapsed)%R
         else 0%R).
Proof.
  destruct (Strategy.run_events_log unit (fun _ _ _ _ _ => tt) (fun _ => (tt, []))
              (fun _ => Strategy.quiet_levels) unit (fun _ => tt) (fun _ => 0%R)
              Strategy.reference_params (replicate 60 (Strategy.mkEvent 1 100 1 1))
              0 (Strategy.init unit tt unit) quiet_engine_answers reference_params_valid)
    as (st & log & Hrun & _); [done|].
  exists st, log. split; [exact Hrun|].
  exact (order_ids_are_consecutive unit tt (fun _ _ _ _ _ => tt) (fun _ => (tt, []))
           (fun _ => Strategy.quiet_levels) unit (fun _ => tt) (fun _ => 0%R)
           Strategy.reference_params (replicate 60 (Strategy.mkEvent 1 100 1 1))
           st log Hrun).
Defined.



